(** * sdk::ThreadPool — a shallow embedding and its verified properties

    Sources embedded here:
    - [include/sdk/threading/thread_pool.h]  (enums, [TaskInfo],
      [ThreadPoolStats], [ThreadPool::Task], the [submit] templates);
    - [src/threading/thread_pool.cpp]        (constructor, [workerThread],
      [updateStats], [cancelTask], [cancelPendingTasks], [resize],
      the accessors, [waitForAll], [waitFor], [shutdown], [forceShutdown],
      and the C interface at its end);
    - [include/sdk/sdk_c_api.h]              (the types of the C interface);
    - [src/sdk_core.cpp]                     ([isInitialized] and
      [getThreadPool] of the singleton, as the C interface uses them).

    Conventions.
    - A [std::shared_ptr<T>] is an index into a store of [T] objects kept in
      the machine state; two pointers alias iff the indices are equal.  The
      store keeps an object after its last pointer is gone, where the
      program destroys it.
    - A [system_clock::time_point] is the integer count of clock ticks since
      the epoch; [system_clock::now()] reads the [clock] of the machine state.
    - [size_t] values are integers reduced modulo [2^64]; [double] values are
      idealised as exact rationals.
    - C++ exceptions are the [Throw] case of the result type [Except].
    - Threads are interleaved at the granularity of the critical sections and
      of the call of the user's callable; see [Action].  A worker writes to
      the record of its task without holding [queue_mutex_] (lines 68-89):
      the interleavings of such a write with the two halves of [cancelTask]
      are not among those of the model.
    - A call returns normally unless the source has a [throw] on its path;
      running out of threads is modelled where a caller handles it, in
      [resize_within] and [sdk_thread_pool_resize]. *)

From Stdlib Require Import ZArith QArith Lia.
From stdpp Require Import gmap strings list pretty.

Local Open Scope Z_scope.

(** ** Enumerations ([thread_pool.h], lines 17-31) *)

Inductive TaskPriority := LOW | NORMAL | HIGH | CRITICAL.

Inductive TaskStatus := PENDING | RUNNING | COMPLETED | FAILED | CANCELLED.

(** The underlying value of the enumerators, by which [priority < other.priority]
    and [priority != other.priority] compare. *)
Definition priority_rank (p : TaskPriority) : Z :=
  match p with LOW => 0 | NORMAL => 1 | HIGH => 2 | CRITICAL => 3 end.

#[global] Instance TaskPriority_eq_dec : EqDecision TaskPriority.
Proof. solve_decision. Defined.

#[global] Instance TaskStatus_eq_dec : EqDecision TaskStatus.
Proof. solve_decision. Defined.

(** ** Exceptions and futures *)

(** What a [catch (const std::exception& e)] / [catch (...)] pair can tell
    apart: an exception derived from [std::exception], with its [what()],
    or anything else. *)
Inductive exception :=
| std_exception (what : string)
| other_exception.

Inductive Except (A : Type) :=
| Ok (a : A)
| Throw (e : exception).
Arguments Ok {A} a.
Arguments Throw {A} e.

(** The behaviour of the user's bound callable [std::bind(f, args...)] when
    it is invoked: it returns a value or throws. *)
Inductive outcome :=
| returns (v : Z)
| throws (e : exception).

(** The shared state of a [std::packaged_task] and its [std::future]. *)
Inductive future_state :=
| not_ready
| ready_value (v : Z)
| ready_exception (e : exception).

(** What running the callable puts into the shared state. *)
Definition promised (w : outcome) : future_state :=
  match w with
  | returns v => ready_value v
  | throws e => ready_exception e
  end.

Module PackagedTask.
Record t := mk { work : outcome; shared_state : future_state }.
End PackagedTask.

(** ** [struct TaskInfo] ([thread_pool.h], lines 34-42) *)

Module TaskInfo.
Record t := mk {
  id : string;
  priority : TaskPriority;
  status : TaskStatus;
  submit_time : Z;
  start_time : Z;
  end_time : Z;
  error_message : string
}.

(** [std::make_shared<TaskInfo>()]: value-initialised members. *)
Definition default : t := mk "" LOW PENDING 0 0 0 "".

Definition with_status (v : TaskStatus) (i : t) : t :=
  mk (id i) (priority i) v (submit_time i) (start_time i) (end_time i) (error_message i).
Definition with_start_time (v : Z) (i : t) : t :=
  mk (id i) (priority i) (status i) (submit_time i) v (end_time i) (error_message i).
Definition with_end_time (v : Z) (i : t) : t :=
  mk (id i) (priority i) (status i) (submit_time i) (start_time i) v (error_message i).
Definition with_error_message (v : string) (i : t) : t :=
  mk (id i) (priority i) (status i) (submit_time i) (start_time i) (end_time i) v.
End TaskInfo.

(** ** [struct ThreadPoolStats] ([thread_pool.h], lines 45-53) *)

Module ThreadPoolStats.
Record t := mk {
  thread_count : Z;
  active_threads : Z;
  pending_tasks : Z;
  completed_tasks : Z;
  failed_tasks : Z;
  average_task_duration_ms : Q;
  start_time : Z
}.
End ThreadPoolStats.

(** ** [struct ThreadPool::Task] ([thread_pool.h], lines 126-140) *)

(** The lambda built in [submit] captures [task] (the shared packaged task)
    and [task_info] by value; a [std::function<void()>] holding it is that
    pair of pointers, and an empty [std::function] is [None]. *)
Module Closure.
Record t := mk { task : nat; task_info : nat }.
End Closure.

Module Task.
Record t := mk {
  id : string;
  priority : TaskPriority;
  function : option Closure.t;
  submit_time : Z;
  info : nat
}.

(** [bool operator<(const Task& other) const], lines 134-139. *)
Definition lt (a other : t) : bool :=
  if decide (priority a ≠ priority other)
  then priority_rank (priority a) <? priority_rank (priority other)
  else submit_time a >? submit_time other.
End Task.


(** ** [std::priority_queue<Task>]

    The container adaptor is specified by the standard only through its
    comparison: [top()] is an element that is not less than any other, and
    [pop()] removes that element.  The queue is modelled by the sequence of
    its elements in insertion order; [extract] scans it for a greatest
    element (the earliest inserted one among equivalent elements). *)
Module PriorityQueue.

Definition t := list Task.t.

Definition empty (q : t) : bool :=
  match q with [] => true | _ => false end.

Definition size (q : t) : nat := length q.

Definition push (x : Task.t) (q : t) : t := q ++ [x].

(** The greatest element together with the remaining elements. *)
Fixpoint extract (q : t) : option (Task.t * t) :=
  match q with
  | [] => None
  | x :: q' =>
      match extract q' with
      | None => Some (x, [])
      | Some (m, r) => if Task.lt x m then Some (m, x :: r) else Some (x, q')
      end
  end.

Definition top (q : t) : option Task.t := fst <$> extract q.

Definition pop (q : t) : t :=
  match extract q with Some (_, r) => r | None => [] end.

End PriorityQueue.

(** ** Arithmetic of [size_t] *)

Definition size_t (z : Z) : Z := z mod 2 ^ 64.

(** [system_clock::duration] is implementation-defined; it is nanoseconds in
    libstdc++, whence the number of ticks in one millisecond. *)
Definition ticks_per_ms : Z := 1000000.

(** [std::chrono::duration_cast<std::chrono::milliseconds>(d).count()]:
    integer division truncating towards zero. *)
Definition duration_cast_ms (d : Z) : Z := Z.quot d ticks_per_ms.

(** ** The machine state

    The members of [class ThreadPool] ([thread_pool.h], lines 152-168),
    the objects they point to, and the clock. *)

(** Where a worker thread stands in [workerThread]. *)
Inductive Worker :=
| Waiting                    (* at [condition_.wait], line 48, mutex released *)
| Holding (task : Task.t)    (* after the critical section, before line 68 *)
| Executing (task : Task.t)  (* inside [task.function()], at the call [( *task)()] *)
| Exited.                    (* left the loop through [break], line 54 *)

Record State := mkState {
  workers_ : list Worker;
  tasks_ : PriorityQueue.t;
  task_infos_ : gmap string nat;
  stop_ : bool;
  force_stop_ : bool;
  active_threads_ : Z;
  task_counter_ : Z;
  stats_ : ThreadPoolStats.t;
  (* objects owned through [std::shared_ptr] *)
  infos : list TaskInfo.t;
  packaged : list PackagedTask.t;
  (* [std::chrono::system_clock] *)
  clock : Z
}.

Definition set_workers (v : list Worker) (s : State) : State :=
  mkState v (tasks_ s) (task_infos_ s) (stop_ s) (force_stop_ s)
    (active_threads_ s) (task_counter_ s) (stats_ s) (infos s) (packaged s) (clock s).
Definition set_tasks (v : PriorityQueue.t) (s : State) : State :=
  mkState (workers_ s) v (task_infos_ s) (stop_ s) (force_stop_ s)
    (active_threads_ s) (task_counter_ s) (stats_ s) (infos s) (packaged s) (clock s).
Definition set_task_infos (v : gmap string nat) (s : State) : State :=
  mkState (workers_ s) (tasks_ s) v (stop_ s) (force_stop_ s)
    (active_threads_ s) (task_counter_ s) (stats_ s) (infos s) (packaged s) (clock s).
Definition set_stop (v : bool) (s : State) : State :=
  mkState (workers_ s) (tasks_ s) (task_infos_ s) v (force_stop_ s)
    (active_threads_ s) (task_counter_ s) (stats_ s) (infos s) (packaged s) (clock s).
Definition set_force_stop (v : bool) (s : State) : State :=
  mkState (workers_ s) (tasks_ s) (task_infos_ s) (stop_ s) v
    (active_threads_ s) (task_counter_ s) (stats_ s) (infos s) (packaged s) (clock s).
Definition set_active_threads (v : Z) (s : State) : State :=
  mkState (workers_ s) (tasks_ s) (task_infos_ s) (stop_ s) (force_stop_ s)
    v (task_counter_ s) (stats_ s) (infos s) (packaged s) (clock s).
Definition set_stats (v : ThreadPoolStats.t) (s : State) : State :=
  mkState (workers_ s) (tasks_ s) (task_infos_ s) (stop_ s) (force_stop_ s)
    (active_threads_ s) (task_counter_ s) v (infos s) (packaged s) (clock s).
Definition set_infos (v : list TaskInfo.t) (s : State) : State :=
  mkState (workers_ s) (tasks_ s) (task_infos_ s) (stop_ s) (force_stop_ s)
    (active_threads_ s) (task_counter_ s) (stats_ s) v (packaged s) (clock s).
Definition set_packaged (v : list PackagedTask.t) (s : State) : State :=
  mkState (workers_ s) (tasks_ s) (task_infos_ s) (stop_ s) (force_stop_ s)
    (active_threads_ s) (task_counter_ s) (stats_ s) (infos s) v (clock s).
Definition set_clock (v : Z) (s : State) : State :=
  mkState (workers_ s) (tasks_ s) (task_infos_ s) (stop_ s) (force_stop_ s)
    (active_threads_ s) (task_counter_ s) (stats_ s) (infos s) (packaged s) v.

(** [p->field = v] through a [shared_ptr<TaskInfo>]. *)
Definition modify_info (p : nat) (f : TaskInfo.t -> TaskInfo.t) (s : State) : State :=
  set_infos (alter f p (infos s)) s.

(** [std::chrono::system_clock::now()]. *)
Definition now (s : State) : Z := clock s.

Definition set_worker (i : nat) (w : Worker) (s : State) : State :=
  set_workers (<[i := w]> (workers_ s)) s.

(** ** The operations of [class ThreadPool] *)

Module ThreadPool.

(** [ThreadPool::ThreadPool(size_t thread_count)], [thread_pool.cpp] lines
    13-29: [construct] is the object the member initialisers and the body
    build at clock reading [clock0]; every spawned thread enters
    [workerThread] and reaches its wait.  The body has no [throw], so the
    constructor returns normally. *)
Definition construct (thread_count : nat) (clock0 : Z) : State :=
  {| workers_ := replicate thread_count Waiting;
     tasks_ := [];
     task_infos_ := ∅;
     stop_ := false;
     force_stop_ := false;
     active_threads_ := 0;
     task_counter_ := 0;
     stats_ := {| ThreadPoolStats.thread_count := Z.of_nat thread_count;
                  ThreadPoolStats.active_threads := 0;
                  ThreadPoolStats.pending_tasks := 0;
                  ThreadPoolStats.completed_tasks := 0;
                  ThreadPoolStats.failed_tasks := 0;
                  ThreadPoolStats.average_task_duration_ms := 0%Q;
                  ThreadPoolStats.start_time := clock0 |};
     infos := [];
     packaged := [];
     clock := clock0 |}.

Definition ThreadPool (thread_count : nat) (clock0 : Z) : Except State :=
  Ok (construct thread_count clock0).

(** [ThreadPool::generateTaskId()], lines 93-102; [id] is the number drawn
    from the [uint64_t] distribution. *)
Definition generateTaskId (id : N) : string := "task_" +:+ pretty id.

(** [ThreadPool::updateStats(const TaskInfo& info)], lines 104-121. *)
Definition updateStats (info : TaskInfo.t) (st : ThreadPoolStats.t) : ThreadPoolStats.t :=
  let completed :=
    if decide (TaskInfo.status info = COMPLETED)
    then size_t (ThreadPoolStats.completed_tasks st + 1)
    else ThreadPoolStats.completed_tasks st in
  let failed :=
    if decide (TaskInfo.status info = COMPLETED)
    then ThreadPoolStats.failed_tasks st
    else if decide (TaskInfo.status info = FAILED)
         then size_t (ThreadPoolStats.failed_tasks st + 1)
         else ThreadPoolStats.failed_tasks st in
  let average :=
    if TaskInfo.end_time info >? TaskInfo.start_time info
    then
      let duration := duration_cast_ms (TaskInfo.end_time info - TaskInfo.start_time info) in
      let total_duration :=
        (ThreadPoolStats.average_task_duration_ms st
         * inject_Z (size_t (completed + failed - 1)))%Q in
      ((total_duration + inject_Z duration) / inject_Z (size_t (completed + failed)))%Q
    else ThreadPoolStats.average_task_duration_ms st in
  {| ThreadPoolStats.thread_count := ThreadPoolStats.thread_count st;
     ThreadPoolStats.active_threads := ThreadPoolStats.active_threads st;
     ThreadPoolStats.pending_tasks := ThreadPoolStats.pending_tasks st;
     ThreadPoolStats.completed_tasks := completed;
     ThreadPoolStats.failed_tasks := failed;
     ThreadPoolStats.average_task_duration_ms := average;
     ThreadPoolStats.start_time := ThreadPoolStats.start_time st |}.

(** [ThreadPool::submit(const std::string& task_id, TaskPriority priority,
    F&& f, Args&&... args)], [thread_pool.h] lines 184-242.  The returned
    future is the pointer to the packaged task whose shared state it reads. *)
Definition submit (task_id : string) (priority : TaskPriority) (f : outcome)
    (s : State) : Except nat * State :=
  if stop_ s then (Throw (std_exception "ThreadPool is shutting down"), s)
  else
    let task_info := length (infos s) in
    let new_info :=
      {| TaskInfo.id := task_id;
         TaskInfo.priority := priority;
         TaskInfo.status := PENDING;
         TaskInfo.submit_time := now s;
         TaskInfo.start_time := TaskInfo.start_time TaskInfo.default;
         TaskInfo.end_time := TaskInfo.end_time TaskInfo.default;
         TaskInfo.error_message := TaskInfo.error_message TaskInfo.default |} in
    let s1 := set_infos (infos s ++ [new_info]) s in
    let task := length (packaged s1) in
    let s2 := set_packaged (packaged s1 ++ [PackagedTask.mk f not_ready]) s1 in
    let result := task in
    (* under [queue_mutex_] *)
    if stop_ s2 then (Throw (std_exception "ThreadPool is shutting down"), s)
    else
      let wrapper_task :=
        {| Task.id := task_id;
           Task.priority := priority;
           Task.submit_time := TaskInfo.submit_time new_info;
           Task.info := task_info;
           Task.function := Some (Closure.mk task task_info) |} in
      let s3 := set_tasks (PriorityQueue.push wrapper_task (tasks_ s2)) s2 in
      let s4 := set_task_infos (<[task_id := task_info]> (task_infos_ s3)) s3 in
      (Ok result, s4).

(** [submit(TaskPriority priority, F&& f, ...)], lines 178-182; [id] is the
    random number [generateTaskId] draws. *)
Definition submit_priority (id : N) (priority : TaskPriority) (f : outcome)
    (s : State) : Except nat * State :=
  submit (generateTaskId id) priority f s.

(** [submit(F&& f, ...)], lines 172-176. *)
Definition submit_default (id : N) (f : outcome) (s : State) : Except nat * State :=
  submit_priority id NORMAL f s.

(** [ThreadPool::cancelTask], [thread_pool.cpp] lines 151-161. *)
Definition cancelTask (task_id : string) (s : State) : bool * State :=
  match task_infos_ s !! task_id with
  | Some it =>
      match infos s !! it with
      | Some i =>
          if decide (TaskInfo.status i = PENDING)
          then (true, modify_info it (TaskInfo.with_status CANCELLED) s)
          else (false, s)
      | None => (false, s)
      end
  | None => (false, s)
  end.

(** The [while (!tasks_.empty())] loop of [cancelPendingTasks], lines 142-146;
    [n] bounds the number of iterations. *)
Fixpoint cancel_loop (n : nat) (s : State) : State :=
  match n with
  | O => s
  | S n' =>
      if PriorityQueue.empty (tasks_ s) then s
      else
        match PriorityQueue.top (tasks_ s) with
        | Some task =>
            cancel_loop n'
              (modify_info (Task.info task) (TaskInfo.with_status CANCELLED)
                 (set_tasks (PriorityQueue.pop (tasks_ s)) s))
        | None => s
        end
  end.

(** [ThreadPool::cancelPendingTasks], lines 137-149. *)
Definition cancelPendingTasks (s : State) : State :=
  set_tasks [] (cancel_loop (length (tasks_ s)) s).

(** [ThreadPool::resize], lines 163-182, when every thread it asks for is
    started, so that the call returns normally; [resize_within] below is the
    call in full.  Shrinking is left empty in the source. *)
Definition resize (new_size : nat) (s : State) : State :=
  if decide (new_size = length (workers_ s)) then s
  else
    let s1 :=
      if decide (length (workers_ s) < new_size)%nat
      then set_workers
             (workers_ s ++ replicate (new_size - length (workers_ s)) Waiting) s
      else s in
    set_stats
      {| ThreadPoolStats.thread_count := Z.of_nat (length (workers_ s1));
         ThreadPoolStats.active_threads := ThreadPoolStats.active_threads (stats_ s1);
         ThreadPoolStats.pending_tasks := ThreadPoolStats.pending_tasks (stats_ s1);
         ThreadPoolStats.completed_tasks := ThreadPoolStats.completed_tasks (stats_ s1);
         ThreadPoolStats.failed_tasks := ThreadPoolStats.failed_tasks (stats_ s1);
         ThreadPoolStats.average_task_duration_ms :=
           ThreadPoolStats.average_task_duration_ms (stats_ s1);
         ThreadPoolStats.start_time := ThreadPoolStats.start_time (stats_ s1) |}
      s1.

(** [ThreadPool::resize] in full.  The function has no handler, and two of
    the calls it makes to grow the pool can throw: [workers_.reserve] (line
    171) and the constructor of the [std::thread] that [emplace_back] builds
    (line 173).  [available] is the number of threads started before that
    happens: 0 when [reserve] throws, the number of threads the system still
    grants otherwise.  When no more are asked for, the call is [resize];
    else the loop is left with [available] threads appended to [workers_],
    and the assignment to [stats_.thread_count] (line 181) is not reached.
    The text of [what()] is implementation-defined. *)
Definition resize_within (available new_size : nat) (s : State) : Except unit * State :=
  if decide (new_size - length (workers_ s) ≤ available)%nat
  then (Ok (), resize new_size s)
  else (Throw (std_exception "std::system_error"),
        set_workers (workers_ s ++ replicate available Waiting) s).

(** Accessors, lines 184-225. *)
Definition size (s : State) : nat := length (workers_ s).

Definition activeThreads (s : State) : Z := active_threads_ s.

Definition pendingTasks (s : State) : nat := PriorityQueue.size (tasks_ s).

Definition getStats (s : State) : ThreadPoolStats.t :=
  {| ThreadPoolStats.thread_count := ThreadPoolStats.thread_count (stats_ s);
     ThreadPoolStats.active_threads := active_threads_ s;
     ThreadPoolStats.pending_tasks := Z.of_nat (PriorityQueue.size (tasks_ s));
     ThreadPoolStats.completed_tasks := ThreadPoolStats.completed_tasks (stats_ s);
     ThreadPoolStats.failed_tasks := ThreadPoolStats.failed_tasks (stats_ s);
     ThreadPoolStats.average_task_duration_ms :=
       ThreadPoolStats.average_task_duration_ms (stats_ s);
     ThreadPoolStats.start_time := ThreadPoolStats.start_time (stats_ s) |}.

(** [getTaskInfos]: one copy of the pointed-to record per registry entry. *)
Definition getTaskInfos (s : State) : list TaskInfo.t :=
  omap (λ pair, infos s !! pair.2) (map_to_list (task_infos_ s)).

Definition isShuttingDown (s : State) : bool := stop_ s || force_stop_ s.

(** [shutdown], lines 227-242, in its two parts: raising the flag and
    waking the workers (lines 228-233), then joining every thread and
    clearing [workers_] (lines 235-241).  [join] returns only for a thread
    that has left [workerThread], so the second part is enabled only when
    every worker has exited. *)
Definition all_exited (ws : list Worker) : bool :=
  forallb (λ w, match w with Exited => true | _ => false end) ws.

Definition shutdown_request (s : State) : State := set_stop true s.

Definition join_and_clear (s : State) : option State :=
  if all_exited (workers_ s) then Some (set_workers [] s) else None.

(** [forceShutdown], lines 244-259, in the same two parts. *)
Definition forceShutdown_request (s : State) : State := set_force_stop true s.

(** *** [ThreadPool::workerThread], lines 35-91 *)

(** The critical section of one loop iteration, lines 44-65: the wait, the
    exit test, and the removal of the top task.  [None]: the thread is
    blocked in [condition_.wait], or is not at this point of the loop. *)
Definition worker_take (i : nat) (s : State) : option State :=
  match workers_ s !! i with
  | Some Waiting =>
      if negb (PriorityQueue.empty (tasks_ s)) || stop_ s || force_stop_ s
      then
        if (stop_ s && PriorityQueue.empty (tasks_ s)) || force_stop_ s
        then Some (set_worker i Exited s)
        else if negb (PriorityQueue.empty (tasks_ s))
        then
          match PriorityQueue.top (tasks_ s) with
          | Some task =>
              Some (set_worker i (Holding task)
                      (set_active_threads (size_t (active_threads_ s + 1))
                         (set_tasks (PriorityQueue.pop (tasks_ s)) s)))
          | None => None
          end
        else Some s
      else None
  | _ => None
  end.

(** Lines 68-70 of the worker, then lines 219-220 of the lambda it calls:
    everything up to the call of the user's callable.  An empty
    [task.function] skips to line 89. *)
Definition worker_begin (i : nat) (s : State) : option State :=
  match workers_ s !! i with
  | Some (Holding task) =>
      match Task.function task with
      | Some c =>
          let s1 := modify_info (Task.info task) (TaskInfo.with_status RUNNING) s in
          let s2 := modify_info (Task.info task) (TaskInfo.with_start_time (now s1)) s1 in
          let s3 := modify_info (Closure.task_info c) (TaskInfo.with_status RUNNING) s2 in
          let s4 := modify_info (Closure.task_info c) (TaskInfo.with_start_time (now s3)) s3 in
          Some (set_worker i (Executing task) s4)
      | None =>
          Some (set_worker i Waiting
                  (set_active_threads (size_t (active_threads_ s - 1)) s))
      end
  | _ => None
  end.

(** [( *task)()]: [std::packaged_task::operator()].  It runs the stored
    callable and stores its value, or the exception it threw, in the shared
    state; it throws [std::future_error] itself only when the shared state
    was already satisfied. *)
Definition packaged_task_call (task : nat) (s : State) : Except unit * State :=
  match packaged s !! task with
  | Some pt =>
      match PackagedTask.shared_state pt with
      | not_ready =>
          let result := promised (PackagedTask.work pt) in
          (Ok (),
           set_packaged
             (<[task := PackagedTask.mk (PackagedTask.work pt) result]> (packaged s)) s)
      | _ => (Throw (std_exception "std::future_error: Promise already satisfied"), s)
      end
  | None => (Ok (), s)   (* a [shared_ptr] does not dangle *)
  end.

(** The handlers shared by the lambda (lines 222-231) and the worker (lines
    72-81), applied to the result [r] of the guarded call. *)
Definition try_catch (info : nat) (r : Except unit) (s : State) : State :=
  match r with
  | Ok _ => modify_info info (TaskInfo.with_status COMPLETED) s
  | Throw (std_exception what) =>
      modify_info info (TaskInfo.with_error_message what)
        (modify_info info (TaskInfo.with_status FAILED) s)
  | Throw other_exception =>
      modify_info info (TaskInfo.with_error_message "Unknown exception")
        (modify_info info (TaskInfo.with_status FAILED) s)
  end.

(** The rest of the lambda, lines 222-233.  Both handlers swallow the
    exception, so the lambda returns normally. *)
Definition function_call (c : Closure.t) (s : State) : Except unit * State :=
  let (r, s1) := packaged_task_call (Closure.task c) s in
  let s2 := try_catch (Closure.task_info c) r s1 in
  (Ok (), modify_info (Closure.task_info c) (TaskInfo.with_end_time (now s2)) s2).

(** [updateStats( *task.info)] under [stats_mutex_]. *)
Definition updateStats_of (info : nat) (s : State) : State :=
  match infos s !! info with
  | Some i => set_stats (updateStats i (stats_ s)) s
  | None => s
  end.

(** The call of the user's callable and everything after it: the rest of
    the lambda, then lines 74-89 of the worker. *)
Definition worker_finish (i : nat) (s : State) : option State :=
  match workers_ s !! i with
  | Some (Executing task) =>
      match Task.function task with
      | Some c =>
          let (r, s1) := function_call c s in
          let s2 := try_catch (Task.info task) r s1 in
          let s3 := modify_info (Task.info task) (TaskInfo.with_end_time (now s2)) s2 in
          let s4 := updateStats_of (Task.info task) s3 in
          Some (set_worker i Waiting
                  (set_active_threads (size_t (active_threads_ s4 - 1)) s4))
      | None => None
      end
  | _ => None
  end.

(** *** [waitForAll] and [waitFor], lines 123-135 *)

(** The predicate both functions wait on, lines 125-127 and 132-134. *)
Definition idle (s : State) : bool :=
  PriorityQueue.empty (tasks_ s) && (active_threads_ s =? 0).

(** [waitForAll]: [condition_.wait] returns only in a state where the
    predicate holds; [None] is the blocked caller. *)
Definition waitForAll (s : State) : option unit :=
  if idle s then Some () else None.

(** [waitFor]: [condition_.wait_for] returns [true] in a state where the
    predicate holds, and the value of the predicate, [false], once the
    timeout has expired without it; [expired] tells whether the timeout has
    passed when the caller looks at the state. *)
Definition waitFor (expired : bool) (s : State) : option bool :=
  if idle s then Some true
  else if expired then Some false
  else None.

End ThreadPool.

(** ** Interleavings

    What the threads of a program using the pool can do, one atomic piece at
    a time: the calls of the public interface made by client threads, the
    three pieces of a worker's loop iteration, and the passing of time
    ([system_clock] is not steady, so [d] is any integer). *)
Inductive Action :=
| Tick (d : Z)
| Submit (task_id : string) (priority : TaskPriority) (f : outcome)
| CancelTask (task_id : string)
| CancelPendingTasks
| Resize (new_size : nat)
| ShutdownRequest
| ShutdownJoin
| ForceShutdownRequest
| ForceShutdownJoin
| WorkerTake (i : nat)
| WorkerBegin (i : nat)
| WorkerFinish (i : nat).

(** [None] when the action is not enabled in [s] (a blocked thread). *)
Definition exec (a : Action) (s : State) : option State :=
  match a with
  | Tick d => Some (set_clock (clock s + d) s)
  | Submit task_id priority f => Some (ThreadPool.submit task_id priority f s).2
  | CancelTask task_id => Some (ThreadPool.cancelTask task_id s).2
  | CancelPendingTasks => Some (ThreadPool.cancelPendingTasks s)
  | Resize new_size => Some (ThreadPool.resize new_size s)
  | ShutdownRequest => Some (ThreadPool.shutdown_request s)
  | ShutdownJoin => ThreadPool.join_and_clear s
  | ForceShutdownRequest => Some (ThreadPool.forceShutdown_request s)
  | ForceShutdownJoin => ThreadPool.join_and_clear s
  | WorkerTake i => ThreadPool.worker_take i s
  | WorkerBegin i => ThreadPool.worker_begin i s
  | WorkerFinish i => ThreadPool.worker_finish i s
  end.

Fixpoint run (l : list Action) (s : State) : option State :=
  match l with
  | [] => Some s
  | a :: l' =>
      match exec a s with
      | Some s' => run l' s'
      | None => None
      end
  end.

(** A state of a pool built by the constructor and driven by some
    interleaving. *)
Definition reachable (s : State) : Prop :=
  ∃ (thread_count : nat) (clock0 : Z) (s0 : State) (l : list Action),
    ThreadPool.ThreadPool thread_count clock0 = Ok s0 ∧ run l s0 = Some s.

(** ** The C interface ([thread_pool.cpp], lines 263-676)

    The functions declared in [sdk_c_api.h], lines 112-269.  They reach the
    pool through the singleton [sdk::SDK::getInstance()] of [sdk_core.cpp],
    of which they use [isInitialized()] and [getThreadPool()] only. *)

(** [uint32_t] and [uint64_t] values. *)
Definition uint32_t (z : Z) : Z := z mod 2 ^ 32.

Definition uint64_t (z : Z) : Z := z mod 2 ^ 64.

(** An object of a C enumeration type holds an [int]; the enumerators of
    [sdk_task_priority_t] and [sdk_task_status_t], [sdk_c_api.h] lines
    116-131. *)
Definition SDK_TASK_PRIORITY_LOW : Z := 0.
Definition SDK_TASK_PRIORITY_NORMAL : Z := 1.
Definition SDK_TASK_PRIORITY_HIGH : Z := 2.
Definition SDK_TASK_PRIORITY_CRITICAL : Z := 3.

Definition SDK_TASK_STATUS_PENDING : Z := 0.
Definition SDK_TASK_STATUS_RUNNING : Z := 1.
Definition SDK_TASK_STATUS_COMPLETED : Z := 2.
Definition SDK_TASK_STATUS_FAILED : Z := 3.
Definition SDK_TASK_STATUS_CANCELLED : Z := 4.

(** [convertPriority], lines 314-327. *)
Definition convertPriority (priority : Z) : TaskPriority :=
  if priority =? SDK_TASK_PRIORITY_LOW then LOW
  else if priority =? SDK_TASK_PRIORITY_NORMAL then NORMAL
  else if priority =? SDK_TASK_PRIORITY_HIGH then HIGH
  else if priority =? SDK_TASK_PRIORITY_CRITICAL then CRITICAL
  else NORMAL.

(** [convertStatus], lines 329-344.  An object of [enum class TaskStatus]
    holds one of the five enumerators, so the [default] label is not
    reached. *)
Definition convertStatus (status : TaskStatus) : Z :=
  match status with
  | PENDING => SDK_TASK_STATUS_PENDING
  | RUNNING => SDK_TASK_STATUS_RUNNING
  | COMPLETED => SDK_TASK_STATUS_COMPLETED
  | FAILED => SDK_TASK_STATUS_FAILED
  | CANCELLED => SDK_TASK_STATUS_CANCELLED
  end.

(** [std::to_string] of a [uint64_t]: its decimal digits. *)
Definition to_string (task_id : Z) : string := pretty task_id.

(** [s.c_str()] read as a C string, up to the first NUL, and what
    [strncpy(dst, src, sizeof dst - 1); dst[sizeof dst - 1] = 0] leaves in
    a buffer of [size] characters. *)
Fixpoint c_str (s : string) : string :=
  match s with
  | EmptyString => EmptyString
  | String c s' => if Ascii.eqb c Ascii.zero then EmptyString else String c (c_str s')
  end.

Definition strncpy (size : nat) (src : string) : string :=
  String.substring 0 (size - 1) (c_str src).

(** [struct sdk_task_info_t] and [struct sdk_thread_pool_stats_t],
    [sdk_c_api.h] lines 134-153. *)
Module sdk_task_info_t.
Record t := mk {
  id : string;
  priority : Z;
  status : Z;
  submit_time_ms : Z;
  start_time_ms : Z;
  end_time_ms : Z;
  error_message : string
}.
End sdk_task_info_t.

Module sdk_thread_pool_stats_t.
Record t := mk {
  thread_count : Z;
  active_threads : Z;
  pending_tasks : Z;
  completed_tasks : Z;
  failed_tasks : Z;
  average_task_duration_ms : Q;
  start_time_ms : Z
}.
End sdk_thread_pool_stats_t.

(** [duration_cast<milliseconds>(t.time_since_epoch()).count()] stored in a
    [uint64_t]. *)
Definition time_ms (t : Z) : Z := uint64_t (duration_cast_ms t).

(** What the C functions see of the singleton: the flag [initialized_] and
    the pointer [thread_pool_] of [SDK::Impl] ([sdk_core.cpp], lines
    229-235), null when [None]. *)
Module SDK.
Record t := mk { initialized_ : bool; thread_pool_ : option State }.

Definition isInitialized (sdk_instance : t) : bool := initialized_ sdk_instance.

Definition getThreadPool (sdk_instance : t) : option State := thread_pool_ sdk_instance.
End SDK.

(** The state of a process that uses the C interface: the singleton and
    the two variables of lines 268-270.  A pointer kept in [g_task_infos]
    is an index into the records of the pool. *)
Record Process := mkProcess {
  sdk_instance : SDK.t;
  g_task_infos : gmap Z nat;
  g_next_task_id : Z
}.

(** The process at its start: the static objects as their initialisers
    leave them. *)
Definition process_start : Process :=
  {| sdk_instance := SDK.mk false None;
     g_task_infos := ∅;
     g_next_task_id := 1 |}.

(** The pool after a call made through the pointer [getThreadPool()]
    returned: the singleton points to the same object. *)
Definition with_thread_pool (thread_pool : State) (st : Process) : Process :=
  {| sdk_instance := SDK.mk (SDK.initialized_ (sdk_instance st)) (Some thread_pool);
     g_task_infos := g_task_infos st;
     g_next_task_id := g_next_task_id st |}.

(** [g_next_task_id.fetch_add(1)]: the state after it; the call returns the
    value before. *)
Definition fetch_add_next_task_id (st : Process) : Process :=
  {| sdk_instance := sdk_instance st;
     g_task_infos := g_task_infos st;
     g_next_task_id := uint64_t (g_next_task_id st + 1) |}.

(** The pool the C functions work on: [None] when the SDK is not
    initialised or has no pool, the two early returns they all share. *)
Definition current_pool (st : Process) : option State :=
  if SDK.isInitialized (sdk_instance st) then SDK.getThreadPool (sdk_instance st)
  else None.

(** The record behind a pointer of [g_task_infos]. *)
Definition pointee (p : nat) (st : Process) : TaskInfo.t :=
  default TaskInfo.default
    (thread_pool ← SDK.thread_pool_ (sdk_instance st); infos thread_pool !! p).

(** [struct TaskWrapper], lines 273-311.  A function pointer is [None]
    when null, and otherwise the behaviour of a call through it; the
    wrapper does not look at [user_data]. *)
Module TaskWrapper.
Record t := mk {
  func : option outcome;
  callback : option outcome;
  task_id : Z
}.

(** The [status] handed to the callback, lines 286-306. *)
Definition status (w : t) (st : Process) : Z :=
  match g_task_infos st !! task_id w with
  | Some it =>
      match TaskInfo.status (pointee it st) with
      | COMPLETED => SDK_TASK_STATUS_COMPLETED
      | FAILED => SDK_TASK_STATUS_FAILED
      | CANCELLED => SDK_TASK_STATUS_CANCELLED
      | _ => SDK_TASK_STATUS_COMPLETED
      end
  | None => SDK_TASK_STATUS_COMPLETED
  end.

(** [operator()], as the packaged task that runs it sees it: it returns
    (nothing, written 0) unless [func] or [callback] throws. *)
Definition call (w : t) : outcome :=
  match func w with
  | Some (throws e) => throws e
  | _ =>
      match callback w with
      | Some (throws e) => throws e
      | _ => returns 0
      end
  end.
End TaskWrapper.

(** [sdk_thread_pool_submit_task], lines 348-388.  The only exception
    [submit] throws is caught by [catch (...)]. *)
Definition sdk_thread_pool_submit_task (func : option outcome) (priority : Z)
    (callback : option outcome) (st : Process) : Z * Process :=
  match func with
  | None => (0, st)
  | Some _ =>
      if negb (SDK.isInitialized (sdk_instance st)) then (0, st)
      else
        match SDK.getThreadPool (sdk_instance st) with
        | None => (0, st)
        | Some thread_pool =>
            let task_id := g_next_task_id st in
            let st1 := fetch_add_next_task_id st in
            let wrapper := TaskWrapper.mk func callback task_id in
            match ThreadPool.submit (to_string task_id) (convertPriority priority)
                    (TaskWrapper.call wrapper) thread_pool with
            | (Ok future, thread_pool') => (task_id, with_thread_pool thread_pool' st1)
            | (Throw _, thread_pool') => (0, with_thread_pool thread_pool' st1)
            end
        end
  end.

(** [sdk_thread_pool_submit_task_with_id], lines 390-431; [task_id] is
    [None] for a null pointer. *)
Definition sdk_thread_pool_submit_task_with_id (task_id : option string)
    (func : option outcome) (priority : Z) (callback : option outcome) (st : Process) :
    Z * Process :=
  match task_id, func with
  | Some task_id, Some _ =>
      if negb (SDK.isInitialized (sdk_instance st)) then (0, st)
      else
        match SDK.getThreadPool (sdk_instance st) with
        | None => (0, st)
        | Some thread_pool =>
            let numeric_task_id := g_next_task_id st in
            let st1 := fetch_add_next_task_id st in
            let wrapper := TaskWrapper.mk func callback numeric_task_id in
            match ThreadPool.submit (c_str task_id) (convertPriority priority)
                    (TaskWrapper.call wrapper) thread_pool with
            | (Ok future, thread_pool') =>
                (numeric_task_id, with_thread_pool thread_pool' st1)
            | (Throw _, thread_pool') => (0, with_thread_pool thread_pool' st1)
            end
        end
  | _, _ => (0, st)
  end.

(** [sdk_thread_pool_get_task_status], lines 433-444. *)
Definition sdk_thread_pool_get_task_status (task_id : Z) (st : Process) : Z :=
  match g_task_infos st !! task_id with
  | Some it => convertStatus (TaskInfo.status (pointee it st))
  | None => SDK_TASK_STATUS_PENDING
  end.

(** [sdk_thread_pool_get_task_info], lines 446-479; [info] is [None] for a
    null pointer, and the second component of the result is the structure
    after the call. *)
Definition sdk_thread_pool_get_task_info (task_id : Z) (info : option sdk_task_info_t.t)
    (st : Process) : bool * option sdk_task_info_t.t :=
  match info with
  | None => (false, None)
  | Some _ =>
      match g_task_infos st !! task_id with
      | Some it =>
          let task_info := pointee it st in
          (true,
           Some {| sdk_task_info_t.id := strncpy 64 (TaskInfo.id task_info);
                   sdk_task_info_t.priority := priority_rank (TaskInfo.priority task_info);
                   sdk_task_info_t.status := convertStatus (TaskInfo.status task_info);
                   sdk_task_info_t.submit_time_ms := time_ms (TaskInfo.submit_time task_info);
                   sdk_task_info_t.start_time_ms := time_ms (TaskInfo.start_time task_info);
                   sdk_task_info_t.end_time_ms := time_ms (TaskInfo.end_time task_info);
                   sdk_task_info_t.error_message :=
                     strncpy 256 (TaskInfo.error_message task_info) |})
      | None => (false, info)
      end
  end.

(** [sdk_thread_pool_cancel_task], lines 481-497. *)
Definition sdk_thread_pool_cancel_task (task_id : Z) (st : Process) : bool * Process :=
  match current_pool st with
  | Some thread_pool =>
      let (r, thread_pool') := ThreadPool.cancelTask (to_string task_id) thread_pool in
      (r, with_thread_pool thread_pool' st)
  | None => (false, st)
  end.

(** One round of the loop of [sdk_thread_pool_wait_task], lines 504-520:
    [Some b] when it returns [b], [None] when it sleeps and goes round
    again.  [elapsed] is [steady_clock::now() - start_time] in ticks of a
    nanosecond. *)
Definition wait_task_round (task_id timeout_ms elapsed : Z) (st : Process) : option bool :=
  let status := sdk_thread_pool_get_task_status task_id st in
  if (status =? SDK_TASK_STATUS_COMPLETED) || (status =? SDK_TASK_STATUS_FAILED)
     || (status =? SDK_TASK_STATUS_CANCELLED)
  then Some true
  else if (0 <? timeout_ms) && (timeout_ms * ticks_per_ms <=? elapsed)
  then Some false
  else None.

(** [sdk_thread_pool_wait_task], lines 499-525, over the states of the
    process and the clock readings the successive rounds see; [None] when
    the rounds given do not bring it to a return. *)
Fixpoint sdk_thread_pool_wait_task (task_id timeout_ms : Z) (rounds : list (Z * Process)) :
    option bool :=
  match rounds with
  | [] => None
  | (elapsed, st) :: rounds' =>
      match wait_task_round task_id timeout_ms elapsed st with
      | Some b => Some b
      | None => sdk_thread_pool_wait_task task_id timeout_ms rounds'
      end
  end.

(** [sdk_thread_pool_resize], lines 527-544; [available] as for
    [resize_within].  An exception of [resize] is caught by [catch (...)],
    line 541, and the threads started before it stay in the pool. *)
Definition sdk_thread_pool_resize (available : nat) (new_size : Z) (st : Process) :
    bool * Process :=
  match current_pool st with
  | Some thread_pool =>
      match ThreadPool.resize_within available (Z.to_nat new_size) thread_pool with
      | (Ok _, thread_pool') => (true, with_thread_pool thread_pool' st)
      | (Throw _, thread_pool') => (false, with_thread_pool thread_pool' st)
      end
  | None => (false, st)
  end.

(** [sdk_thread_pool_get_size], [sdk_thread_pool_get_active_threads] and
    [sdk_thread_pool_get_pending_tasks], lines 546-598. *)
Definition sdk_thread_pool_get_size (st : Process) : Z :=
  match current_pool st with
  | Some thread_pool => uint32_t (Z.of_nat (ThreadPool.size thread_pool))
  | None => 0
  end.

Definition sdk_thread_pool_get_active_threads (st : Process) : Z :=
  match current_pool st with
  | Some thread_pool => uint32_t (ThreadPool.activeThreads thread_pool)
  | None => 0
  end.

Definition sdk_thread_pool_get_pending_tasks (st : Process) : Z :=
  match current_pool st with
  | Some thread_pool => uint32_t (Z.of_nat (ThreadPool.pendingTasks thread_pool))
  | None => 0
  end.

(** [sdk_thread_pool_get_stats], lines 600-631; [stats] as [info] above. *)
Definition sdk_thread_pool_get_stats (stats : option sdk_thread_pool_stats_t.t)
    (st : Process) : bool * option sdk_thread_pool_stats_t.t :=
  match stats with
  | None => (false, None)
  | Some _ =>
      match current_pool st with
      | Some thread_pool =>
          let cpp_stats := ThreadPool.getStats thread_pool in
          (true,
           Some {| sdk_thread_pool_stats_t.thread_count :=
                     uint32_t (ThreadPoolStats.thread_count cpp_stats);
                   sdk_thread_pool_stats_t.active_threads :=
                     uint32_t (ThreadPoolStats.active_threads cpp_stats);
                   sdk_thread_pool_stats_t.pending_tasks :=
                     uint32_t (ThreadPoolStats.pending_tasks cpp_stats);
                   sdk_thread_pool_stats_t.completed_tasks :=
                     ThreadPoolStats.completed_tasks cpp_stats;
                   sdk_thread_pool_stats_t.failed_tasks :=
                     ThreadPoolStats.failed_tasks cpp_stats;
                   sdk_thread_pool_stats_t.average_task_duration_ms :=
                     ThreadPoolStats.average_task_duration_ms cpp_stats;
                   sdk_thread_pool_stats_t.start_time_ms :=
                     time_ms (ThreadPoolStats.start_time cpp_stats) |})
      | None => (false, stats)
      end
  end.

(** [sdk_thread_pool_wait_all], lines 633-654; [None] is the blocked
    caller, [expired] as for [waitFor]. *)
Definition sdk_thread_pool_wait_all (timeout_ms : Z) (expired : bool) (st : Process) :
    option bool :=
  match current_pool st with
  | Some thread_pool =>
      if timeout_ms =? 0
      then _ ← ThreadPool.waitForAll thread_pool; Some true
      else ThreadPool.waitFor expired thread_pool
  | None => Some false
  end.

(** [sdk_thread_pool_cancel_all_pending], lines 656-674, when no other
    thread acts on the pool between its two calls. *)
Definition sdk_thread_pool_cancel_all_pending (st : Process) : Z * Process :=
  match current_pool st with
  | Some thread_pool =>
      let pending_count := uint32_t (Z.of_nat (ThreadPool.pendingTasks thread_pool)) in
      (pending_count, with_thread_pool (ThreadPool.cancelPendingTasks thread_pool) st)
  | None => (0, st)
  end.

(** *** Runs of a process

    What can happen to the state of a process: a call of one of the
    functions above that writes to it, a step of the pool (a worker thread,
    or a call of the C++ interface through [SDK::getThreadPool()]), and
    whatever [sdk_core.cpp] does to the singleton.  [g_task_infos] and
    [g_next_task_id] are [static]: only the functions above reach them. *)
Inductive Call :=
| submit_task (func : option outcome) (priority : Z) (callback : option outcome)
| submit_task_with_id (task_id : option string) (func : option outcome) (priority : Z)
    (callback : option outcome)
| cancel_task (task_id : Z)
| resize_pool (available : nat) (new_size : Z)
| cancel_all_pending
| pool_step (a : Action)
| singleton (sdk_instance' : SDK.t).

Definition call (c : Call) (st : Process) : option Process :=
  match c with
  | submit_task func priority callback =>
      Some (sdk_thread_pool_submit_task func priority callback st).2
  | submit_task_with_id task_id func priority callback =>
      Some (sdk_thread_pool_submit_task_with_id task_id func priority callback st).2
  | cancel_task task_id => Some (sdk_thread_pool_cancel_task task_id st).2
  | resize_pool available new_size =>
      Some (sdk_thread_pool_resize available new_size st).2
  | cancel_all_pending => Some (sdk_thread_pool_cancel_all_pending st).2
  | pool_step a =>
      thread_pool ← SDK.thread_pool_ (sdk_instance st);
      thread_pool' ← exec a thread_pool;
      Some (with_thread_pool thread_pool' st)
  | singleton sdk_instance' =>
      Some {| sdk_instance := sdk_instance';
              g_task_infos := g_task_infos st;
              g_next_task_id := g_next_task_id st |}
  end.

Fixpoint calls (l : list Call) (st : Process) : option Process :=
  match l with
  | [] => Some st
  | c :: l' =>
      match call c st with
      | Some st' => calls l' st'
      | None => None
      end
  end.

(** The id a call hands back to its caller: the non-zero result of a
    submission. *)
Definition returned_id (c : Call) (st : Process) : list Z :=
  let id :=
    match c with
    | submit_task func priority callback =>
        (sdk_thread_pool_submit_task func priority callback st).1
    | submit_task_with_id task_id func priority callback =>
        (sdk_thread_pool_submit_task_with_id task_id func priority callback st).1
    | _ => 0
    end in
  if id =? 0 then [] else [id].

Fixpoint returned_ids (l : list Call) (st : Process) : list Z :=
  match l with
  | [] => []
  | c :: l' =>
      match call c st with
      | Some st' => returned_id c st ++ returned_ids l' st'
      | None => []
      end
  end.

(** ** Observations and auxiliary notions *)

(** The state of a record and the shared state of a future, by pointer. *)
Definition status_of (p : nat) (s : State) : option TaskStatus :=
  TaskInfo.status <$> infos s !! p.

Definition future_of (p : nat) (s : State) : option future_state :=
  PackagedTask.shared_state <$> packaged s !! p.

(** What the guarded block or the handler that catches [r] assigns to the
    record: the net effect of [try_catch] on [*info]. *)
Definition assignments (r : Except unit) (i : TaskInfo.t) : TaskInfo.t :=
  match r with
  | Ok _ => TaskInfo.with_status COMPLETED i
  | Throw (std_exception what) =>
      TaskInfo.with_error_message what (TaskInfo.with_status FAILED i)
  | Throw other_exception =>
      TaskInfo.with_error_message "Unknown exception" (TaskInfo.with_status FAILED i)
  end.

(** The local variable [task] of a worker thread, when it holds one. *)
Definition task_of (w : Worker) : list Task.t :=
  match w with
  | Holding task | Executing task => [task]
  | Waiting | Exited => []
  end.

Definition held (ws : list Worker) : list Task.t := ws ≫= task_of.

(** The tasks that exist as [Task] objects: queued, or in a worker's hands. *)
Definition live (s : State) : list Task.t := tasks_ s ++ held (workers_ s).

(** Well-formedness of the pointer structure [submit] builds.  Records and
    packaged tasks are allocated in pairs, so both have the same index.  A
    registry entry points to a record carrying its key; a live task's
    closure captures the task's own record and its packaged task, whose
    future is not ready yet; no two live tasks share a record. *)
Record wf (s : State) : Prop := mk_wf {
  wf_registry : ∀ k p, task_infos_ s !! k = Some p →
    (TaskInfo.id <$> infos s) !! p = Some k;
  wf_closure : ∀ task, task ∈ live s →
    Task.function task = Some (Closure.mk (Task.info task) (Task.info task))
    ∧ (∃ w, packaged s !! Task.info task = Some (PackagedTask.mk w not_ready))
    ∧ (Task.info task < length (infos s))%nat;
  wf_nodup : NoDup (Task.info <$> live s);
  wf_alloc : length (packaged s) = length (infos s)
}.

(** The task [t], whose callable does [w], is queued or in a worker's hands
    and its future is not ready, or it is neither and the future holds what
    the callable did. *)
Definition carried (t : Task.t) (w : outcome) (s : State) : Prop :=
  (t ∈ live s ∧ packaged s !! Task.info t = Some (PackagedTask.mk w not_ready))
  ∨ ((Task.info t ∉ Task.info <$> live s)
     ∧ packaged s !! Task.info t = Some (PackagedTask.mk w (promised w))).

(** Where a worker stands once it has brought the task it holds to its end. *)
Definition at_rest (w : Worker) : Worker :=
  match w with
  | Exited => Exited
  | _ => Waiting
  end.

(** The actions of the worker threads and of the clock, as opposed to the
    calls made by client threads. *)
Definition worker_action (a : Action) : bool :=
  match a with
  | Tick _ | WorkerTake _ | WorkerBegin _ | WorkerFinish _ => true
  | _ => false
  end.

(** One full loop iteration of worker [i], and [n] of them in a row. *)
Definition iteration (i : nat) : list Action :=
  [WorkerTake i; WorkerBegin i; WorkerFinish i].

Definition iterations (n i : nat) : list Action :=
  mjoin (replicate n (iteration i)).

(** The steps that take worker [i] from where it stands to its exit once the
    force flag is up, and those steps for the workers [ws] numbered from [i]. *)
Definition exit_plan (i : nat) (w : Worker) : list Action :=
  match w with
  | Waiting => [WorkerTake i]
  | Holding _ => [WorkerBegin i; WorkerFinish i; WorkerTake i]
  | Executing _ => [WorkerFinish i; WorkerTake i]
  | Exited => []
  end.

Fixpoint exit_plans (i : nat) (ws : list Worker) : list Action :=
  match ws with
  | [] => []
  | w :: ws' => exit_plan i w ++ exit_plans (S i) ws'
  end.

(** [a] is a submission under the id [task_id]. *)
Definition resubmits (task_id : string) (a : Action) : bool :=
  match a with
  | Submit id _ _ => bool_decide (id = task_id)
  | _ => false
  end.

(** ** Where a task stands and what its record reads *)

(** The record behind the pointer [p] exists and reads one of [allowed]. *)
Definition status_in (allowed : list TaskStatus) (p : nat) (s : State) : Prop :=
  ∃ st, status_of p s = Some st ∧ st ∈ allowed.

(** What ties the records and the atomic counter to the places of the
    tasks, at the granularity of [Action]: the counter counts the workers
    between lines 61 and 89; the record of a task that has not reached line
    69 reads PENDING or CANCELLED, the one of a task inside its callable
    reads RUNNING, and a record no queued or held task points to reads
    COMPLETED or CANCELLED. *)
Record tracked (s : State) : Prop := mk_tracked {
  tr_active : active_threads_ s = size_t (Z.of_nat (length (held (workers_ s))));
  tr_queued : ∀ task, task ∈ tasks_ s → status_in [PENDING; CANCELLED] (Task.info task) s;
  tr_holding : ∀ i task, workers_ s !! i = Some (Holding task) →
    status_in [PENDING; CANCELLED] (Task.info task) s;
  tr_executing : ∀ i task, workers_ s !! i = Some (Executing task) →
    status_of (Task.info task) s = Some RUNNING;
  tr_settled : ∀ p, (p < length (infos s))%nat → p ∉ Task.info <$> live s →
    status_in [COMPLETED; CANCELLED] p s
}.

(** The part of [tracked] that is about the records. *)
Definition places (s : State) : Prop :=
  (∀ task, task ∈ tasks_ s → status_in [PENDING; CANCELLED] (Task.info task) s)
  ∧ (∀ i task, workers_ s !! i = Some (Holding task) →
       status_in [PENDING; CANCELLED] (Task.info task) s)
  ∧ (∀ i task, workers_ s !! i = Some (Executing task) →
       status_of (Task.info task) s = Some RUNNING)
  ∧ (∀ p, (p < length (infos s))%nat → p ∉ Task.info <$> live s →
       status_in [COMPLETED; CANCELLED] p s).

(** Without [forceShutdown], a worker leaves its loop only when [stop_] is
    set and the queue is empty, and the queue stays empty from then on. *)
Definition drained (s : State) : Prop :=
  force_stop_ s = false → Exited ∈ workers_ s → stop_ s = true ∧ tasks_ s = [].

(** The tasks the worker threads take out of the queue during the run of [l]
    from [s], in the order in which they are taken. *)
Definition taken_by (a : Action) (s : State) : list Task.t :=
  match a with
  | WorkerTake i =>
      match exec a s with
      | Some s' =>
          match workers_ s' !! i with
          | Some (Holding task) => [task]
          | _ => []
          end
      | None => []
      end
  | _ => []
  end.

Fixpoint taken (l : list Action) (s : State) : list Task.t :=
  match l with
  | [] => []
  | a :: l' =>
      match exec a s with
      | Some s' => taken_by a s ++ taken l' s'
      | None => []
      end
  end.

(** [x'] is what a record that read [x] reads later: the same id, priority
    and submission instant, and PENDING only if it read PENDING before. *)
Definition later_record (x x' : TaskInfo.t) : Prop :=
  TaskInfo.id x' = TaskInfo.id x
  ∧ TaskInfo.priority x' = TaskInfo.priority x
  ∧ TaskInfo.submit_time x' = TaskInfo.submit_time x
  ∧ (TaskInfo.status x' = PENDING → TaskInfo.status x = PENDING).

(** [a] is a call of [cancelPendingTasks]. *)
Definition cancels_pending (a : Action) : bool :=
  match a with
  | CancelPendingTasks => true
  | _ => false
  end.


(** ** The state machine the specification gives a task *)

(** The transitions of a task's state that the specification allows:
    PENDING to RUNNING or CANCELLED, RUNNING to COMPLETED or FAILED. *)
Definition allowed_transition (from to : TaskStatus) : bool :=
  match from, to with
  | PENDING, RUNNING | PENDING, CANCELLED
  | RUNNING, COMPLETED | RUNNING, FAILED => true
  | _, _ => false
  end.

Definition terminal (st : TaskStatus) : bool :=
  match st with
  | COMPLETED | FAILED | CANCELLED => true
  | PENDING | RUNNING => false
  end.

(** ** Statistics over a run *)

(** The duration [updateStats] computes for a record, in whole milliseconds. *)
Definition recorded_duration (info : TaskInfo.t) : Z :=
  duration_cast_ms (TaskInfo.end_time info - TaskInfo.start_time info).

Definition total_duration_ms (l : list TaskInfo.t) : Z :=
  foldr (λ info acc, recorded_duration info + acc) 0 l.

(** [updateStats] called on the records of [l], first to last. *)
Definition account (l : list TaskInfo.t) (st : ThreadPoolStats.t) : ThreadPoolStats.t :=
  foldl (λ st info, ThreadPool.updateStats info st) st l.

(** The record a finishing step passes to [updateStats]: the task's record
    as the step leaves it. *)
Definition finished_by (a : Action) (s : State) : list TaskInfo.t :=
  match a with
  | WorkerFinish i =>
      match workers_ s !! i, exec a s with
      | Some (Executing task), Some s' => option_list (infos s' !! Task.info task)
      | _, _ => []
      end
  | _ => []
  end.

(** The records of the tasks that terminated during the run of [l] from [s],
    in the order of their termination. *)
Fixpoint finished (l : list Action) (s : State) : list TaskInfo.t :=
  match l with
  | [] => []
  | a :: l' =>
      match exec a s with
      | Some s' => finished_by a s ++ finished l' s'
      | None => []
      end
  end.

(** The three statistics [updateStats] maintains. *)
Definition counters (st : ThreadPoolStats.t) : Z * Z * Q :=
  (ThreadPoolStats.completed_tasks st, ThreadPoolStats.failed_tasks st,
   ThreadPoolStats.average_task_duration_ms st).

(** ** Scenarios *)

(** A fresh pool, for the examples. *)
Definition pool (thread_count : nat) : State :=
  ThreadPool.construct thread_count 0.

(** The state [run l (pool n)] reaches; the fresh pool when [l] blocks. *)
Definition after (l : list Action) (thread_count : nat) : State :=
  default (pool thread_count) (run l (pool thread_count)).

(** Scenario 4 of the specification on one worker: a task that throws
    "boom", a task that returns 7, each run to its end. *)
Definition scenario4 : list Action :=
  [Submit "boom" NORMAL (throws (std_exception "boom"));
   Submit "seven" NORMAL (returns 7);
   WorkerTake 0; WorkerBegin 0; Tick 3000000; WorkerFinish 0;
   WorkerTake 0; WorkerBegin 0; Tick 1000000; WorkerFinish 0].

(** A worker is inside a callable that throws "boom", 3 ms after it began. *)
Definition boom_executing : State :=
  after [Submit "boom" NORMAL (throws (std_exception "boom"));
         WorkerTake 0; WorkerBegin 0; Tick 3000000] 1.

(** Three submissions at increasing clock readings, none dispatched yet. *)
Definition three_pending : State :=
  after [Submit "low" LOW (returns 1); Tick 5;
         Submit "critical-late" CRITICAL (returns 2); Tick 5;
         Submit "high" HIGH (returns 3)] 1.

(** One task submitted under the id "job", not dispatched yet. *)
Definition once_submitted : State :=
  (ThreadPool.submit "job" NORMAL (returns 1) (pool 1)).2.

(** One worker is busy with "A"; "B" is submitted behind it. *)
Definition B_pending : State :=
  after [Submit "A" NORMAL (returns 0); WorkerTake 0; WorkerBegin 0;
         Tick 1000000; Submit "B" NORMAL (returns 10)] 1.

(** "B" was cancelled while pending; the worker, done with "A", has just
    taken it out of the queue. *)
Definition cancelled_B_actions : list Action :=
  [Submit "A" NORMAL (returns 0); WorkerTake 0; WorkerBegin 0; Tick 1000000;
   Submit "B" NORMAL (returns 10); CancelTask "B"; WorkerFinish 0; WorkerTake 0].

Definition cancelled_B_in_hand : State := after cancelled_B_actions 1.

(** One worker is running a task and two more tasks are queued. *)
Definition one_running_two_pending_actions : list Action :=
  [Submit "running" NORMAL (returns 0); WorkerTake 0; WorkerBegin 0;
   Submit "pending1" NORMAL (returns 1); Submit "pending2" HIGH (returns 2)].

Definition one_running_two_pending : State := after one_running_two_pending_actions 1.

(** What the worker does while [forceShutdown] waits in [join]. *)
Definition wind_down : list Action := [Tick 2000000; WorkerFinish 0; WorkerTake 0].

(** [forceShutdown] on [one_running_two_pending]: the state in which every
    worker has exited, and the state after [join] and [clear]. *)
Definition force_stop_all_exited : State :=
  after (one_running_two_pending_actions ++ ForceShutdownRequest :: wind_down) 1.


(** A task of 10 ms, then a task whose two clock readings coincide. *)
Definition zero_duration_actions : list Action :=
  [Submit "a" NORMAL (returns 1); WorkerTake 0; WorkerBegin 0; Tick 10000000;
   WorkerFinish 0;
   Submit "b" NORMAL (returns 2); WorkerTake 0; WorkerBegin 0; WorkerFinish 0].

(** Scenario 4 run to its end: both tasks are done, the worker waits. *)
Definition two_done : State := after scenario4 1.

(** [one_running_two_pending], then [cancelPendingTasks], and the running
    task comes to its end. *)
Definition cancelled_pending_actions : list Action :=
  one_running_two_pending_actions ++ [CancelPendingTasks; Tick 1000000; WorkerFinish 0].

(** Two tasks are submitted, [shutdown] sets [stop_], and the only worker
    runs both tasks before it leaves its loop. *)
Definition graceful_actions : list Action :=
  [Submit "a" NORMAL (returns 1); Submit "b" HIGH (throws other_exception);
   ShutdownRequest] ++ iterations 2 0 ++ [WorkerTake 0].

(** What follows the submission of "job" in [once_submitted]: the worker
    runs the task, and the id is submitted again. *)
Definition job_again_actions : list Action :=
  [WorkerTake 0; WorkerBegin 0; Tick 5; WorkerFinish 0; Submit "job" LOW (returns 3)].

Definition job_again : State :=
  after (Submit "job" NORMAL (returns 1) :: job_again_actions) 1.

(** [shutdown] has been requested on [one_running_two_pending]; later the
    running task ends, a submission is attempted and the worker takes the
    next task. *)
Definition after_stop_actions : list Action :=
  [Tick 7; WorkerFinish 0; Submit "late" CRITICAL (returns 9); WorkerTake 0].

Definition after_stop : State :=
  after (one_running_two_pending_actions ++ ShutdownRequest :: after_stop_actions) 1.

(** "B" of [B_pending] is cancelled; the worker then finishes "A" and runs
    "B" to its end. *)
Definition B_cancelled_then_run : list Action :=
  [WorkerFinish 0; WorkerTake 0; WorkerBegin 0; WorkerFinish 0].

(** A process whose SDK is initialised with a pool of one thread, and what
    it does next: it submits a task through the C interface, and the worker
    runs the task to its end. *)
Definition process_with_pool : Process :=
  {| sdk_instance := SDK.mk true (Some (pool 1));
     g_task_infos := ∅;
     g_next_task_id := 1 |}.

Definition c_task_done_calls : list Call :=
  [singleton (SDK.mk true (Some (pool 1)));
   submit_task (Some (returns 0)) SDK_TASK_PRIORITY_HIGH None;
   pool_step (WorkerTake 0); pool_step (WorkerBegin 0); pool_step (WorkerFinish 0)].

Definition c_task_done : Process :=
  default process_start (calls c_task_done_calls process_start).

(** After [forceShutdown] was requested on [one_running_two_pending]: the
    worker finishes its task and leaves, [forceShutdown] returns, a thread
    is added, and it leaves at once. *)
Definition after_force_actions : list Action :=
  wind_down ++ [ForceShutdownJoin; Resize 1; WorkerTake 0; Tick 1].

(** Two workers and four tasks: the first worker is running a task, the
    second has taken a task out of the queue and not started it yet, and two
    tasks are queued. *)
Definition one_running_one_taken_actions : list Action :=
  [Submit "running" NORMAL (returns 0); WorkerTake 0; WorkerBegin 0;
   Submit "taken" NORMAL (returns 1); WorkerTake 1;
   Submit "pending1" NORMAL (returns 2); Submit "pending2" HIGH (throws other_exception)].

Definition one_running_one_taken : State := after one_running_one_taken_actions 2.

(** What these two workers do while [forceShutdown] waits in [join]. *)
Definition wind_down_two : list Action :=
  [Tick 2000000; WorkerFinish 0; WorkerTake 0; WorkerBegin 1; WorkerFinish 1; WorkerTake 1].

(** A task of 10 ms has been run; the worker is inside the callable of a
    second task, and the clock has not moved since it began. *)
Definition second_task_begun_actions : list Action :=
  [Submit "a" NORMAL (returns 1); WorkerTake 0; WorkerBegin 0; Tick 10000000;
   WorkerFinish 0;
   Submit "b" NORMAL (returns 2); WorkerTake 0; WorkerBegin 0].

Definition second_task_begun : State := after second_task_begun_actions 1.

(** The task submitted as "job" has been taken out of the queue by the
    worker, which has not started it yet. *)
Definition job_taken : State :=
  after [Submit "job" NORMAL (returns 1); WorkerTake 0] 1.

(** The id "job" submitted twice, neither task dispatched yet. *)
Definition twice_submitted : State :=
  after [Submit "job" NORMAL (returns 1); Submit "job" HIGH (returns 2)] 1.

(** ** Tactics *)

(** Reduces the projections of the state over its setters. *)
Ltac state_fields :=
  cbn [workers_ tasks_ task_infos_ stop_ force_stop_ active_threads_ task_counter_
       stats_ infos packaged clock
       set_workers set_tasks set_task_infos set_stop set_force_stop
       set_active_threads set_stats set_infos set_packaged set_clock].

(** * Verified properties *)

(** ** The order on tasks and the priority queue *)

Lemma priority_rank_inj (p q : TaskPriority) :
  priority_rank p = priority_rank q → p = q.
Proof. destruct p, q; simpl; intros H; congruence || lia. Qed.

(** [other] is not ahead of [a]: the negation of [a < other], spelled out on
    ranks and submission instants. *)
Lemma Task_lt_false (a other : Task.t) :
  Task.lt a other = false ↔
  priority_rank (Task.priority other) < priority_rank (Task.priority a)
  ∨ (Task.priority other = Task.priority a
     ∧ Task.submit_time a ≤ Task.submit_time other).
Proof.
  unfold Task.lt. destruct (decide (Task.priority a ≠ Task.priority other)) as [Hne|Heq].
  - rewrite Z.ltb_ge. split.
    + intros Hle. left.
      assert (priority_rank (Task.priority a) ≠ priority_rank (Task.priority other))
        by (intros E; apply Hne, priority_rank_inj, E).
      lia.
    + intros [Hlt | [E _]]; [lia | congruence].
  - apply dec_stable in Heq. rewrite Z.gtb_ltb, Z.ltb_ge, Heq. split.
    + intros Hle. right. split; [reflexivity | exact Hle].
    + intros [Hlt | [_ Hle]]; [lia | exact Hle].
Qed.

Lemma Task_lt_irrefl (a : Task.t) : Task.lt a a = false.
Proof. apply Task_lt_false. right. split; [reflexivity | lia]. Qed.

Lemma Task_lt_asym (a b : Task.t) : Task.lt a b = true → Task.lt b a = false.
Proof.
  intros H. apply Task_lt_false.
  destruct (Task.lt b a) eqn:E; [| apply Task_lt_false in E; exact E].
  unfold Task.lt in H, E.
  destruct (decide (Task.priority a ≠ Task.priority b)) as [Hne|Heq];
    destruct (decide (Task.priority b ≠ Task.priority a)) as [Hne'|Heq'];
    try (apply dec_stable in Heq); try (apply dec_stable in Heq');
    try congruence; lia.
Qed.

(** Not being less is transitive (the order is a strict weak order). *)
Lemma Task_lt_false_trans (a b c : Task.t) :
  Task.lt a b = false → Task.lt b c = false → Task.lt a c = false.
Proof.
  rewrite !Task_lt_false. intros [H1 | [E1 H1]] [H2 | [E2 H2]].
  - left. lia.
  - left. rewrite E2. exact H1.
  - left. rewrite <- E1. exact H2.
  - right. split; [congruence | lia].
Qed.

Lemma extract_None (q : PriorityQueue.t) :
  PriorityQueue.extract q = None ↔ q = [].
Proof.
  destruct q as [|x q]; simpl; [tauto |].
  destruct (PriorityQueue.extract q) as [[m r]|]; [| split; discriminate].
  destruct (Task.lt x m); split; discriminate.
Qed.

Lemma extract_Permutation (q : PriorityQueue.t) (m : Task.t) (r : PriorityQueue.t) :
  PriorityQueue.extract q = Some (m, r) → q ≡ₚ m :: r.
Proof.
  revert m r. induction q as [|x q IH]; intros m r; simpl; [discriminate |].
  destruct (PriorityQueue.extract q) as [[m' r']|] eqn:E.
  - destruct (Task.lt x m'); intros [= <- <-].
    + rewrite (IH _ _ eq_refl). apply Permutation_swap.
    + reflexivity.
  - apply extract_None in E as ->. intros [= <- <-]. reflexivity.
Qed.

Lemma extract_greatest (q : PriorityQueue.t) (m : Task.t) (r : PriorityQueue.t) :
  PriorityQueue.extract q = Some (m, r) → ∀ u, u ∈ q → Task.lt m u = false.
Proof.
  revert m r. induction q as [|x q IH]; intros m r; simpl; [discriminate |].
  destruct (PriorityQueue.extract q) as [[m' r']|] eqn:E.
  - destruct (Task.lt x m') eqn:L; intros [= <- <-] u Hu.
    + apply elem_of_cons in Hu as [-> | Hu]; [by apply Task_lt_asym | eauto].
    + apply elem_of_cons in Hu as [-> | Hu]; [apply Task_lt_irrefl |].
      eapply Task_lt_false_trans; [exact L | eauto].
  - apply extract_None in E as ->. intros [= <- <-] u Hu.
    apply list_elem_of_singleton in Hu as ->. apply Task_lt_irrefl.
Qed.

Lemma extract_is_Some (q : PriorityQueue.t) :
  q ≠ [] → ∃ m r, PriorityQueue.extract q = Some (m, r).
Proof.
  intros Hq. destruct (PriorityQueue.extract q) as [[m r]|] eqn:E; [eauto |].
  by apply extract_None in E.
Qed.

Lemma top_pop_extract (q : PriorityQueue.t) (m : Task.t) (r : PriorityQueue.t) :
  PriorityQueue.extract q = Some (m, r) →
  PriorityQueue.empty q = false
  ∧ PriorityQueue.top q = Some m
  ∧ PriorityQueue.pop q = r.
Proof.
  intros E. unfold PriorityQueue.top, PriorityQueue.pop. rewrite E.
  split; [| done]. destruct q; [discriminate | reflexivity].
Qed.

(** A waiting worker of a pool that is not force-stopped takes the top of a
    non-empty queue. *)
Lemma worker_take_top (i : nat) (s : State) (m : Task.t) (r : PriorityQueue.t) :
  workers_ s !! i = Some Waiting →
  force_stop_ s = false →
  PriorityQueue.extract (tasks_ s) = Some (m, r) →
  ThreadPool.worker_take i s
  = Some (set_worker i (Holding m)
            (set_active_threads (size_t (active_threads_ s + 1)) (set_tasks r s))).
Proof.
  intros Hw Hforce E. destruct (top_pop_extract _ _ _ E) as (He & Ht & Hp).
  unfold ThreadPool.worker_take. rewrite Hw, Hforce, He, Ht, Hp.
  by rewrite andb_false_r.
Qed.

(** ** Dispatch order *)

(** C3.  A worker that dequeues while tasks are pending (it waits, the pool
    is not force-stopped, the queue is not empty) takes one task out of the
    queue, and that task has the highest priority rank present (CRITICAL >
    HIGH > NORMAL > LOW); among the pending tasks of that same priority it
    has the earliest submission instant. *)
Theorem worker_takes_highest_priority_earliest_submitted (i : nat) (s : State) :
  workers_ s !! i = Some Waiting →
  force_stop_ s = false →
  tasks_ s ≠ [] →
  ∃ task s',
    ThreadPool.worker_take i s = Some s'
    ∧ workers_ s' !! i = Some (Holding task)
    ∧ tasks_ s ≡ₚ task :: tasks_ s'
    ∧ ∀ u, u ∈ tasks_ s →
        priority_rank (Task.priority u) ≤ priority_rank (Task.priority task)
        ∧ (Task.priority u = Task.priority task →
           Task.submit_time task ≤ Task.submit_time u).
Proof.
  intros Hw Hforce Hq.
  destruct (extract_is_Some _ Hq) as (m & r & E).
  exists m, (set_worker i (Holding m)
               (set_active_threads (size_t (active_threads_ s + 1)) (set_tasks r s))).
  split; [by apply worker_take_top |]. split.
  { apply list_lookup_insert_eq. eapply lookup_lt_Some, Hw. }
  split; [by apply extract_Permutation |].
  intros u Hu. pose proof (extract_greatest _ _ _ E u Hu) as L.
  apply Task_lt_false in L as [L | [Ep L]].
  - split; [lia |]. intros Ep. rewrite Ep in L. lia.
  - split; [rewrite Ep; lia | intros _; exact L].
Qed.

Lemma worker_takes_highest_priority_earliest_submitted_witness :
  ∃ task s',
    ThreadPool.worker_take 0 three_pending = Some s'
    ∧ workers_ s' !! 0%nat = Some (Holding task)
    ∧ tasks_ three_pending ≡ₚ task :: tasks_ s'
    ∧ ∀ u, u ∈ tasks_ three_pending →
        priority_rank (Task.priority u) ≤ priority_rank (Task.priority task)
        ∧ (Task.priority u = Task.priority task →
           Task.submit_time task ≤ Task.submit_time u).
Proof.
  apply (worker_takes_highest_priority_earliest_submitted 0 three_pending);
    [reflexivity | reflexivity | discriminate].
Defined.

Example three_pending_dispatch :
  (s ← ThreadPool.worker_take 0 three_pending; workers_ s !! 0%nat)
  = Some (Holding (Task.mk "critical-late" CRITICAL (Some (Closure.mk 1 1)) 5 1)).
Proof. reflexivity. Qed.

(** ** Construction *)

(** C9 (amended).  The constructor has no check on the worker count: called
    with any count, zero included, it returns normally with a pool of that
    many workers, every one of them waiting, an empty queue and registry,
    and both stop flags clear. *)
Theorem ThreadPool_constructs_for_every_count (thread_count : nat) (clock0 : Z) :
  ∃ s, ThreadPool.ThreadPool thread_count clock0 = Ok s
       ∧ ThreadPool.size s = thread_count
       ∧ (∀ w, w ∈ workers_ s → w = Waiting)
       ∧ ThreadPool.pendingTasks s = 0%nat
       ∧ task_infos_ s = ∅
       ∧ ThreadPool.isShuttingDown s = false.
Proof.
  exists (ThreadPool.construct thread_count clock0).
  split; [reflexivity |]. split; [apply length_replicate |].
  split; [| done].
  intros w Hw. simpl in Hw. by apply elem_of_replicate in Hw as [-> _].
Qed.

(** C9 as stated fails: a count of zero is not rejected, and the pool that
    results has no worker. *)
Lemma ThreadPool_zero_workers_not_rejected :
  (∀ e, ThreadPool.ThreadPool 0 0 ≠ Throw e)
  ∧ ∃ s, ThreadPool.ThreadPool 0 0 = Ok s ∧ ThreadPool.size s = 0%nat.
Proof.
  split; [intros e; discriminate |].
  exists (ThreadPool.construct 0 0). split; reflexivity.
Qed.

(** ** Submission *)

(** The task [submit] pushes and the records it allocates. *)
Lemma submit_accepted (task_id : string) (priority : TaskPriority) (f : outcome)
    (s : State) :
  stop_ s = false →
  ∃ s', ThreadPool.submit task_id priority f s = (Ok (length (packaged s)), s')
    ∧ workers_ s' = workers_ s
    ∧ tasks_ s' =
        tasks_ s ++ [Task.mk task_id priority
                       (Some (Closure.mk (length (packaged s)) (length (infos s))))
                       (clock s) (length (infos s))]
    ∧ task_infos_ s' = <[task_id := length (infos s)]> (task_infos_ s)
    ∧ infos s' = infos s ++ [TaskInfo.mk task_id priority PENDING (clock s) 0 0 ""]
    ∧ packaged s' = packaged s ++ [PackagedTask.mk f not_ready]
    ∧ stop_ s' = false ∧ force_stop_ s' = force_stop_ s
    ∧ stats_ s' = stats_ s ∧ clock s' = clock s
    ∧ active_threads_ s' = active_threads_ s.
Proof.
  intros Hstop. unfold ThreadPool.submit. rewrite Hstop. cbn [stop_ set_packaged set_infos].
  rewrite Hstop. eexists. split; [reflexivity |]. cbn. rewrite Hstop. by repeat split.
Qed.

(** After [shutdown] was requested, [submit] throws and changes nothing. *)
Lemma submit_rejected_when_stopping (task_id : string) (priority : TaskPriority)
    (f : outcome) (s : State) :
  stop_ s = true →
  ThreadPool.submit task_id priority f s
  = (Throw (std_exception "ThreadPool is shutting down"), s).
Proof. intros Hstop. unfold ThreadPool.submit. by rewrite Hstop. Qed.

(** C5 (the code departs from it).  The entry test of [submit] reads [stop_]
    only.  Once a forced shutdown has been requested on a pool whose graceful
    flag is clear, the pool reports that it is shutting down, and [submit]
    still returns a future, pushes the task and registers its record. *)
Theorem submit_after_forceShutdown_is_accepted (task_id : string)
    (priority : TaskPriority) (f : outcome) (s : State) :
  stop_ s = false →
  let s1 := ThreadPool.forceShutdown_request s in
  ThreadPool.isShuttingDown s1 = true
  ∧ ∃ future s2,
      ThreadPool.submit task_id priority f s1 = (Ok future, s2)
      ∧ length (tasks_ s2) = S (length (tasks_ s1))
      ∧ length (infos s2) = S (length (infos s1))
      ∧ task_infos_ s2 !! task_id = Some (length (infos s1)).
Proof.
  intros Hstop s1.
  split; [unfold ThreadPool.isShuttingDown; simpl; apply orb_true_r |].
  destruct (submit_accepted task_id priority f s1 Hstop)
    as (s2 & E & _ & Ht & Hr & Hi & _).
  exists (length (packaged s1)), s2. split; [exact E |].
  rewrite Ht, Hr, Hi, !length_app. simpl.
  split; [lia |]. split; [lia |]. apply lookup_insert_eq.
Qed.

Lemma submit_after_forceShutdown_is_accepted_witness :
  let s1 := ThreadPool.forceShutdown_request (pool 1) in
  ThreadPool.isShuttingDown s1 = true
  ∧ ∃ future s2,
      ThreadPool.submit "late" NORMAL (returns 1) s1 = (Ok future, s2)
      ∧ length (tasks_ s2) = S (length (tasks_ s1))
      ∧ length (infos s2) = S (length (infos s1))
      ∧ task_infos_ s2 !! "late" = Some (length (infos s1)).
Proof.
  apply (submit_after_forceShutdown_is_accepted "late" NORMAL (returns 1) (pool 1)).
  reflexivity.
Defined.

(** What [getTaskInfos] returns: the records the registry points to. *)
Lemma elem_of_getTaskInfos (info : TaskInfo.t) (s : State) :
  info ∈ ThreadPool.getTaskInfos s
  ↔ ∃ k p, task_infos_ s !! k = Some p ∧ infos s !! p = Some info.
Proof.
  unfold ThreadPool.getTaskInfos. rewrite list_elem_of_omap. split.
  - intros ([k p] & Hin & Hp). apply elem_of_map_to_list in Hin. by exists k, p.
  - intros (k & p & Hk & Hp). exists (k, p). split; [| done].
    by apply elem_of_map_to_list.
Qed.

(** C6 (amended).  [submit] does not look the id up before it writes
    [task_infos_[task_id]]: with an id that is already registered (and no
    graceful shutdown requested) it returns a future that is not ready,
    appends to the queue a new task that carries the id, the priority, the
    submission instant and the closure over the new future and record,
    creates the new record, PENDING, and makes the registry entry of the id
    point to it, so that [getTaskInfos] shows it; the record registered
    before is left as it was, and so are the other registry entries. *)
Theorem submit_registered_id_replaces_entry (task_id : string)
    (priority : TaskPriority) (f : outcome) (s : State) (old : nat) :
  stop_ s = false →
  task_infos_ s !! task_id = Some old →
  (old < length (infos s))%nat →
  ∃ future s',
    ThreadPool.submit task_id priority f s = (Ok future, s')
    ∧ packaged s' !! future = Some (PackagedTask.mk f not_ready)
    ∧ (∃ task, tasks_ s' = tasks_ s ++ [task]
               ∧ Task.id task = task_id ∧ Task.info task = length (infos s)
               ∧ Task.priority task = priority ∧ Task.submit_time task = now s
               ∧ Task.function task = Some (Closure.mk future (length (infos s))))
    ∧ task_infos_ s' !! task_id = Some (length (infos s))
    ∧ infos s' !! length (infos s)
      = Some (TaskInfo.mk task_id priority PENDING (now s) 0 0 "")
    ∧ TaskInfo.mk task_id priority PENDING (now s) 0 0 "" ∈ ThreadPool.getTaskInfos s'
    ∧ length (infos s) ≠ old
    ∧ infos s' !! old = infos s !! old
    ∧ (∀ k, k ≠ task_id → task_infos_ s' !! k = task_infos_ s !! k).
Proof.
  intros Hstop Hold Hlt.
  destruct (submit_accepted task_id priority f s Hstop)
    as (s' & E & _ & Ht & Hr & Hi & Hp & _).
  assert (infos s' !! length (infos s)
          = Some (TaskInfo.mk task_id priority PENDING (now s) 0 0 "")) as Hnew.
  { rewrite Hi. by rewrite lookup_app_r, Nat.sub_diag. }
  exists (length (packaged s)), s'. split; [exact E |].
  split; [by rewrite Hp, lookup_app_r, Nat.sub_diag |].
  split; [eexists; split; [exact Ht | by repeat split] |].
  split; [rewrite Hr; apply lookup_insert_eq |].
  split; [exact Hnew |].
  split.
  { apply elem_of_getTaskInfos. exists task_id, (length (infos s)).
    split; [rewrite Hr; apply lookup_insert_eq | exact Hnew]. }
  split; [lia |].
  split; [rewrite Hi; by apply lookup_app_l |].
  intros k Hk. rewrite Hr. by apply lookup_insert_ne.
Qed.

Lemma submit_registered_id_replaces_entry_witness :
  ∃ future s',
    ThreadPool.submit "job" HIGH (returns 2) once_submitted = (Ok future, s')
    ∧ packaged s' !! future = Some (PackagedTask.mk (returns 2) not_ready)
    ∧ (∃ task, tasks_ s' = tasks_ once_submitted ++ [task]
               ∧ Task.id task = "job" ∧ Task.info task = length (infos once_submitted)
               ∧ Task.priority task = HIGH ∧ Task.submit_time task = now once_submitted
               ∧ Task.function task
                 = Some (Closure.mk future (length (infos once_submitted))))
    ∧ task_infos_ s' !! "job" = Some (length (infos once_submitted))
    ∧ infos s' !! length (infos once_submitted)
      = Some (TaskInfo.mk "job" HIGH PENDING (now once_submitted) 0 0 "")
    ∧ TaskInfo.mk "job" HIGH PENDING (now once_submitted) 0 0 ""
      ∈ ThreadPool.getTaskInfos s'
    ∧ length (infos once_submitted) ≠ 0%nat
    ∧ infos s' !! 0%nat = infos once_submitted !! 0%nat
    ∧ (∀ k, k ≠ "job" → task_infos_ s' !! k = task_infos_ once_submitted !! k).
Proof.
  apply (submit_registered_id_replaces_entry "job" HIGH (returns 2) once_submitted 0).
  - reflexivity.
  - vm_compute. reflexivity.
  - vm_compute. lia.
Defined.

(** C6 as stated fails: the second submission under the id "job" is not
    refused, the queue grows and the registry entry changes. *)
Lemma submit_duplicate_id_not_rejected :
  task_infos_ once_submitted !! "job" = Some 0%nat
  ∧ ∃ future s',
      ThreadPool.submit "job" HIGH (returns 2) once_submitted = (Ok future, s')
      ∧ length (tasks_ s') = 2%nat
      ∧ length (tasks_ once_submitted) = 1%nat
      ∧ task_infos_ s' !! "job" = Some 1%nat.
Proof.
  split; [vm_compute; reflexivity |].
  eexists _, _. split; [reflexivity |].
  split; [reflexivity |]. split; [reflexivity |]. vm_compute. reflexivity.
Qed.

(** ** The pieces of [workerThread], field by field *)

Lemma try_catch_eq (info : nat) (r : Except unit) (s : State) :
  ThreadPool.try_catch info r s = set_infos (alter (assignments r) info (infos s)) s.
Proof.
  destruct r as [[]|[what|]]; unfold ThreadPool.try_catch, modify_info, set_infos;
    state_fields; [reflexivity | |]; f_equal; apply list_alter_alter_eq.
Qed.

(** [( *task)()] touches the packaged task it is called on and nothing else;
    the shared state is ready afterwards, and holds what the callable did
    when it was not ready before. *)
Lemma packaged_task_call_eq (task : nat) (s : State) :
  ∃ r pk,
    ThreadPool.packaged_task_call task s = (r, set_packaged pk s)
    ∧ length pk = length (packaged s)
    ∧ (∀ q, q ≠ task → pk !! q = packaged s !! q)
    ∧ (∀ pt, packaged s !! task = Some pt →
         ∃ pt', pk !! task = Some pt'
           ∧ PackagedTask.work pt' = PackagedTask.work pt
           ∧ PackagedTask.shared_state pt' ≠ not_ready
           ∧ (PackagedTask.shared_state pt ≠ not_ready → pt' = pt)
           ∧ (PackagedTask.shared_state pt = not_ready →
              r = Ok ()
              ∧ PackagedTask.shared_state pt' = promised (PackagedTask.work pt))).
Proof.
  unfold ThreadPool.packaged_task_call.
  destruct (packaged s !! task) as [pt|] eqn:E.
  - destruct (PackagedTask.shared_state pt) eqn:Ess.
    + eexists _, _. split; [reflexivity |]. split; [apply length_insert |].
      split; [intros q Hq; by apply list_lookup_insert_ne |].
      intros pt0 [= <-]. eexists.
      split; [apply list_lookup_insert_eq; eapply lookup_lt_Some, E |].
      cbn. split; [done |]. split; [by destruct (PackagedTask.work pt) |].
      split; [congruence | done].
    + exists (Throw (std_exception "std::future_error: Promise already satisfied")),
        (packaged s).
      split; [by destruct s |]. split; [done |]. split; [done |].
      intros pt0 [= <-]. exists pt. rewrite E, Ess. by repeat split.
    + exists (Throw (std_exception "std::future_error: Promise already satisfied")),
        (packaged s).
      split; [by destruct s |]. split; [done |]. split; [done |].
      intros pt0 [= <-]. exists pt. rewrite E, Ess. by repeat split.
  - exists (Ok ()), (packaged s).
    split; [by destruct s |]. split; [done |]. split; [done |]. intros pt [=].
Qed.

(** The state a finishing worker leaves.  Whatever the guarded call did, the
    lambda returned normally, so the worker's own guarded block ran to its
    end and assigned [COMPLETED]. *)
Lemma worker_finish_eq (i : nat) (s : State) (task : Task.t) (c : Closure.t) :
  workers_ s !! i = Some (Executing task) →
  Task.function task = Some c →
  ∃ r pk,
    ThreadPool.packaged_task_call (Closure.task c) s = (r, set_packaged pk s)
    ∧ let infos' :=
        alter (λ x, TaskInfo.with_end_time (clock s) (TaskInfo.with_status COMPLETED x))
          (Task.info task)
          (alter (λ x, TaskInfo.with_end_time (clock s) (assignments r x))
             (Closure.task_info c) (infos s)) in
      ThreadPool.worker_finish i s =
      Some (mkState (<[i := Waiting]> (workers_ s)) (tasks_ s) (task_infos_ s)
              (stop_ s) (force_stop_ s)
              (size_t (active_threads_ s - 1)) (task_counter_ s)
              (match infos' !! Task.info task with
               | Some x => ThreadPool.updateStats x (stats_ s)
               | None => stats_ s
               end)
              infos' pk (clock s)).
Proof.
  intros Hw Hf.
  destruct (packaged_task_call_eq (Closure.task c) s) as (r & pk & E & _).
  exists r, pk. split; [exact E |].
  unfold ThreadPool.worker_finish. rewrite Hw, Hf.
  unfold ThreadPool.function_call. rewrite E.
  rewrite !try_catch_eq.
  unfold ThreadPool.updateStats_of, modify_info, set_worker, now. state_fields.
  rewrite !list_alter_alter_eq. unfold compose. cbn [assignments].
  match goal with
  | |- context [match ?l !! ?p with _ => _ end] => destruct (l !! p)
  end; reflexivity.
Qed.

Lemma worker_begin_eq (i : nat) (s : State) (task : Task.t) (c : Closure.t) :
  workers_ s !! i = Some (Holding task) →
  Task.function task = Some c →
  ThreadPool.worker_begin i s =
  Some (mkState (<[i := Executing task]> (workers_ s)) (tasks_ s) (task_infos_ s)
          (stop_ s) (force_stop_ s) (active_threads_ s) (task_counter_ s) (stats_ s)
          (alter (λ x, TaskInfo.with_start_time (clock s) (TaskInfo.with_status RUNNING x))
             (Closure.task_info c)
             (alter (λ x, TaskInfo.with_start_time (clock s) (TaskInfo.with_status RUNNING x))
                (Task.info task) (infos s)))
          (packaged s) (clock s)).
Proof.
  intros Hw Hf. unfold ThreadPool.worker_begin. rewrite Hw, Hf.
  unfold modify_info, set_worker, now. state_fields.
  rewrite !list_alter_alter_eq. reflexivity.
Qed.

(** What a successful step of [worker_begin] and of [worker_finish] tells
    about the state before and after. *)
Lemma worker_begin_cases (i : nat) (s s' : State) :
  ThreadPool.worker_begin i s = Some s' →
  ∃ task,
    workers_ s !! i = Some (Holding task)
    ∧ ((∃ c, Task.function task = Some c
             ∧ s' = mkState (<[i := Executing task]> (workers_ s)) (tasks_ s)
                      (task_infos_ s) (stop_ s) (force_stop_ s) (active_threads_ s)
                      (task_counter_ s) (stats_ s)
                      (alter (λ x, TaskInfo.with_start_time (clock s)
                                     (TaskInfo.with_status RUNNING x))
                         (Closure.task_info c)
                         (alter (λ x, TaskInfo.with_start_time (clock s)
                                        (TaskInfo.with_status RUNNING x))
                            (Task.info task) (infos s)))
                      (packaged s) (clock s))
       ∨ (Task.function task = None
          ∧ s' = set_worker i Waiting
                   (set_active_threads (size_t (active_threads_ s - 1)) s))).
Proof.
  intros H.
  destruct (workers_ s !! i) as [[|task|task|]|] eqn:Hw;
    try (unfold ThreadPool.worker_begin in H; rewrite Hw in H; discriminate).
  exists task. split; [done |].
  destruct (Task.function task) as [c|] eqn:Hf.
  - left. exists c. split; [done |].
    rewrite (worker_begin_eq i s task c Hw Hf) in H. by injection H.
  - right. split; [done |].
    unfold ThreadPool.worker_begin in H. rewrite Hw, Hf in H. by injection H.
Qed.

Lemma worker_finish_cases (i : nat) (s s' : State) :
  ThreadPool.worker_finish i s = Some s' →
  ∃ task c r pk,
    workers_ s !! i = Some (Executing task)
    ∧ Task.function task = Some c
    ∧ ThreadPool.packaged_task_call (Closure.task c) s = (r, set_packaged pk s)
    ∧ length pk = length (packaged s)
    ∧ (∀ q, q ≠ Closure.task c → pk !! q = packaged s !! q)
    ∧ let infos' :=
        alter (λ x, TaskInfo.with_end_time (clock s) (TaskInfo.with_status COMPLETED x))
          (Task.info task)
          (alter (λ x, TaskInfo.with_end_time (clock s) (assignments r x))
             (Closure.task_info c) (infos s)) in
      s' = mkState (<[i := Waiting]> (workers_ s)) (tasks_ s) (task_infos_ s)
             (stop_ s) (force_stop_ s)
             (size_t (active_threads_ s - 1)) (task_counter_ s)
             (match infos' !! Task.info task with
              | Some x => ThreadPool.updateStats x (stats_ s)
              | None => stats_ s
              end)
             infos' pk (clock s).
Proof.
  intros H.
  destruct (workers_ s !! i) as [[|task|task|]|] eqn:Hw;
    try (unfold ThreadPool.worker_finish in H; rewrite Hw in H; discriminate).
  destruct (Task.function task) as [c|] eqn:Hf;
    [| unfold ThreadPool.worker_finish in H; rewrite Hw, Hf in H; discriminate].
  destruct (worker_finish_eq i s task c Hw Hf) as (r & pk & E & Hfin).
  destruct (packaged_task_call_eq (Closure.task c) s) as (r' & pk' & E' & Hlen & Hother & _).
  rewrite E in E'.
  assert (pk' = pk) as -> by exact (f_equal (λ x, packaged x.2) (eq_sym E')).
  exists task, c, r, pk. cbv zeta in Hfin |- *. rewrite Hfin in H. by injection H.
Qed.

(** ** A task whose callable throws *)

(** C1 (the code departs from it).  When the callable of the task a worker is
    executing throws [e], the packaged task stores [e] in the future and
    returns normally, so neither handler runs: the worker's step leaves the
    record in state COMPLETED with its [error_message] untouched, counts the
    task in [completed_tasks] and not in [failed_tasks], and the worker is
    back at its wait with the stop flags as they were. *)
Theorem throwing_task_is_recorded_COMPLETED (i : nat) (s : State) (task : Task.t)
    (c : Closure.t) (e : exception) (ti : TaskInfo.t) :
  workers_ s !! i = Some (Executing task) →
  Task.function task = Some c →
  packaged s !! Closure.task c = Some (PackagedTask.mk (throws e) not_ready) →
  infos s !! Task.info task = Some ti →
  ∃ s' ti',
    ThreadPool.worker_finish i s = Some s'
    ∧ infos s' !! Task.info task = Some ti'
    ∧ TaskInfo.status ti' = COMPLETED
    ∧ TaskInfo.error_message ti' = TaskInfo.error_message ti
    ∧ future_of (Closure.task c) s' = Some (ready_exception e)
    ∧ ThreadPoolStats.completed_tasks (stats_ s')
      = size_t (ThreadPoolStats.completed_tasks (stats_ s) + 1)
    ∧ ThreadPoolStats.failed_tasks (stats_ s') = ThreadPoolStats.failed_tasks (stats_ s)
    ∧ workers_ s' !! i = Some Waiting
    ∧ stop_ s' = stop_ s ∧ force_stop_ s' = force_stop_ s.
Proof.
  intros Hw Hf Hp Hi.
  destruct (worker_finish_eq i s task c Hw Hf) as (r & pk & E & Hfin).
  destruct (packaged_task_call_eq (Closure.task c) s) as (r' & pk' & E' & _ & _ & Hpt).
  rewrite E in E'.
  assert (r' = r) as -> by exact (f_equal fst (eq_sym E')).
  assert (pk' = pk) as -> by exact (f_equal (λ x, packaged x.2) (eq_sym E')).
  destruct (Hpt _ Hp) as (pt' & Hpt' & _ & _ & _ & Hready).
  destruct (Hready eq_refl) as [-> Hss]. cbn in Hss.
  cbv zeta in Hfin. rewrite Hfin. clear Hfin.
  set (f1 := λ x, TaskInfo.with_end_time (clock s) (assignments (Ok ()) x)).
  set (f2 := λ x, TaskInfo.with_end_time (clock s) (TaskInfo.with_status COMPLETED x)).
  assert (∃ ti1, alter f1 (Closure.task_info c) (infos s) !! Task.info task = Some ti1
                 ∧ TaskInfo.error_message ti1 = TaskInfo.error_message ti)
    as (ti1 & Hti1 & Hmsg).
  { destruct (decide (Closure.task_info c = Task.info task)) as [-> | Hne].
    - exists (f1 ti). by rewrite list_lookup_alter_eq, Hi.
    - exists ti. by rewrite list_lookup_alter_ne. }
  eexists _, (f2 ti1). split; [reflexivity |]. state_fields.
  rewrite list_lookup_alter_eq, Hti1. cbn [fmap option_fmap option_map].
  split; [reflexivity |]. split; [reflexivity |]. split; [exact Hmsg |].
  split; [unfold future_of; state_fields; by rewrite Hpt', <- Hss |].
  split; [reflexivity |]. split; [reflexivity |].
  split; [apply list_lookup_insert_eq; eapply lookup_lt_Some, Hw |]. done.
Qed.

Lemma throwing_task_is_recorded_COMPLETED_witness :
  ∃ s' ti',
    ThreadPool.worker_finish 0 boom_executing = Some s'
    ∧ infos s' !! 0%nat = Some ti'
    ∧ TaskInfo.status ti' = COMPLETED
    ∧ TaskInfo.error_message ti' = ""
    ∧ future_of 0 s' = Some (ready_exception (std_exception "boom"))
    ∧ ThreadPoolStats.completed_tasks (stats_ s')
      = size_t (ThreadPoolStats.completed_tasks (stats_ boom_executing) + 1)
    ∧ ThreadPoolStats.failed_tasks (stats_ s')
      = ThreadPoolStats.failed_tasks (stats_ boom_executing)
    ∧ workers_ s' !! 0%nat = Some Waiting
    ∧ stop_ s' = stop_ boom_executing ∧ force_stop_ s' = force_stop_ boom_executing.
Proof.
  apply (throwing_task_is_recorded_COMPLETED 0 boom_executing
           (Task.mk "boom" NORMAL (Some (Closure.mk 0 0)) 0 0) (Closure.mk 0 0)
           (std_exception "boom")
           (TaskInfo.mk "boom" NORMAL RUNNING 0 0 0 ""));
    reflexivity.
Defined.

(** Scenario 4 of the specification on a pool of one worker: the task that
    throws "boom" and the task that returns 7 both end COMPLETED; the
    counters read 2 completed and 0 failed. *)
Example failure_isolation_scenario :
  (s ← run scenario4 (pool 1);
   Some (status_of 0 s, TaskInfo.error_message <$> infos s !! 0%nat, future_of 0 s,
         status_of 1 s, future_of 1 s,
         ThreadPoolStats.completed_tasks (ThreadPool.getStats s),
         ThreadPoolStats.failed_tasks (ThreadPool.getStats s)))
  = Some (Some COMPLETED, Some "", Some (ready_exception (std_exception "boom")),
          Some COMPLETED, Some (ready_value 7), 2, 0).
Proof. vm_compute. reflexivity. Qed.

(** ** Cancellation *)

(** [cancelTask] answers [true] exactly when the registry entry of the id
    points to a record in state PENDING, and then it assigns CANCELLED to
    that record and touches nothing else. *)
Lemma cancelTask_true_iff (task_id : string) (s : State) :
  (ThreadPool.cancelTask task_id s).1 = true
  ↔ ∃ p, task_infos_ s !! task_id = Some p ∧ status_of p s = Some PENDING.
Proof.
  unfold ThreadPool.cancelTask, status_of.
  destruct (task_infos_ s !! task_id) as [p|]; [| split; [done | by intros (p & ? & _)]].
  destruct (infos s !! p) as [ti|] eqn:E.
  - destruct (decide (TaskInfo.status ti = PENDING)) as [Hp|Hp]; simpl.
    + split; [| done]. intros _. exists p. by rewrite E, <- Hp.
    + split; [done |]. intros (p' & [= <-] & H). rewrite E in H. naive_solver.
  - split; [done |]. intros (p' & [= <-] & H). by rewrite E in H.
Qed.

Lemma cancelTask_true (task_id : string) (s : State) (p : nat) :
  task_infos_ s !! task_id = Some p →
  status_of p s = Some PENDING →
  ThreadPool.cancelTask task_id s
  = (true, modify_info p (TaskInfo.with_status CANCELLED) s)
  ∧ status_of p (modify_info p (TaskInfo.with_status CANCELLED) s) = Some CANCELLED.
Proof.
  unfold ThreadPool.cancelTask, status_of. intros -> H.
  destruct (infos s !! p) as [ti|] eqn:E; [| done].
  injection H as H. rewrite decide_True by done.
  split; [done |]. unfold modify_info. state_fields.
  by rewrite list_lookup_alter_eq, E.
Qed.

Lemma cancelTask_false (task_id : string) (s : State) :
  (ThreadPool.cancelTask task_id s).1 = false → (ThreadPool.cancelTask task_id s).2 = s.
Proof.
  unfold ThreadPool.cancelTask.
  destruct (task_infos_ s !! task_id) as [p|]; [| done].
  destruct (infos s !! p) as [ti|]; [| done].
  by destruct (decide (TaskInfo.status ti = PENDING)).
Qed.

(** [cancelTask] does not touch the queue: the task it cancelled stays where
    a worker will find it. *)
Lemma cancelTask_leaves_queue (task_id : string) (s : State) :
  tasks_ (ThreadPool.cancelTask task_id s).2 = tasks_ s.
Proof.
  unfold ThreadPool.cancelTask.
  destruct (task_infos_ s !! task_id) as [p|]; [| done].
  destruct (infos s !! p) as [ti|]; [| done].
  by destruct (decide (TaskInfo.status ti = PENDING)).
Qed.

(** C2 (the code departs from it).  Scenario 3 of the specification: with the
    only worker busy, "B" is submitted and cancelled at once.  [cancelTask]
    answers [true] and the record reads CANCELLED, but the task stays in the
    queue; the worker's next iterations take it, run its callable (the
    future receives 10), record it COMPLETED and count it as completed. *)
Theorem cancelled_task_is_still_executed :
  ∃ s1 s2,
    ThreadPool.cancelTask "B" B_pending = (true, s1)
    ∧ status_of 1 s1 = Some CANCELLED
    ∧ future_of 1 s1 = Some not_ready
    ∧ ThreadPool.pendingTasks s1 = 1%nat
    ∧ run (WorkerFinish 0 :: iteration 0) s1 = Some s2
    ∧ future_of 1 s2 = Some (ready_value 10)
    ∧ status_of 1 s2 = Some COMPLETED
    ∧ ThreadPoolStats.completed_tasks (ThreadPool.getStats s2) = 2
    ∧ ThreadPoolStats.failed_tasks (ThreadPool.getStats s2) = 0.
Proof.
  eexists _, _. split; [vm_compute; reflexivity |].
  split; [reflexivity |]. split; [reflexivity |]. split; [reflexivity |].
  split; [vm_compute; reflexivity |]. by repeat split.
Qed.

(** ** Well-formedness is an invariant *)

Lemma submseteq_NoDup {A} (l k : list A) : l ⊆+ k → NoDup k → NoDup l.
Proof.
  intros Hsub Hk. apply submseteq_Permutation in Hsub as [k' Hk'].
  rewrite Hk' in Hk. by apply NoDup_app in Hk as [? _].
Qed.

(** Replacing the state of worker [i]: the tasks in the other workers'
    hands are some [rest], before and after. *)
Lemma held_insert (ws : list Worker) (i : nat) (w w' : Worker) :
  ws !! i = Some w →
  ∃ rest, held ws ≡ₚ task_of w ++ rest ∧ held (<[i := w']> ws) ≡ₚ task_of w' ++ rest.
Proof.
  intros Hi. exists (held (take i ws) ++ held (drop (S i) ws)).
  unfold held. split.
  - rewrite <- (take_drop_middle ws i w Hi) at 1.
    rewrite bind_app, bind_cons. by rewrite Permutation_app_swap_app.
  - rewrite insert_take_drop by (eapply lookup_lt_Some, Hi).
    rewrite bind_app, bind_cons. by rewrite Permutation_app_swap_app.
Qed.

Lemma held_insert_same (ws : list Worker) (i : nat) (w w' : Worker) :
  ws !! i = Some w → task_of w' = task_of w → held (<[i := w']> ws) ≡ₚ held ws.
Proof.
  intros Hi E. destruct (held_insert ws i w w' Hi) as (rest & H1 & H2).
  by rewrite H1, H2, E.
Qed.

Lemma held_insert_drop (ws : list Worker) (i : nat) (w w' : Worker) :
  ws !! i = Some w → task_of w' = [] → held (<[i := w']> ws) ⊆+ held ws.
Proof.
  intros Hi E. destruct (held_insert ws i w w' Hi) as (rest & H1 & H2).
  rewrite H1, H2, E. simpl. by apply submseteq_inserts_l.
Qed.

Lemma held_replicate_Waiting (n : nat) : held (replicate n Waiting) = [].
Proof. induction n as [|n IH]; [done |]. exact IH. Qed.

Lemma fmap_id_alter (f : TaskInfo.t → TaskInfo.t) (p : nat) (l : list TaskInfo.t) :
  (∀ x, TaskInfo.id (f x) = TaskInfo.id x) →
  TaskInfo.id <$> alter f p l = TaskInfo.id <$> l.
Proof.
  intros Hf. revert p. induction l as [|x l IH]; intros [|p]; [done.. | |].
  - change (TaskInfo.id (f x) :: (TaskInfo.id <$> l) = TaskInfo.id x :: (TaskInfo.id <$> l)).
    by rewrite Hf.
  - change (TaskInfo.id x :: (TaskInfo.id <$> alter f p l)
            = TaskInfo.id x :: (TaskInfo.id <$> l)).
    by rewrite IH.
Qed.

Lemma assignments_id (r : Except unit) (x : TaskInfo.t) :
  TaskInfo.id (assignments r x) = TaskInfo.id x.
Proof. by destruct r as [[]|[?|]]. Qed.

(** A step that keeps the registry, the identifiers of the records and the
    packaged tasks of the tasks that stay live, and does not create tasks,
    keeps the state well-formed. *)
Lemma wf_transfer (s s' : State) :
  wf s →
  task_infos_ s' = task_infos_ s →
  TaskInfo.id <$> infos s' = TaskInfo.id <$> infos s →
  length (packaged s') = length (packaged s) →
  (∀ task, task ∈ live s' → packaged s' !! Task.info task = packaged s !! Task.info task) →
  live s' ⊆+ live s →
  wf s'.
Proof.
  intros [Hreg Hclo Hnd Hal] Ereg Eids Epk Hpk Hsub.
  assert (length (infos s') = length (infos s)) as Elen
    by (by rewrite <- (length_fmap TaskInfo.id), Eids, length_fmap).
  split.
  - intros k p. rewrite Ereg, Eids. apply Hreg.
  - intros task Ht. rewrite (Hpk task Ht), Elen. apply Hclo.
    eapply elem_of_submseteq; [exact Ht | exact Hsub].
  - eapply submseteq_NoDup; [| exact Hnd]. by apply fmap_submseteq.
  - congruence.
Qed.

(** The two ways out of the critical section. *)
Lemma worker_take_cases (i : nat) (s s' : State) :
  ThreadPool.worker_take i s = Some s' →
  workers_ s !! i = Some Waiting
  ∧ ((((stop_ s && PriorityQueue.empty (tasks_ s)) || force_stop_ s) = true
      ∧ s' = set_worker i Exited s)
     ∨ (force_stop_ s = false
        ∧ ∃ task rest,
            PriorityQueue.extract (tasks_ s) = Some (task, rest)
            ∧ s' = set_worker i (Holding task)
                     (set_active_threads (size_t (active_threads_ s + 1))
                        (set_tasks rest s)))).
Proof.
  unfold ThreadPool.worker_take.
  destruct (workers_ s !! i) as [[| | |]|] eqn:Hw; try discriminate.
  destruct (negb (PriorityQueue.empty (tasks_ s)) || stop_ s || force_stop_ s) eqn:Hwait;
    [| discriminate].
  destruct ((stop_ s && PriorityQueue.empty (tasks_ s)) || force_stop_ s) eqn:Hexit.
  - intros [= <-]. split; [done |]. by left.
  - apply orb_false_elim in Hexit as [Hse Hforce].
    destruct (PriorityQueue.extract (tasks_ s)) as [[task rest]|] eqn:E.
    + destruct (top_pop_extract _ _ _ E) as (-> & -> & ->). simpl.
      intros [= <-]. split; [done |]. right. split; [done |]. by exists task, rest.
    + apply extract_None in E. rewrite E in Hwait, Hse. simpl in Hwait, Hse.
      rewrite Hforce, andb_true_r in *. rewrite Hse in Hwait. discriminate.
Qed.

Lemma cancel_loop_frame (n : nat) (s : State) :
  ∃ inf q,
    ThreadPool.cancel_loop n s = set_infos inf (set_tasks q s)
    ∧ TaskInfo.id <$> inf = TaskInfo.id <$> infos s.
Proof.
  revert s. induction n as [|n IH]; intros s; simpl.
  - exists (infos s), (tasks_ s). split; [by destruct s | done].
  - destruct (PriorityQueue.empty (tasks_ s));
      [exists (infos s), (tasks_ s); split; [by destruct s | done] |].
    destruct (PriorityQueue.top (tasks_ s)) as [task|].
    + destruct (IH (modify_info (Task.info task) (TaskInfo.with_status CANCELLED)
                      (set_tasks (PriorityQueue.pop (tasks_ s)) s)))
        as (inf & q & E & Hids).
      exists inf, q. rewrite E. split; [reflexivity |].
      rewrite Hids. unfold modify_info. state_fields. by apply fmap_id_alter.
    + exists (infos s), (tasks_ s). split; [by destruct s | done].
Qed.

Lemma construct_wf (thread_count : nat) (clock0 : Z) :
  wf (ThreadPool.construct thread_count clock0).
Proof.
  split.
  - intros k p. simpl. by rewrite lookup_empty.
  - intros task. unfold live. simpl. rewrite held_replicate_Waiting. by intros ?%elem_of_nil.
  - unfold live. simpl. rewrite held_replicate_Waiting. constructor.
  - reflexivity.
Qed.

Lemma submit_wf (task_id : string) (priority : TaskPriority) (f : outcome) (s : State) :
  wf s → wf (ThreadPool.submit task_id priority f s).2.
Proof.
  intros Hwf. destruct (stop_ s) eqn:Hstop.
  { by rewrite submit_rejected_when_stopping. }
  destruct (submit_accepted task_id priority f s Hstop)
    as (s' & E & Hw & Ht & Hr & Hi & Hp & _).
  rewrite E. simpl. destruct Hwf as [Hreg Hclo Hnd Hal].
  assert (live s' ≡ₚ
          Task.mk task_id priority
            (Some (Closure.mk (length (packaged s)) (length (infos s))))
            (clock s) (length (infos s)) :: live s) as Hlive.
  { unfold live. rewrite Ht, Hw. rewrite <- app_assoc. simpl.
    by rewrite <- Permutation_middle. }
  split.
  - intros k p. rewrite Hr, Hi, fmap_app. simpl.
    destruct (decide (task_id = k)) as [-> | Hne].
    + rewrite lookup_insert_eq. intros [= <-].
      rewrite lookup_app_r by (by rewrite length_fmap).
      by rewrite length_fmap, Nat.sub_diag.
    + rewrite lookup_insert_ne by done. intros Hk.
      apply lookup_app_l_Some. by apply Hreg.
  - intros task. rewrite Hlive, Hi, Hp, !length_app. simpl.
    intros [-> | Ht']%elem_of_cons; simpl.
    + rewrite Hal. split; [done |]. split; [| lia].
      exists f. rewrite <- Hal. by rewrite lookup_app_r, Nat.sub_diag.
    + destruct (Hclo _ Ht') as (Hfun & [w Hpt] & Hlt). split; [done |].
      split; [| lia]. exists w. by apply lookup_app_l_Some.
  - rewrite Hlive. simpl. apply NoDup_cons. split; [| done].
    intros (task & E' & Ht')%list_elem_of_fmap.
    destruct (Hclo _ Ht') as (_ & _ & Hlt). lia.
  - rewrite Hi, Hp, !length_app. simpl. lia.
Qed.

Lemma worker_take_wf (i : nat) (s s' : State) :
  wf s → ThreadPool.worker_take i s = Some s' → wf s'.
Proof.
  intros Hwf H. apply worker_take_cases in H as [Hw [[_ ->] | (_ & task & rest & E & ->)]].
  - apply (wf_transfer s); [done.. |]. unfold live, set_worker. state_fields.
    apply submseteq_skips_l. by eapply held_insert_drop.
  - apply (wf_transfer s); [done.. |]. unfold live, set_worker. state_fields.
    destruct (held_insert (workers_ s) i Waiting (Holding task) Hw) as (r & H1 & H2).
    rewrite H1, H2, (extract_Permutation _ _ _ E). simpl.
    by rewrite <- Permutation_middle.
Qed.

Lemma worker_begin_wf (i : nat) (s s' : State) :
  wf s → ThreadPool.worker_begin i s = Some s' → wf s'.
Proof.
  intros Hwf (task & Hw & [(c & Hf & ->) | (Hf & ->)])%worker_begin_cases.
  - apply (wf_transfer s); [done | reflexivity | | reflexivity | done |].
    + state_fields. by rewrite !fmap_id_alter.
    + unfold live. state_fields. apply submseteq_skips_l, Permutation_submseteq.
      by eapply held_insert_same.
  - apply (wf_transfer s); [done.. |]. unfold live, set_worker. state_fields.
    apply submseteq_skips_l. by eapply held_insert_drop.
Qed.

Lemma worker_finish_wf (i : nat) (s s' : State) :
  wf s → ThreadPool.worker_finish i s = Some s' → wf s'.
Proof.
  intros Hwf (task & c & r & pk & Hw & Hf & _ & Hlen & Hother & ->)%worker_finish_cases.
  destruct (held_insert (workers_ s) i _ Waiting Hw) as (rest & H1 & H2).
  simpl in H1, H2.
  assert (task ∈ live s) as Hlive.
  { unfold live. rewrite H1. apply elem_of_app. right. apply list_elem_of_here. }
  destruct (wf_closure s Hwf task Hlive) as (Hfun & _).
  rewrite Hf in Hfun. injection Hfun as ->.
  apply (wf_transfer s); [done | reflexivity | | exact Hlen | |].
  - state_fields. rewrite !fmap_id_alter; [done | |]; intros x; [| done].
    simpl. apply assignments_id.
  - unfold live. state_fields. intros task' Ht'. apply Hother. simpl.
    pose proof (wf_nodup s Hwf) as Hnd. unfold live in Hnd.
    rewrite H1, <- Permutation_middle in Hnd. simpl in Hnd.
    apply NoDup_cons in Hnd as [Hnotin _].
    intros Heq. apply Hnotin. rewrite <- Heq. apply list_elem_of_fmap_2.
    by rewrite H2 in Ht'.
  - unfold live. state_fields. apply submseteq_skips_l. by eapply held_insert_drop.
Qed.

Lemma exec_wf (a : Action) (s s' : State) : wf s → exec a s = Some s' → wf s'.
Proof.
  intros Hwf. destruct a; simpl.
  - intros [= <-]. by apply (wf_transfer s).
  - intros [= <-]. by apply submit_wf.
  - intros [= <-]. unfold ThreadPool.cancelTask.
    destruct (task_infos_ s !! task_id) as [p|]; [| done].
    destruct (infos s !! p) as [ti|]; [| done].
    destruct (decide (TaskInfo.status ti = PENDING)); [| done]. simpl.
    apply (wf_transfer s); [done | reflexivity | | reflexivity | done | reflexivity].
    unfold modify_info. state_fields. by apply fmap_id_alter.
  - intros [= <-]. unfold ThreadPool.cancelPendingTasks.
    destruct (cancel_loop_frame (length (tasks_ s)) s) as (inf & q & -> & Hids).
    apply (wf_transfer s); [done | reflexivity | exact Hids | reflexivity | done |].
    unfold live. state_fields. apply submseteq_inserts_l. reflexivity.
  - intros [= <-]. unfold ThreadPool.resize.
    destruct (decide (new_size = length (workers_ s))); [done |].
    apply (wf_transfer s); [done | | | | |];
      try (by destruct (decide (length (workers_ s) < new_size)%nat)).
    unfold live. destruct (decide (length (workers_ s) < new_size)%nat); state_fields;
      [| reflexivity].
    unfold held. by rewrite bind_app, (held_replicate_Waiting _ : _ ≫= _ = _), app_nil_r.
  - intros [= <-]. by apply (wf_transfer s).
  - unfold ThreadPool.join_and_clear.
    destruct (ThreadPool.all_exited (workers_ s)) eqn:Hex; [| discriminate].
    intros [= <-]. apply (wf_transfer s); [done.. |].
    unfold live. state_fields. by apply submseteq_skips_l, submseteq_nil_l.
  - intros [= <-]. by apply (wf_transfer s).
  - unfold ThreadPool.join_and_clear.
    destruct (ThreadPool.all_exited (workers_ s)) eqn:Hex; [| discriminate].
    intros [= <-]. apply (wf_transfer s); [done.. |].
    unfold live. state_fields. by apply submseteq_skips_l, submseteq_nil_l.
  - by apply worker_take_wf.
  - by apply worker_begin_wf.
  - by apply worker_finish_wf.
Qed.

Lemma run_wf (l : list Action) (s s' : State) : wf s → run l s = Some s' → wf s'.
Proof.
  revert s. induction l as [|a l IH]; intros s Hwf; simpl; [by intros [= <-] |].
  destruct (exec a s) as [s1|] eqn:E; [| discriminate].
  apply IH. by eapply exec_wf.
Qed.

(** Every state of a pool is well-formed. *)
Lemma reachable_wf (s : State) : reachable s → wf s.
Proof.
  intros (n & c0 & s0 & l & [= <-] & Hrun).
  eapply run_wf; [apply construct_wf | exact Hrun].
Qed.

(** ** The state machine of a task *)

(** A worker that begins a task assigns RUNNING whatever the record's state
    was: it does not read the state first. *)
Lemma worker_begin_ignores_status (i : nat) (s : State) (task : Task.t) (c : Closure.t) :
  workers_ s !! i = Some (Holding task) →
  Task.function task = Some c →
  (Task.info task < length (infos s))%nat →
  ∃ s', ThreadPool.worker_begin i s = Some s'
        ∧ status_of (Task.info task) s' = Some RUNNING
        ∧ workers_ s' !! i = Some (Executing task).
Proof.
  intros Hw Hf Hlt. eexists. split; [by apply worker_begin_eq |].
  unfold status_of. state_fields.
  apply lookup_lt_is_Some_2 in Hlt as [ti Hti].
  split; [| apply list_lookup_insert_eq; eapply lookup_lt_Some, Hw].
  destruct (decide (Closure.task_info c = Task.info task)) as [-> | Hne].
  - by rewrite !list_lookup_alter_eq, Hti.
  - rewrite list_lookup_alter_ne by done. by rewrite list_lookup_alter_eq, Hti.
Qed.

(** C7 (the code departs from it).  In a state the pool reaches, the record
    of "B" is in the terminal state CANCELLED and the worker holds the task;
    the worker's next step moves the record to RUNNING, which is not among
    the four transitions, and the step after that to COMPLETED. *)
Theorem cancelled_record_moves_to_RUNNING :
  reachable cancelled_B_in_hand
  ∧ status_of 1 cancelled_B_in_hand = Some CANCELLED
  ∧ terminal CANCELLED = true
  ∧ allowed_transition CANCELLED RUNNING = false
  ∧ (s ← exec (WorkerBegin 0) cancelled_B_in_hand; status_of 1 s) = Some RUNNING
  ∧ (s ← run [WorkerBegin 0; WorkerFinish 0] cancelled_B_in_hand; status_of 1 s)
    = Some COMPLETED.
Proof.
  split.
  { exists 1%nat, 0, (pool 1), cancelled_B_actions. split; [reflexivity |].
    vm_compute. reflexivity. }
  repeat apply conj; vm_compute; reflexivity.
Qed.

(** ** What the worker threads touch *)

Lemma elem_of_held (ws : list Worker) (i : nat) (w : Worker) (task : Task.t) :
  ws !! i = Some w → task ∈ task_of w → task ∈ held ws.
Proof.
  intros Hi Ht. apply list_elem_of_bind. exists w. split; [done |].
  by eapply list_elem_of_lookup_2.
Qed.

(** The closure of a task in a worker's hands captures the task's record. *)
Lemma held_closure (s : State) (i : nat) (w : Worker) (task : Task.t) (c : Closure.t) :
  wf s → workers_ s !! i = Some w → task ∈ task_of w → Task.function task = Some c →
  Closure.task_info c = Task.info task
  ∧ Closure.task c = Task.info task
  ∧ (Task.info task < length (infos s))%nat.
Proof.
  intros Hwf Hw Ht Hf.
  destruct (wf_closure s Hwf task) as (Hf' & _ & Hlt).
  { apply elem_of_app. right. by eapply elem_of_held. }
  rewrite Hf in Hf'. injection Hf' as ->. done.
Qed.

(** A worker writes only to the records of tasks in workers' hands. *)
Lemma worker_action_infos (a : Action) (s s' : State) (p : nat) :
  wf s → worker_action a = true → exec a s = Some s' →
  p ∉ Task.info <$> held (workers_ s) →
  infos s' !! p = infos s !! p.
Proof.
  intros Hwf Ha He Hp.
  assert (∀ i w task, workers_ s !! i = Some w → task ∈ task_of w → p ≠ Task.info task)
    as Hne.
  { intros i w task Hw Ht ->. apply Hp, list_elem_of_fmap_2. by eapply elem_of_held. }
  destruct a; try discriminate; simpl in He.
  - by injection He as <-.
  - by apply worker_take_cases in He as [_ [[_ ->] | (_ & task & rest & _ & ->)]].
  - apply worker_begin_cases in He as (task & Hw & [(c & Hf & ->) | (Hf & ->)]); [| done].
    destruct (held_closure s i _ task c Hwf Hw) as (Hc & _); [apply list_elem_of_here | done |].
    specialize (Hne i _ task Hw (list_elem_of_here _ _)).
    state_fields. rewrite Hc. by rewrite !list_lookup_alter_ne.
  - apply worker_finish_cases in He as (task & c & r & pk & Hw & Hf & _ & _ & _ & ->).
    destruct (held_closure s i _ task c Hwf Hw) as (Hc & _); [apply list_elem_of_here | done |].
    specialize (Hne i _ task Hw (list_elem_of_here _ _)).
    state_fields. rewrite Hc. by rewrite !list_lookup_alter_ne.
Qed.

(** Workers create no task: the live tasks after a worker's step are among
    those before. *)
Lemma worker_action_live (a : Action) (s s' : State) :
  worker_action a = true → exec a s = Some s' → live s' ⊆+ live s.
Proof.
  intros Ha He. destruct a; try discriminate; simpl in He.
  - by injection He as <-.
  - apply worker_take_cases in He as [Hw [[_ ->] | (_ & task & rest & E & ->)]].
    + unfold live, set_worker. state_fields.
      apply submseteq_skips_l. by eapply held_insert_drop.
    + unfold live, set_worker. state_fields.
      destruct (held_insert (workers_ s) i Waiting (Holding task) Hw) as (r & H1 & H2).
      rewrite H1, H2, (extract_Permutation _ _ _ E). simpl.
      by rewrite <- Permutation_middle.
  - apply worker_begin_cases in He as (task & Hw & [(c & Hf & ->) | (Hf & ->)]);
      unfold live, set_worker; state_fields; apply submseteq_skips_l.
    + apply Permutation_submseteq. by eapply held_insert_same.
    + by eapply held_insert_drop.
  - apply worker_finish_cases in He as (task & c & r & pk & Hw & Hf & _ & _ & _ & ->).
    unfold live. state_fields. apply submseteq_skips_l. by eapply held_insert_drop.
Qed.

(** Once the force flag is up, workers leave the queue alone. *)
Lemma worker_action_force_stopped (a : Action) (s s' : State) :
  force_stop_ s = true → worker_action a = true → exec a s = Some s' →
  tasks_ s' = tasks_ s ∧ force_stop_ s' = true.
Proof.
  intros Hforce Ha He. destruct a; try discriminate; simpl in He.
  - by injection He as <-.
  - apply worker_take_cases in He as [Hw [[_ ->] | (Hf & _)]]; [done | congruence].
  - by apply worker_begin_cases in He as (task & Hw & [(c & Hf & ->) | (Hf & ->)]).
  - by apply worker_finish_cases in He as (task & c & r & pk & Hw & Hf & _ & _ & _ & ->).
Qed.

(** The task a worker is executing stays in its hands until that worker's
    finishing step, which records it COMPLETED and lets go of it. *)
Lemma worker_action_executing (a : Action) (s s' : State) (i : nat) (task : Task.t) :
  wf s → worker_action a = true → exec a s = Some s' →
  workers_ s !! i = Some (Executing task) →
  workers_ s' !! i = Some (Executing task)
  ∨ (status_of (Task.info task) s' = Some COMPLETED
     ∧ Task.info task ∉ Task.info <$> live s').
Proof.
  intros Hwf Ha He Hi. destruct a as [d| | | | | | | | |j|j|j]; try discriminate; simpl in He.
  - left. by injection He as <-.
  - left. apply worker_take_cases in He as [Hw [[_ ->] | (_ & t & rest & _ & ->)]];
      unfold set_worker; state_fields;
      (rewrite list_lookup_insert_ne; [done | intros ->; congruence]).
  - left. apply worker_begin_cases in He as (t & Hw & [(c & Hf & ->) | (Hf & ->)]);
      unfold set_worker; state_fields;
      (rewrite list_lookup_insert_ne; [done | intros ->; congruence]).
  - apply worker_finish_cases in He as (t & c & r & pk & Hw & Hf & _ & _ & _ & ->).
    destruct (decide (j = i)) as [-> | Hne];
      [| left; state_fields; by rewrite list_lookup_insert_ne].
    right. rewrite Hi in Hw. injection Hw as <-.
    destruct (held_closure s i _ task c Hwf Hi) as (_ & _ & Hlt);
      [apply list_elem_of_here | done |].
    split.
    + unfold status_of. state_fields. rewrite list_lookup_alter_eq.
      assert (is_Some (alter (λ x, TaskInfo.with_end_time (clock s) (assignments r x))
                         (Closure.task_info c) (infos s) !! Task.info task)) as [ti ->]
        by (apply lookup_lt_is_Some_2; by rewrite length_alter).
      reflexivity.
    + unfold live. state_fields.
      destruct (held_insert (workers_ s) i _ Waiting Hi) as (rest & H1 & H2).
      pose proof (wf_nodup s Hwf) as Hnd. unfold live in Hnd.
      rewrite H1 in Hnd. rewrite H2. simpl in Hnd |- *.
      rewrite <- Permutation_middle in Hnd. simpl in Hnd.
      by apply NoDup_cons in Hnd as [? _].
Qed.

(** Any stretch of worker steps taken with the force flag up. *)
Lemma run_force_stopped (l : list Action) (s s2 : State) :
  wf s → force_stop_ s = true → forallb worker_action l = true → run l s = Some s2 →
  wf s2 ∧ force_stop_ s2 = true ∧ tasks_ s2 = tasks_ s
  ∧ held (workers_ s2) ⊆+ held (workers_ s)
  ∧ (∀ p, p ∉ Task.info <$> held (workers_ s) → infos s2 !! p = infos s !! p)
  ∧ (∀ i task, workers_ s !! i = Some (Executing task) →
       workers_ s2 !! i = Some (Executing task)
       ∨ (status_of (Task.info task) s2 = Some COMPLETED
          ∧ Task.info task ∉ Task.info <$> live s2)).
Proof.
  revert s. induction l as [|a l IH]; intros s Hwf Hforce Hl; simpl.
  { intros [= <-]. split; [done |]. split; [done |]. split; [done |].
    split; [done |]. split; [done |]. intros i task Hi. by left. }
  simpl in Hl. apply andb_prop in Hl as [Ha Hl].
  destruct (exec a s) as [s1|] eqn:He; [| discriminate]. intros Hrun.
  pose proof (exec_wf a s s1 Hwf He) as Hwf1.
  destruct (worker_action_force_stopped a s s1 Hforce Ha He) as [Ht1 Hf1].
  pose proof (worker_action_live a s s1 Ha He) as Hlive1.
  assert (held (workers_ s1) ⊆+ held (workers_ s)) as Hheld1.
  { unfold live in Hlive1. rewrite Ht1 in Hlive1. by apply submseteq_app_inv_l in Hlive1. }
  destruct (IH s1 Hwf1 Hf1 Hl Hrun) as (Hwf2 & Hf2 & Ht2 & Hheld2 & Hinfos2 & Hexec2).
  split; [done |]. split; [done |]. split; [congruence |].
  split; [by etrans |].
  assert (∀ p, p ∉ Task.info <$> held (workers_ s) → p ∉ Task.info <$> held (workers_ s1))
    as Hnot.
  { intros p Hp Hin. apply Hp. eapply elem_of_submseteq; [exact Hin |].
    by apply fmap_submseteq. }
  split.
  - intros p Hp. rewrite Hinfos2 by auto. by eapply worker_action_infos.
  - intros i task Hi.
    destruct (worker_action_executing a s s1 i task Hwf Ha He Hi) as [Hi1 | [Hst Hp]];
      [by apply Hexec2 |].
    right.
    assert (Task.info task ∉ Task.info <$> held (workers_ s1)) as Hp1.
    { intros Hin. apply Hp. unfold live. rewrite fmap_app. apply elem_of_app. by right. }
    split.
    + unfold status_of in *. by rewrite Hinfos2.
    + intros Hin. apply Hp. eapply elem_of_submseteq; [exact Hin |].
      apply fmap_submseteq. unfold live. rewrite Ht2. by apply submseteq_skips_l.
Qed.

Lemma all_exited_lookup (ws : list Worker) (i : nat) (w : Worker) :
  ThreadPool.all_exited ws = true → ws !! i = Some w → w = Exited.
Proof.
  unfold ThreadPool.all_exited. revert i.
  induction ws as [|w0 ws IH]; intros [|i]; simpl; try done;
    intros [Hw Hws]%andb_prop.
  - intros [= <-]. by destruct w0.
  - by apply IH.
Qed.

(** ** Forced shutdown: the join completes *)

Lemma run_app (l1 l2 : list Action) (s : State) :
  run (l1 ++ l2) s = run l1 s ≫= run l2.
Proof.
  revert s. induction l1 as [|a l1 IH]; intros s; simpl; [done |].
  destruct (exec a s); [apply IH | done].
Qed.

Lemma worker_take_exits (i : nat) (s : State) :
  workers_ s !! i = Some Waiting → force_stop_ s = true →
  ThreadPool.worker_take i s = Some (set_worker i Exited s).
Proof.
  intros Hw Hf. unfold ThreadPool.worker_take. rewrite Hw, Hf.
  by rewrite !orb_true_r.
Qed.

Lemma exit_plan_worker_action (i : nat) (w : Worker) :
  forallb worker_action (exit_plan i w) = true.
Proof. by destruct w. Qed.

Lemma exit_plans_worker_action (ws : list Worker) (i : nat) :
  forallb worker_action (exit_plans i ws) = true.
Proof.
  revert i. induction ws as [|w ws IH]; intros i; simpl; [done |].
  by rewrite forallb_app, exit_plan_worker_action, IH.
Qed.

Lemma run_cons (a : Action) (l : list Action) (s s1 : State) :
  exec a s = Some s1 → run (a :: l) s = run l s1.
Proof. intros E. simpl. by rewrite E. Qed.

(** A worker holding a task is never blocked. *)
Lemma worker_begin_progress (i : nat) (s : State) (task : Task.t) :
  wf s → workers_ s !! i = Some (Holding task) →
  ∃ s', exec (WorkerBegin i) s = Some s'
        ∧ workers_ s' = <[i := Executing task]> (workers_ s).
Proof.
  intros Hwf Hw. destruct (wf_closure s Hwf task) as (Hfun & _).
  { apply elem_of_app. right. eapply elem_of_held; [done |]. apply list_elem_of_here. }
  eexists. split; [by apply (worker_begin_eq i s task _ Hw Hfun) | done].
Qed.

Lemma worker_finish_progress (i : nat) (s : State) (task : Task.t) :
  wf s → workers_ s !! i = Some (Executing task) →
  ∃ s', exec (WorkerFinish i) s = Some s'
        ∧ workers_ s' = <[i := Waiting]> (workers_ s).
Proof.
  intros Hwf Hw. destruct (wf_closure s Hwf task) as (Hfun & _).
  { apply elem_of_app. right. eapply elem_of_held; [done |]. apply list_elem_of_here. }
  destruct (worker_finish_eq i s task _ Hw Hfun) as (r & pk & _ & Hfin).
  cbv zeta in Hfin. eexists. split; [exact Hfin | done].
Qed.

Lemma exit_plan_run (i : nat) (w : Worker) (s : State) :
  wf s → force_stop_ s = true → workers_ s !! i = Some w →
  ∃ s', run (exit_plan i w) s = Some s'
        ∧ workers_ s' = <[i := Exited]> (workers_ s).
Proof.
  intros Hwf Hf Hw.
  assert (i < length (workers_ s))%nat as Hlt by (by eapply lookup_lt_Some).
  assert (∀ s1, wf s1 → force_stop_ s1 = true → workers_ s1 = <[i := Waiting]> (workers_ s) →
                ∃ s', run [WorkerTake i] s1 = Some s'
                      ∧ workers_ s' = <[i := Exited]> (workers_ s)) as Htake.
  { intros s1 _ Hf1 Hws1. eexists. split.
    - erewrite run_cons; [reflexivity |]. simpl. apply worker_take_exits; [| done].
      rewrite Hws1. by apply list_lookup_insert_eq.
    - unfold set_worker. simpl. by rewrite Hws1, list_insert_insert_eq. }
  assert (∀ s1 task, wf s1 → force_stop_ s1 = true →
                workers_ s1 = <[i := Executing task]> (workers_ s) →
                ∃ s', run [WorkerFinish i; WorkerTake i] s1 = Some s'
                      ∧ workers_ s' = <[i := Exited]> (workers_ s)) as Hfinish.
  { intros s1 task Hwf1 Hf1 Hws1.
    destruct (worker_finish_progress i s1 task Hwf1) as (s2 & E2 & Hws2).
    { rewrite Hws1. by apply list_lookup_insert_eq. }
    rewrite (run_cons _ _ _ _ E2). apply Htake.
    - by eapply exec_wf.
    - by eapply (worker_action_force_stopped (WorkerFinish i)).
    - by rewrite Hws2, Hws1, list_insert_insert_eq. }
  destruct w as [|task|task|]; simpl exit_plan.
  - apply Htake; [done.. |]. symmetry. by apply list_insert_id.
  - destruct (worker_begin_progress i s task Hwf Hw) as (s1 & E1 & Hws1).
    rewrite (run_cons _ _ _ _ E1). apply (Hfinish s1 task); [| | done].
    + by eapply exec_wf.
    + by eapply (worker_action_force_stopped (WorkerBegin i)).
  - apply (Hfinish s task); [done.. |]. symmetry. by apply list_insert_id.
  - exists s. split; [done |]. symmetry. by apply list_insert_id.
Qed.

Lemma exit_plans_run (ws : list Worker) (i : nat) (s : State) :
  wf s → force_stop_ s = true → drop i (workers_ s) = ws →
  ∃ s', run (exit_plans i ws) s = Some s'
        ∧ workers_ s' = take i (workers_ s) ++ replicate (length ws) Exited.
Proof.
  revert i s. induction ws as [|w ws IH]; intros i s Hwf Hf Hdrop; simpl.
  - exists s. split; [done |]. rewrite app_nil_r.
    symmetry. apply take_ge. by apply drop_nil_inv.
  - assert (workers_ s !! i = Some w) as Hw.
    { rewrite <- (Nat.add_0_r i), <- lookup_drop, Hdrop. done. }
    assert (i < length (workers_ s))%nat as Hlt by (by eapply lookup_lt_Some).
    destruct (exit_plan_run i w s Hwf Hf Hw) as (s1 & E1 & Hws1).
    assert (wf s1 ∧ force_stop_ s1 = true) as [Hwf1 Hf1].
    { destruct (run_force_stopped (exit_plan i w) s s1 Hwf Hf) as (? & ? & _);
        [apply exit_plan_worker_action | done | done]. }
    destruct (IH (S i) s1 Hwf1 Hf1) as (s' & E' & Hws').
    { rewrite Hws1, drop_insert_lt by lia.
      rewrite (drop_S _ _ _ Hw) in Hdrop. by injection Hdrop. }
    exists s'. split; [by rewrite run_app, E1 |].
    rewrite Hws', Hws1.
    rewrite (take_S_r _ _ Exited) by (by apply list_lookup_insert_eq).
    rewrite take_insert_ge by lia. by rewrite <- app_assoc.
Qed.

Lemma all_exited_replicate (n : nat) : ThreadPool.all_exited (replicate n Exited) = true.
Proof. by induction n. Qed.

(** [forceShutdown] returns: from any state of a pool there are worker steps
    after which every thread has exited, so that [join] completes. *)
Lemma forceShutdown_can_return (s0 : State) :
  reachable s0 →
  ∃ l s2 s3,
    forallb worker_action l = true
    ∧ run l (ThreadPool.forceShutdown_request s0) = Some s2
    ∧ ThreadPool.join_and_clear s2 = Some s3.
Proof.
  intros Hwf%reachable_wf.
  assert (wf (ThreadPool.forceShutdown_request s0)) as Hwf1
    by (by apply (exec_wf ForceShutdownRequest s0)).
  destruct (exit_plans_run (workers_ s0) 0 _ Hwf1 eq_refl eq_refl) as (s2 & E & Hws).
  exists (exit_plans 0 (workers_ s0)), s2, (set_workers [] s2).
  split; [apply exit_plans_worker_action |]. split; [exact E |].
  unfold ThreadPool.join_and_clear. rewrite Hws. simpl.
  by rewrite all_exited_replicate.
Qed.

(** ** The running mean of the durations *)

Lemma size_t_small (z : Z) : 0 ≤ z < 2 ^ 64 → size_t z = z.
Proof. intros H. unfold size_t. by apply Z.mod_small. Qed.

Lemma account_snoc (l : list TaskInfo.t) (info : TaskInfo.t) (st : ThreadPoolStats.t) :
  account (l ++ [info]) st = ThreadPool.updateStats info (account l st).
Proof. unfold account. by rewrite foldl_app. Qed.

Lemma total_duration_ms_snoc (l : list TaskInfo.t) (info : TaskInfo.t) :
  total_duration_ms (l ++ [info]) = total_duration_ms l + recorded_duration info.
Proof.
  unfold total_duration_ms. induction l as [|x l IH]; simpl; [lia |]. rewrite IH. lia.
Qed.

(** The running mean, on the statistics alone: from counters at zero, after
    the records of [l] have been accounted for, each of them terminated and
    with its end strictly after its start, the two totals add up to the
    number of records and the mean times that number is the sum of the
    recorded durations. *)
Lemma account_running_mean (l : list TaskInfo.t) (st0 : ThreadPoolStats.t) :
  counters st0 = (0, 0, 0%Q) →
  Forall (λ info, (TaskInfo.status info = COMPLETED ∨ TaskInfo.status info = FAILED)
                  ∧ TaskInfo.start_time info < TaskInfo.end_time info) l →
  Z.of_nat (length l) < 2 ^ 64 →
  let st := account l st0 in
  0 ≤ ThreadPoolStats.completed_tasks st
  ∧ 0 ≤ ThreadPoolStats.failed_tasks st
  ∧ ThreadPoolStats.completed_tasks st + ThreadPoolStats.failed_tasks st
    = Z.of_nat (length l)
  ∧ (ThreadPoolStats.average_task_duration_ms st
     * inject_Z (ThreadPoolStats.completed_tasks st + ThreadPoolStats.failed_tasks st)
     == inject_Z (total_duration_ms l))%Q.
Proof.
  intros H0. induction l as [|info l IH] using rev_ind; intros Hall Hlen.
  - injection H0 as Hc Hf Ha. simpl. rewrite Hc, Hf, Ha. repeat apply conj; try lia; reflexivity.
  - apply Forall_app in Hall as [Hall Hinfo].
    apply Forall_singleton in Hinfo as [Hst Hlt].
    rewrite length_app in Hlen. simpl in Hlen.
    destruct IH as (Hc & Hf & Hn & Hmean); [done | lia |].
    rewrite account_snoc, total_duration_ms_snoc, length_app. simpl.
    set (st := account l st0) in *.
    unfold ThreadPool.updateStats. simpl.
    apply Z.gtb_lt in Hlt as Hgt. rewrite Hgt.
    assert (∀ c f, 0 ≤ c → 0 ≤ f → c + f = Z.of_nat (length l) + 1 →
              (((ThreadPoolStats.average_task_duration_ms st
                 * inject_Z (size_t (c + f - 1))
                 + inject_Z (recorded_duration info)) / inject_Z (size_t (c + f)))
               * inject_Z (c + f)
               == inject_Z (total_duration_ms l + recorded_duration info))%Q) as Hstep.
    { intros c f Hc0 Hf0 Hcf.
      rewrite !size_t_small by lia.
      replace (c + f - 1) with
        (ThreadPoolStats.completed_tasks st + ThreadPoolStats.failed_tasks st) by lia.
      transitivity (ThreadPoolStats.average_task_duration_ms st
                    * inject_Z (ThreadPoolStats.completed_tasks st
                                + ThreadPoolStats.failed_tasks st)
                    + inject_Z (recorded_duration info))%Q.
      - field. intros H. unfold Qeq in H. simpl in H. lia.
      - rewrite (inject_Z_plus (total_duration_ms l)).
        apply Qplus_comp; [exact Hmean | reflexivity]. }
    destruct Hst as [Hst | Hst]; rewrite Hst; simpl.
    + rewrite (size_t_small (ThreadPoolStats.completed_tasks st + 1)) by lia.
      split; [lia |]. split; [lia |]. split; [lia |].
      apply Hstep; lia.
    + rewrite (size_t_small (ThreadPoolStats.failed_tasks st + 1)) by lia.
      split; [lia |]. split; [lia |]. split; [lia |].
      apply Hstep; lia.
Qed.

Lemma counters_updateStats (info : TaskInfo.t) (st st' : ThreadPoolStats.t) :
  counters st = counters st' →
  counters (ThreadPool.updateStats info st) = counters (ThreadPool.updateStats info st').
Proof.
  unfold counters, ThreadPool.updateStats. intros [= Hc Hf Ha]. simpl.
  by rewrite Hc, Hf, Ha.
Qed.

Lemma counters_account (l : list TaskInfo.t) (st st' : ThreadPoolStats.t) :
  counters st = counters st' → counters (account l st) = counters (account l st').
Proof.
  revert st st'. induction l as [|info l IH]; intros st st' H; [done |].
  apply IH. by apply counters_updateStats.
Qed.

Lemma account_app (l1 l2 : list TaskInfo.t) (st : ThreadPoolStats.t) :
  account (l1 ++ l2) st = account l2 (account l1 st).
Proof. unfold account. apply foldl_app. Qed.

(** One step: the counters change exactly by the call of [updateStats] on
    the record a finishing worker passes, and that record reads COMPLETED. *)
Lemma exec_counters (a : Action) (s s' : State) :
  exec a s = Some s' →
  counters (stats_ s') = counters (account (finished_by a s) (stats_ s))
  ∧ Forall (λ info, TaskInfo.status info = COMPLETED) (finished_by a s).
Proof.
  intros He. destruct a; simpl in He |- *.
  - by injection He as <-.
  - injection He as <-. split; [| done]. unfold ThreadPool.submit.
    destruct (stop_ s) eqn:Hstop; [done |]. state_fields. by rewrite Hstop.
  - injection He as <-. split; [| done]. unfold ThreadPool.cancelTask.
    destruct (task_infos_ s !! task_id) as [p|]; [| done].
    destruct (infos s !! p) as [ti|]; [| done].
    by destruct (decide (TaskInfo.status ti = PENDING)).
  - injection He as <-. split; [| done]. unfold ThreadPool.cancelPendingTasks.
    by destruct (cancel_loop_frame (length (tasks_ s)) s) as (inf & q & -> & _).
  - injection He as <-. split; [| done]. unfold ThreadPool.resize.
    destruct (decide (new_size = length (workers_ s))); [done |].
    by destruct (decide (length (workers_ s) < new_size)%nat).
  - by injection He as <-.
  - unfold ThreadPool.join_and_clear in He.
    destruct (ThreadPool.all_exited (workers_ s)); [| discriminate]. by injection He as <-.
  - by injection He as <-.
  - unfold ThreadPool.join_and_clear in He.
    destruct (ThreadPool.all_exited (workers_ s)); [| discriminate]. by injection He as <-.
  - by apply worker_take_cases in He as [_ [[_ ->] | (_ & task & rest & _ & ->)]].
  - by apply worker_begin_cases in He as (task & Hw & [(c & Hf & ->) | (Hf & ->)]).
  - rewrite He.
    apply worker_finish_cases in He as (task & c & r & pk & Hw & Hf & _ & _ & _ & ->).
    rewrite Hw. state_fields. rewrite list_lookup_alter_eq.
    destruct (alter _ (Closure.task_info c) (infos s) !! Task.info task) as [x|]; simpl;
      [| done].
    split; [done |]. by apply Forall_singleton.
Qed.

Lemma run_counters (l : list Action) (s s' : State) :
  run l s = Some s' →
  counters (stats_ s') = counters (account (finished l s) (stats_ s))
  ∧ Forall (λ info, TaskInfo.status info = COMPLETED) (finished l s).
Proof.
  revert s. induction l as [|a l IH]; intros s; simpl; [by intros [= <-] |].
  destruct (exec a s) as [s1|] eqn:He; [| discriminate]. intros Hrun.
  destruct (exec_counters a s s1 He) as [Hc1 Hall1].
  destruct (IH s1 Hrun) as [Hc Hall].
  split; [| by apply Forall_app].
  rewrite Hc, account_app. by apply counters_account.
Qed.

(** The mean where the guard of [updateStats] holds.  In every state a pool
    reaches, provided each task that has terminated so far ended at a clock
    reading strictly later than the one it started at (and fewer than 2^64
    tasks have terminated), the statistics satisfy, in exact arithmetic: the records handed to
    [updateStats] are those of the terminated tasks, [completed_tasks +
    failed_tasks] is their number, and [average_task_duration_ms] times that
    number is the sum of their recorded durations in whole milliseconds. *)
Theorem average_duration_is_running_mean (thread_count : nat) (clock0 : Z)
    (l : list Action) (s : State) :
  let s0 := ThreadPool.construct thread_count clock0 in
  run l s0 = Some s →
  Forall (λ info, TaskInfo.start_time info < TaskInfo.end_time info) (finished l s0) →
  Z.of_nat (length (finished l s0)) < 2 ^ 64 →
  let st := ThreadPool.getStats s in
  Forall (λ info, TaskInfo.status info = COMPLETED) (finished l s0)
  ∧ ThreadPoolStats.completed_tasks st + ThreadPoolStats.failed_tasks st
    = Z.of_nat (length (finished l s0))
  ∧ (ThreadPoolStats.average_task_duration_ms st
     * inject_Z (ThreadPoolStats.completed_tasks st + ThreadPoolStats.failed_tasks st)
     == inject_Z (total_duration_ms (finished l s0)))%Q.
Proof.
  intros s0 Hrun Hpos Hlen st.
  destruct (run_counters l s0 s Hrun) as [Hc Hall].
  destruct (account_running_mean (finished l s0) (stats_ s0)) as (_ & _ & Hn & Hmean);
    [reflexivity | | done |].
  { rewrite Forall_forall in Hall, Hpos |- *. intros info Hin. split; [left |]; auto. }
  unfold counters in Hc. injection Hc as Hc Hf Ha.
  subst st. unfold ThreadPool.getStats. simpl. rewrite Hc, Hf, Ha. by repeat split.
Qed.

Lemma average_duration_is_running_mean_witness :
  let st := ThreadPool.getStats (after scenario4 1) in
  Forall (λ info, TaskInfo.status info = COMPLETED)
    (finished scenario4 (ThreadPool.construct 1 0))
  ∧ ThreadPoolStats.completed_tasks st + ThreadPoolStats.failed_tasks st
    = Z.of_nat (length (finished scenario4 (ThreadPool.construct 1 0)))
  ∧ (ThreadPoolStats.average_task_duration_ms st
     * inject_Z (ThreadPoolStats.completed_tasks st + ThreadPoolStats.failed_tasks st)
     == inject_Z (total_duration_ms (finished scenario4 (ThreadPool.construct 1 0))))%Q.
Proof.
  apply (average_duration_is_running_mean 1 0 scenario4 (after scenario4 1)).
  - vm_compute. reflexivity.
  - vm_compute. repeat constructor.
  - vm_compute. reflexivity.
Defined.

(** A task of 10 ms followed by a task whose start and end readings
    coincide leaves the mean at 10 with two tasks counted, so the product
    is 20 while the recorded durations sum to 10. *)
Lemma average_duration_skips_zero_duration :
  let st := ThreadPool.getStats (after zero_duration_actions 1) in
  run zero_duration_actions (pool 1) = Some (after zero_duration_actions 1)
  ∧ ThreadPoolStats.completed_tasks st + ThreadPoolStats.failed_tasks st = 2
  ∧ total_duration_ms (finished zero_duration_actions (pool 1)) = 10
  ∧ (ThreadPoolStats.average_task_duration_ms st == 10)%Q
  ∧ ¬ (ThreadPoolStats.average_task_duration_ms st
       * inject_Z (ThreadPoolStats.completed_tasks st + ThreadPoolStats.failed_tasks st)
       == inject_Z (total_duration_ms (finished zero_duration_actions (pool 1))))%Q.
Proof.
  repeat apply conj; try (vm_compute; reflexivity).
  intros H. vm_compute in H. discriminate.
Qed.

(** ** Two submissions under one id *)

(** Only [submit] writes to the registry. *)
Lemma exec_registry (task_id : string) (a : Action) (s s' : State) :
  resubmits task_id a = false → exec a s = Some s' →
  task_infos_ s' !! task_id = task_infos_ s !! task_id.
Proof.
  intros Ha He. destruct a as [d|id p g| | | | | | | |i|i|i]; simpl in He.
  - by injection He as <-.
  - injection He as <-. simpl in Ha. apply bool_decide_eq_false in Ha.
    unfold ThreadPool.submit. destruct (stop_ s) eqn:Hstop; [done |].
    state_fields. rewrite Hstop. simpl. by apply lookup_insert_ne.
  - injection He as <-. unfold ThreadPool.cancelTask.
    destruct (task_infos_ s !! task_id0) as [p|]; [| done].
    destruct (infos s !! p) as [ti|]; [| done].
    by destruct (decide (TaskInfo.status ti = PENDING)).
  - injection He as <-. unfold ThreadPool.cancelPendingTasks.
    by destruct (cancel_loop_frame (length (tasks_ s)) s) as (inf & q & -> & _).
  - injection He as <-. unfold ThreadPool.resize.
    destruct (decide (new_size = length (workers_ s))); [done |].
    by destruct (decide (length (workers_ s) < new_size)%nat).
  - by injection He as <-.
  - unfold ThreadPool.join_and_clear in He.
    destruct (ThreadPool.all_exited (workers_ s)); [| discriminate]. by injection He as <-.
  - by injection He as <-.
  - unfold ThreadPool.join_and_clear in He.
    destruct (ThreadPool.all_exited (workers_ s)); [| discriminate]. by injection He as <-.
  - by apply worker_take_cases in He as [_ [[_ ->] | (_ & task & rest & _ & ->)]].
  - by apply worker_begin_cases in He as (task & Hw & [(c & Hf & ->) | (Hf & ->)]).
  - by apply worker_finish_cases in He as (task & c & r & pk & Hw & Hf & _ & _ & _ & ->).
Qed.

Lemma run_registry (task_id : string) (l : list Action) (s s' : State) :
  forallb (λ a, negb (resubmits task_id a)) l = true → run l s = Some s' →
  task_infos_ s' !! task_id = task_infos_ s !! task_id.
Proof.
  revert s. induction l as [|a l IH]; intros s Hl; simpl; [by intros [= <-] |].
  simpl in Hl. apply andb_prop in Hl as [Ha Hl]. apply negb_true_iff in Ha.
  destruct (exec a s) as [s1|] eqn:He; [| discriminate]. intros Hrun.
  rewrite (IH s1 Hl Hrun). by eapply exec_registry.
Qed.

(** A status query by id sees the record the registry entry points to, and
    no other. *)
Lemma getTaskInfos_by_id (info : TaskInfo.t) (s : State) (p : nat) :
  wf s → task_infos_ s !! TaskInfo.id info = Some p →
  info ∈ ThreadPool.getTaskInfos s → infos s !! p = Some info.
Proof.
  intros Hwf Hp (k & q & Hk & Hq)%elem_of_getTaskInfos.
  pose proof (wf_registry s Hwf k q Hk) as Hid.
  rewrite list_lookup_fmap, Hq in Hid. injection Hid as Hid.
  rewrite Hid, Hk in Hp. by injection Hp as <-.
Qed.

(** One loop iteration of a waiting worker on a non-empty queue: it takes the
    top task and runs its callable, whose result lands in the future; the
    other packaged tasks, the registry and the flags are as before. *)
Lemma iteration_run (i : nat) (s : State) :
  wf s → workers_ s !! i = Some Waiting → force_stop_ s = false → tasks_ s ≠ [] →
  ∃ task rest w s',
    PriorityQueue.extract (tasks_ s) = Some (task, rest)
    ∧ packaged s !! Task.info task = Some (PackagedTask.mk w not_ready)
    ∧ run (iteration i) s = Some s'
    ∧ tasks_ s' = rest
    ∧ workers_ s' !! i = Some Waiting
    ∧ force_stop_ s' = false
    ∧ task_infos_ s' = task_infos_ s
    ∧ packaged s' !! Task.info task = Some (PackagedTask.mk w (promised w))
    ∧ (∀ q, q ≠ Task.info task → packaged s' !! q = packaged s !! q).
Proof.
  intros Hwf Hw Hforce Hq.
  assert (i < length (workers_ s))%nat as Hlt by (by eapply lookup_lt_Some).
  destruct (extract_is_Some _ Hq) as (task & rest & E).
  assert (task ∈ live s) as Hlive.
  { apply elem_of_app. left. rewrite (extract_Permutation _ _ _ E). apply list_elem_of_here. }
  destruct (wf_closure s Hwf task Hlive) as (Hfun & [w Hpt] & _).
  exists task, rest, w.
  set (s1 := set_worker i (Holding task)
               (set_active_threads (size_t (active_threads_ s + 1)) (set_tasks rest s))).
  assert (exec (WorkerTake i) s = Some s1) as E1.
  { by apply worker_take_top. }
  assert (workers_ s1 !! i = Some (Holding task)) as Hw1
    by (by apply list_lookup_insert_eq).
  pose proof (worker_begin_eq i s1 task _ Hw1 Hfun) as E2.
  match type of E2 with _ = Some ?x => set (s2 := x) in E2 end.
  assert (workers_ s2 !! i = Some (Executing task)) as Hw2
    by (apply list_lookup_insert_eq; simpl; by rewrite length_insert).
  destruct (worker_finish_eq i s2 task _ Hw2 Hfun) as (r & pk & Ecall & E3).
  destruct (packaged_task_call_eq (Task.info task) s2)
    as (r' & pk' & Ecall' & _ & Hother & Hat).
  simpl in Ecall. rewrite Ecall in Ecall'.
  assert (pk' = pk) as -> by exact (f_equal (λ x, packaged x.2) (eq_sym Ecall')).
  destruct (Hat _ Hpt) as (pt' & Hpt' & Hwork & _ & _ & Hready).
  destruct (Hready eq_refl) as [_ Hss]. simpl in Hwork, Hss.
  cbv zeta in E3. eexists.
  split; [exact E |]. split; [exact Hpt |].
  split.
  { unfold iteration. rewrite (run_cons _ _ _ _ E1).
    rewrite (run_cons (WorkerBegin i) _ _ _ E2).
    rewrite (run_cons (WorkerFinish i) _ _ _ E3). reflexivity. }
  subst s2 s1. unfold set_worker in *. state_fields.
  split; [reflexivity |].
  split; [apply list_lookup_insert_eq; by rewrite !length_insert |].
  split; [done |]. split; [done |].
  split; [| exact Hother].
  rewrite Hpt'. destruct pt'. simpl in *. congruence.
Qed.

Lemma iterations_S (n i : nat) : iterations (S n) i = iteration i ++ iterations n i.
Proof. reflexivity. Qed.


(** Both tasks submitted as "job" run; a status query shows one record, the
    second task's. *)
Example resubmitted_job_scenario :
  (s ← run (Submit "job" NORMAL (returns 1) :: Submit "job" HIGH (returns 2)
            :: iterations 2 0) (pool 1);
   Some (future_of 0 s, future_of 1 s, ThreadPool.getTaskInfos s))
  = Some (Some (ready_value 1), Some (ready_value 2),
          [TaskInfo.mk "job" HIGH COMPLETED 0 0 0 ""]).
Proof. vm_compute. reflexivity. Qed.

(** ** No record ever reads FAILED *)

Lemma packaged_task_call_not_ready (task : nat) (s : State) (w : outcome) :
  packaged s !! task = Some (PackagedTask.mk w not_ready) →
  ThreadPool.packaged_task_call task s
  = (Ok (), set_packaged (<[task := PackagedTask.mk w (promised w)]> (packaged s)) s).
Proof. intros H. unfold ThreadPool.packaged_task_call. by rewrite H. Qed.

Lemma cancel_loop_Forall (P : TaskInfo.t → Prop) (n : nat) (s : State) :
  (∀ x, P x → P (TaskInfo.with_status CANCELLED x)) →
  Forall P (infos s) → Forall P (infos (ThreadPool.cancel_loop n s)).
Proof.
  intros HP. revert s. induction n as [|n IH]; intros s Hs; simpl; [done |].
  destruct (PriorityQueue.empty (tasks_ s)); [done |].
  destruct (PriorityQueue.top (tasks_ s)) as [task|]; [| done].
  apply IH. unfold modify_info. state_fields. apply Forall_alter; [done |].
  intros x _. apply HP.
Qed.

(** One step: no record is assigned FAILED and [failed_tasks] is not
    incremented.  In a finishing step the packaged task is not ready yet, so
    the call returns normally and both guarded blocks run to their end. *)
Lemma exec_never_FAILED (a : Action) (s s' : State) :
  wf s → exec a s = Some s' →
  Forall (λ info, TaskInfo.status info ≠ FAILED) (infos s) →
  ThreadPoolStats.failed_tasks (stats_ s) = 0 →
  Forall (λ info, TaskInfo.status info ≠ FAILED) (infos s')
  ∧ ThreadPoolStats.failed_tasks (stats_ s') = 0.
Proof.
  intros Hwf He Hinfos Hfailed. destruct a; simpl in He.
  - by injection He as <-.
  - injection He as <-. unfold ThreadPool.submit.
    destruct (stop_ s) eqn:Hstop; [done |]. state_fields. rewrite Hstop. simpl.
    split; [| done]. apply Forall_app_2; [done |]. by apply Forall_singleton.
  - injection He as <-. unfold ThreadPool.cancelTask.
    destruct (task_infos_ s !! task_id) as [p|]; [| done].
    destruct (infos s !! p) as [ti|]; [| done].
    destruct (decide (TaskInfo.status ti = PENDING)); [| done]. simpl.
    split; [| done]. by apply Forall_alter.
  - injection He as <-. unfold ThreadPool.cancelPendingTasks. state_fields. split.
    + by apply (cancel_loop_Forall (λ info, TaskInfo.status info ≠ FAILED)).
    + by destruct (cancel_loop_frame (length (tasks_ s)) s) as (inf & q & -> & _).
  - injection He as <-. unfold ThreadPool.resize.
    destruct (decide (new_size = length (workers_ s))); [done |].
    by destruct (decide (length (workers_ s) < new_size)%nat).
  - by injection He as <-.
  - unfold ThreadPool.join_and_clear in He.
    destruct (ThreadPool.all_exited (workers_ s)); [| discriminate]. by injection He as <-.
  - by injection He as <-.
  - unfold ThreadPool.join_and_clear in He.
    destruct (ThreadPool.all_exited (workers_ s)); [| discriminate]. by injection He as <-.
  - by apply worker_take_cases in He as [_ [[_ ->] | (_ & task & rest & _ & ->)]].
  - apply worker_begin_cases in He as (task & Hw & [(c & Hf & ->) | (Hf & ->)]); [| done].
    state_fields. split; [| done]. by repeat apply Forall_alter.
  - apply worker_finish_cases in He
      as (task & c & r & pk & Hw & Hf & Ecall & _ & _ & ->).
    assert (task ∈ live s) as Hlive.
    { apply elem_of_app. right. eapply elem_of_held; [done |]. apply list_elem_of_here. }
    destruct (wf_closure s Hwf task Hlive) as (Hfun & [w Hpt] & _).
    rewrite Hf in Hfun. injection Hfun as ->.
    simpl in Ecall. rewrite (packaged_task_call_not_ready _ _ _ Hpt) in Ecall.
    assert (r = Ok ()) as -> by exact (f_equal fst (eq_sym Ecall)).
    state_fields. cbn [Closure.task_info].
    assert (Forall (λ info, TaskInfo.status info ≠ FAILED)
              (alter (λ x, TaskInfo.with_end_time (clock s) (TaskInfo.with_status COMPLETED x))
                 (Task.info task)
                 (alter (λ x, TaskInfo.with_end_time (clock s) (assignments (Ok ()) x))
                    (Task.info task) (infos s)))) as Hall
      by (by repeat apply Forall_alter).
    split; [exact Hall |].
    match goal with
    | |- context [match ?l !! ?p with _ => _ end] => destruct (l !! p) as [x|] eqn:Ex
    end; [| done].
    rewrite list_lookup_alter_eq in Ex.
    destruct (alter _ (Task.info task) (infos s) !! Task.info task) as [y|];
      [| discriminate].
    injection Ex as <-. exact Hfailed.
Qed.

(** In no state of a pool does a record read FAILED, and [failed_tasks]
    stays at zero: whatever the callables do, their tasks end COMPLETED. *)
Lemma reachable_never_FAILED (s : State) :
  reachable s →
  (∀ p, status_of p s ≠ Some FAILED)
  ∧ ThreadPoolStats.failed_tasks (ThreadPool.getStats s) = 0.
Proof.
  intros (n & c0 & s0 & l & [= <-] & Hrun).
  assert (wf s ∧ Forall (λ info, TaskInfo.status info ≠ FAILED) (infos s)
          ∧ ThreadPoolStats.failed_tasks (stats_ s) = 0) as (_ & Hall & Hfailed).
  { pose proof (construct_wf n c0) as Hwf.
    assert (Forall (λ info, TaskInfo.status info ≠ FAILED)
              (infos (ThreadPool.construct n c0))) as Hall by constructor.
    assert (ThreadPoolStats.failed_tasks (stats_ (ThreadPool.construct n c0)) = 0)
      as Hfailed by reflexivity.
    revert Hrun Hwf Hall Hfailed. generalize (ThreadPool.construct n c0).
    induction l as [|a l IH]; intros s1; simpl; [by intros [= <-] |].
    destruct (exec a s1) as [s2|] eqn:He; [| discriminate].
    intros Hrun Hwf Hall Hfailed.
    destruct (exec_never_FAILED a s1 s2 Hwf He Hall Hfailed) as [Hall2 Hfailed2].
    apply (IH s2 Hrun); [by eapply exec_wf | done | done]. }
  split; [| exact Hfailed].
  intros p. unfold status_of. destruct (infos s !! p) as [ti|] eqn:E; [| done].
  simpl. intros [= Hst]. rewrite Forall_forall in Hall.
  apply (Hall ti); [by eapply list_elem_of_lookup_2 | done].
Qed.

(** ** Invariants of a running pool

    [reachable_inv] is induction over the runs of a pool; the lemmas after
    it establish [tracked] and [drained] in every reachable state. *)

Lemma reachable_inv (P : State → Prop) :
  (∀ n c, P (ThreadPool.construct n c)) →
  (∀ a s s', wf s → P s → exec a s = Some s' → P s') →
  ∀ s, reachable s → P s.
Proof.
  intros H0 Hstep s (n & c0 & s0 & l & [= <-] & Hrun).
  pose proof (construct_wf n c0) as Hwf. pose proof (H0 n c0) as HP.
  revert Hrun Hwf HP. generalize (ThreadPool.construct n c0).
  induction l as [|a l IH]; intros s1; simpl; [by intros [= <-] |].
  destruct (exec a s1) as [s2|] eqn:He; [| discriminate].
  intros Hrun Hwf HP. apply (IH s2 Hrun); [by eapply exec_wf | by eapply Hstep].
Qed.

Lemma set_tasks_same (s : State) : set_tasks (tasks_ s) s = s.
Proof. by destruct s. Qed.

Lemma set_infos_same (s : State) : set_infos (infos s) s = s.
Proof. by destruct s. Qed.

(** The loop of [cancelPendingTasks], run for at least as many iterations
    as the queue is long: the queue is empty, the records the queued tasks
    point to read CANCELLED, and nothing else has changed. *)
Lemma cancel_loop_spec (n : nat) (s : State) :
  (length (tasks_ s) ≤ n)%nat →
  ∃ inf,
    ThreadPool.cancel_loop n s = set_infos inf (set_tasks [] s)
    ∧ length inf = length (infos s)
    ∧ (∀ p, p ∈ Task.info <$> tasks_ s →
         inf !! p = TaskInfo.with_status CANCELLED <$> infos s !! p)
    ∧ (∀ p, p ∉ Task.info <$> tasks_ s → inf !! p = infos s !! p).
Proof.
  revert s. induction n as [|n IH]; intros s Hn.
  - destruct (tasks_ s) eqn:Eq; [| simpl in Hn; lia].
    exists (infos s). simpl. split.
    { rewrite <- Eq, set_tasks_same. by rewrite set_infos_same. }
    split; [done |]. split; [| done]. intros p Hp. simpl in Hp. by apply elem_of_nil in Hp.
  - simpl. destruct (PriorityQueue.extract (tasks_ s)) as [[task rest]|] eqn:Ex.
    + destruct (top_pop_extract _ _ _ Ex) as (-> & -> & ->).
      pose proof (extract_Permutation _ _ _ Ex) as Hperm.
      destruct (IH (modify_info (Task.info task) (TaskInfo.with_status CANCELLED)
                      (set_tasks rest s))) as (inf & -> & Hlen & Hin & Hout).
      { unfold modify_info. state_fields.
        apply Permutation_length in Hperm. simpl in Hperm. lia. }
      unfold modify_info in *. revert Hlen Hin Hout. state_fields. intros Hlen Hin Hout.
      exists inf. split; [done |]. split; [by rewrite Hlen, length_alter |].
      split.
      * intros p Hp. destruct (decide (p ∈ Task.info <$> rest)) as [Hr|Hr].
        -- rewrite (Hin p Hr). destruct (decide (p = Task.info task)) as [->|Hne].
           ++ rewrite list_lookup_alter_eq. by destruct (infos s !! Task.info task).
           ++ by rewrite list_lookup_alter_ne.
        -- rewrite (Hout p Hr). rewrite Hperm in Hp. simpl in Hp.
           apply elem_of_cons in Hp as [-> | Hp]; [| done].
           by rewrite list_lookup_alter_eq.
      * intros p Hp. rewrite Hperm in Hp. simpl in Hp.
        apply not_elem_of_cons in Hp as [Hne Hp].
        rewrite (Hout p Hp). by rewrite list_lookup_alter_ne.
    + apply extract_None in Ex. rewrite Ex. simpl.
      exists (infos s). split.
      { rewrite <- Ex, set_tasks_same. by rewrite set_infos_same. }
      split; [done |]. split; [| done]. intros p Hp. by apply elem_of_nil in Hp.
Qed.

Lemma cancelPendingTasks_spec (s : State) :
  ∃ inf,
    ThreadPool.cancelPendingTasks s = set_infos inf (set_tasks [] s)
    ∧ length inf = length (infos s)
    ∧ (∀ p, p ∈ Task.info <$> tasks_ s →
         inf !! p = TaskInfo.with_status CANCELLED <$> infos s !! p)
    ∧ (∀ p, p ∉ Task.info <$> tasks_ s → inf !! p = infos s !! p).
Proof.
  destruct (cancel_loop_spec (length (tasks_ s)) s) as (inf & E & H); [done |].
  exists inf. split; [| exact H]. unfold ThreadPool.cancelPendingTasks. by rewrite E.
Qed.

Lemma size_t_succ (z : Z) : size_t (size_t z + 1) = size_t (z + 1).
Proof. unfold size_t. by rewrite Zplus_mod_idemp_l. Qed.

Lemma size_t_pred (z : Z) : size_t (size_t z - 1) = size_t (z - 1).
Proof. unfold size_t. by rewrite Zminus_mod_idemp_l. Qed.

Lemma held_app (ws ws' : list Worker) : held (ws ++ ws') = held ws ++ held ws'.
Proof. unfold held. apply bind_app. Qed.

Lemma held_all_exited (ws : list Worker) : ThreadPool.all_exited ws = true → held ws = [].
Proof.
  induction ws as [|w ws IH]; [done |]. simpl. intros [Hw Hws]%andb_prop.
  destruct w; try discriminate. simpl. by apply IH.
Qed.

Lemma held_length_insert (ws : list Worker) (i : nat) (w w' : Worker) :
  ws !! i = Some w →
  (length (held (<[i := w']> ws)) + length (task_of w)
   = length (held ws) + length (task_of w'))%nat.
Proof.
  intros Hw. destruct (held_insert ws i w w' Hw) as (rest & H1 & H2).
  rewrite (Permutation_length H1), (Permutation_length H2), !length_app. lia.
Qed.

Lemma resize_spec (new_size : nat) (s : State) :
  ∃ k st,
    ThreadPool.resize new_size s = set_stats st (set_workers (workers_ s ++ replicate k Waiting) s)
    ∧ k = (new_size - length (workers_ s))%nat
    ∧ counters st = counters (stats_ s).
Proof.
  unfold ThreadPool.resize. destruct (decide (new_size = length (workers_ s))) as [->|Hne].
  - exists 0%nat, (stats_ s). rewrite Nat.sub_diag. simpl. rewrite app_nil_r.
    split; [by destruct s | done].
  - destruct (decide (length (workers_ s) < new_size)%nat) as [Hlt|Hge].
    + eexists _, _. split; [reflexivity |]. done.
    + replace (new_size - length (workers_ s))%nat with 0%nat by lia.
      eexists 0%nat, _. simpl. rewrite app_nil_r. split; [| split; [done |]].
      * by destruct s.
      * done.
Qed.

(** [active_threads_] counts the workers that hold a task. *)
Lemma exec_active (a : Action) (s s' : State) :
  exec a s = Some s' →
  active_threads_ s = size_t (Z.of_nat (length (held (workers_ s)))) →
  active_threads_ s' = size_t (Z.of_nat (length (held (workers_ s')))).
Proof.
  intros He Hs. destruct a; simpl in He.
  - by injection He as <-.
  - injection He as <-. destruct (stop_ s) eqn:Hstop.
    + by rewrite submit_rejected_when_stopping.
    + destruct (submit_accepted task_id priority f s Hstop)
        as (s2 & -> & Hw & _ & _ & _ & _ & _ & _ & _ & _ & Ha). simpl. by rewrite Ha, Hw.
  - injection He as <-. unfold ThreadPool.cancelTask.
    destruct (task_infos_ s !! task_id) as [p|]; [| done].
    destruct (infos s !! p) as [ti|]; [| done].
    by destruct (decide (TaskInfo.status ti = PENDING)).
  - injection He as <-. by destruct (cancelPendingTasks_spec s) as (inf & -> & _).
  - injection He as <-. destruct (resize_spec new_size s) as (k & st & -> & _ & _).
    state_fields. by rewrite held_app, held_replicate_Waiting, app_nil_r.
  - by injection He as <-.
  - unfold ThreadPool.join_and_clear in He.
    destruct (ThreadPool.all_exited (workers_ s)) eqn:Hall; [| discriminate].
    injection He as <-. state_fields. by rewrite Hs, (held_all_exited _ Hall).
  - by injection He as <-.
  - unfold ThreadPool.join_and_clear in He.
    destruct (ThreadPool.all_exited (workers_ s)) eqn:Hall; [| discriminate].
    injection He as <-. state_fields. by rewrite Hs, (held_all_exited _ Hall).
  - apply worker_take_cases in He as [Hw [[_ ->] | (_ & task & rest & _ & ->)]];
      unfold set_worker; state_fields.
    + pose proof (held_length_insert _ _ _ Exited Hw) as Hl. simpl in Hl.
      rewrite Hs. f_equal. lia.
    + pose proof (held_length_insert _ _ _ (Holding task) Hw) as Hl. simpl in Hl.
      rewrite Hs, size_t_succ. f_equal. lia.
  - apply worker_begin_cases in He as (task & Hw & [(c & Hf & ->) | (Hf & ->)]);
      unfold set_worker; state_fields.
    + pose proof (held_length_insert _ _ _ (Executing task) Hw) as Hl. simpl in Hl.
      rewrite Hs. f_equal. lia.
    + pose proof (held_length_insert _ _ _ Waiting Hw) as Hl. simpl in Hl.
      rewrite Hs, size_t_pred. f_equal. lia.
  - apply worker_finish_cases in He
      as (task & c & r & pk & Hw & Hf & Ecall & _ & _ & ->). state_fields.
    pose proof (held_length_insert _ _ _ Waiting Hw) as Hl. simpl in Hl.
    rewrite Hs, size_t_pred. f_equal. lia.
Qed.

Lemma held_length_le (ws : list Worker) : (length (held ws) ≤ length ws)%nat.
Proof.
  induction ws as [|w ws IH]; [done |]. unfold held in *.
  rewrite bind_cons, length_app. destruct w; cbn [task_of length]; lia.
Qed.

Lemma queued_info (s : State) (i : nat) (w : Worker) (task t : Task.t) :
  wf s → workers_ s !! i = Some w → task ∈ task_of w → t ∈ tasks_ s →
  Task.info t ≠ Task.info task.
Proof.
  intros Hwf Hw Htask Ht Heq. pose proof (wf_nodup s Hwf) as Hnd.
  unfold live in Hnd. rewrite fmap_app in Hnd. apply NoDup_app in Hnd as (_ & Hdis & _).
  apply (Hdis (Task.info t)); [by apply list_elem_of_fmap_2 |].
  rewrite Heq. apply list_elem_of_fmap_2. by eapply elem_of_held.
Qed.

Lemma other_worker_info (s : State) (i j : nat) (w w' : Worker) (task t : Task.t) :
  wf s → workers_ s !! i = Some w → task ∈ task_of w →
  j ≠ i → workers_ s !! j = Some w' → t ∈ task_of w' →
  Task.info t ≠ Task.info task.
Proof.
  intros Hwf Hw Htask Hji Hw' Ht Heq. pose proof (wf_nodup s Hwf) as Hnd.
  unfold live in Hnd. rewrite fmap_app in Hnd. apply NoDup_app in Hnd as (_ & _ & Hnd).
  destruct (held_insert (workers_ s) i w Waiting Hw) as (rest & H1 & H2). simpl in H2.
  rewrite H1, fmap_app in Hnd. apply NoDup_app in Hnd as (_ & Hdis & _).
  apply (Hdis (Task.info task)); [by apply list_elem_of_fmap_2 |].
  rewrite <- Heq. apply list_elem_of_fmap_2. rewrite <- H2.
  eapply elem_of_held; [| exact Ht]. by rewrite list_lookup_insert_ne.
Qed.

Lemma status_alter (f : TaskInfo.t → TaskInfo.t) (q p : nat) (l : list TaskInfo.t) :
  TaskInfo.status <$> alter f q l !! p
  = if decide (p = q) then (λ x, TaskInfo.status (f x)) <$> l !! p
    else TaskInfo.status <$> l !! p.
Proof.
  destruct (decide (p = q)) as [->|Hne].
  - rewrite list_lookup_alter_eq. by destruct (l !! q).
  - by rewrite list_lookup_alter_ne.
Qed.

(** The members of [live] before and after worker [i] changes its place. *)
Lemma live_insert (s : State) (i : nat) (w w' : Worker) (q : PriorityQueue.t) (p : nat) :
  workers_ s !! i = Some w →
  ∃ rest : list Task.t,
    (p ∈ Task.info <$> tasks_ s ++ held (workers_ s)
     ↔ p ∈ Task.info <$> tasks_ s ∨ p ∈ Task.info <$> task_of w ∨ p ∈ Task.info <$> rest)
    ∧ (p ∈ Task.info <$> q ++ held (<[i := w']> (workers_ s))
       ↔ p ∈ Task.info <$> q ∨ p ∈ Task.info <$> task_of w' ∨ p ∈ Task.info <$> rest).
Proof.
  intros Hw. destruct (held_insert (workers_ s) i w w' Hw) as (rest & H1 & H2).
  exists rest. rewrite !fmap_app, !elem_of_app, H1, H2, !fmap_app, !elem_of_app. done.
Qed.

Lemma tracked_places (s : State) : tracked s → places s.
Proof. intros [? ? ? ? ?]. unfold places. eauto. Qed.

Lemma status_in_eq (allowed : list TaskStatus) (p : nat) (s s' : State) :
  status_of p s' = status_of p s → status_in allowed p s → status_in allowed p s'.
Proof. unfold status_in. by intros ->. Qed.

Lemma status_in_lt (allowed : list TaskStatus) (p : nat) (s : State) :
  status_in allowed p s → (p < length (infos s))%nat.
Proof.
  intros (st & Hst & _). unfold status_of in Hst.
  destruct (infos s !! p) eqn:E; [| discriminate]. by eapply lookup_lt_Some.
Qed.

Lemma places_same (s s' : State) :
  places s →
  infos s' = infos s → tasks_ s' = tasks_ s →
  (∀ i w, workers_ s' !! i = Some w →
     w = Waiting ∨ w = Exited ∨ workers_ s !! i = Some w) →
  (∀ p, p ∈ Task.info <$> held (workers_ s) → p ∈ Task.info <$> held (workers_ s')) →
  places s'.
Proof.
  intros (HQ & HH & HE & HS) Hi Ht Hw Hheld.
  assert (∀ p, status_of p s' = status_of p s) as Hst
    by (intros p; unfold status_of; by rewrite Hi).
  repeat apply conj.
  - intros task Htask. apply (status_in_eq _ _ s); [done |]. apply HQ. by rewrite <- Ht.
  - intros i task Hl. apply (status_in_eq _ _ s); [done |].
    destruct (Hw i _ Hl) as [? | [? | Hl']]; [done | done |]. by eapply HH.
  - intros i task Hl. rewrite Hst.
    destruct (Hw i _ Hl) as [? | [? | Hl']]; [done | done |]. by eapply HE.
  - intros p Hp Hlive. apply (status_in_eq _ _ s); [done |]. apply HS; [by rewrite <- Hi |].
    intros Hin. apply Hlive. unfold live in *. rewrite fmap_app, elem_of_app in Hin |- *.
    rewrite Ht. destruct Hin as [Hin | Hin]; [by left | right; by apply Hheld].
Qed.

Lemma exec_places (a : Action) (s s' : State) :
  wf s → places s → exec a s = Some s' → places s'.
Proof.
  intros Hwf Hpl He. pose proof Hpl as (HQ & HH & HE & HS).
  destruct a; simpl in He.
  - (* Tick *)
    injection He as <-. apply (places_same s); auto.
  - (* Submit *)
    injection He as <-. destruct (stop_ s) eqn:Hstop.
    { rewrite submit_rejected_when_stopping by done. done. }
    destruct (submit_accepted task_id priority f s Hstop)
      as (s2 & -> & Hw & Ht & _ & Hi & _). simpl.
    assert (∀ p, (p < length (infos s))%nat → status_of p s2 = status_of p s) as Hold.
    { intros p Hp. unfold status_of. by rewrite Hi, lookup_app_l. }
    assert (status_of (length (infos s)) s2 = Some PENDING) as Hnew.
    { unfold status_of. by rewrite Hi, lookup_app_r, Nat.sub_diag. }
    repeat apply conj.
    + intros task. rewrite Ht. intros [Hin | ->%list_elem_of_singleton]%elem_of_app.
      * pose proof (HQ task Hin) as H. apply (status_in_eq _ _ s); [| done].
        apply Hold. by eapply status_in_lt.
      * simpl. exists PENDING. split; [done |]. apply list_elem_of_here.
    + intros i task. rewrite Hw. intros Hl. pose proof (HH i task Hl) as H.
      apply (status_in_eq _ _ s); [| done]. apply Hold. by eapply status_in_lt.
    + intros i task. rewrite Hw. intros Hl. pose proof (HE i task Hl) as H.
      rewrite Hold; [done |]. unfold status_of in H.
      destruct (infos s !! Task.info task) eqn:E; [| discriminate]. by eapply lookup_lt_Some.
    + intros p. rewrite Hi, length_app. simpl. intros Hp Hlive.
      unfold live in Hlive. rewrite Ht, Hw, <- app_assoc, !fmap_app in Hlive.
      rewrite !not_elem_of_app in Hlive. destruct Hlive as (H1 & H2 & H3).
      simpl in H2. apply not_elem_of_cons in H2 as [Hne _].
      assert (p < length (infos s))%nat as Hlt by lia.
      apply (status_in_eq _ _ s); [by apply Hold |]. apply HS; [done |].
      unfold live. rewrite fmap_app, not_elem_of_app. done.
  - (* CancelTask *)
    injection He as <-. unfold ThreadPool.cancelTask.
    destruct (task_infos_ s !! task_id) as [q|]; [| done].
    destruct (infos s !! q) as [ti|] eqn:Eq; [| done].
    destruct (decide (TaskInfo.status ti = PENDING)) as [Hpend|]; [| done]. simpl.
    set (s2 := modify_info q (TaskInfo.with_status CANCELLED) s).
    assert (∀ p, status_of p s2
                 = if decide (p = q) then Some CANCELLED else status_of p s) as Hst.
    { intros p. unfold status_of, s2, modify_info. state_fields. rewrite status_alter.
      destruct (decide (p = q)) as [->|]; [by rewrite Eq | done]. }
    assert (∀ allowed p, CANCELLED ∈ allowed → status_in allowed p s →
                         status_in allowed p s2) as Hin.
    { intros allowed p Hc (st & H1 & H2). unfold status_in. rewrite Hst.
      destruct (decide (p = q)); [by exists CANCELLED | by exists st]. }
    repeat apply conj.
    + intros task Htask. apply Hin; [apply list_elem_of_further, list_elem_of_here | by apply HQ].
    + intros i task Hl. apply Hin; [apply list_elem_of_further, list_elem_of_here | by eapply HH].
    + intros i task Hl. rewrite Hst. pose proof (HE i task Hl) as H.
      destruct (decide (Task.info task = q)) as [E|]; [| done].
      unfold status_of in H. rewrite E, Eq in H. simpl in H. congruence.
    + intros p Hp Hlive. unfold s2, modify_info in Hp. revert Hp. state_fields.
      rewrite length_alter. intros Hp. apply Hin; [apply list_elem_of_further, list_elem_of_here |]. by apply HS.
  - (* CancelPendingTasks *)
    injection He as <-. destruct (cancelPendingTasks_spec s) as (inf & -> & Hlen & Hin & Hout).
    assert (∀ p, p ∈ Task.info <$> tasks_ s →
                 status_in [PENDING; CANCELLED] p s →
                 status_of p (set_infos inf (set_tasks [] s)) = Some CANCELLED) as Hc.
    { intros p Hp (st & Hst & _). unfold status_of in *. state_fields.
      rewrite (Hin p Hp). by destruct (infos s !! p). }
    assert (∀ p, p ∉ Task.info <$> tasks_ s →
                 status_of p (set_infos inf (set_tasks [] s)) = status_of p s) as Hs.
    { intros p Hp. unfold status_of. state_fields. by rewrite (Hout p Hp). }
    repeat apply conj; state_fields.
    + intros task Htask. by apply elem_of_nil in Htask.
    + intros i task Hl. pose proof (HH i task Hl) as H.
      destruct (decide (Task.info task ∈ Task.info <$> tasks_ s)) as [Hq|Hq].
      * exists CANCELLED. split; [by apply Hc | apply list_elem_of_further, list_elem_of_here].
      * by apply (status_in_eq _ _ s); [apply Hs |].
    + intros i task Hl. rewrite Hs; [by eapply HE |].
      intros (t & Heq & Ht)%list_elem_of_fmap.
      eapply (queued_info s i (Executing task) task t); try done. apply list_elem_of_here.
    + intros p Hp Hlive. unfold live in Hlive. revert Hlive. state_fields. simpl.
      intros Hlive. destruct (decide (p ∈ Task.info <$> tasks_ s)) as [Hq|Hq].
      * exists CANCELLED. split; [| apply list_elem_of_further, list_elem_of_here]. apply Hc; [done |].
        apply list_elem_of_fmap in Hq as (t & -> & Ht). by apply HQ.
      * apply (status_in_eq _ _ s); [by apply Hs |]. apply HS; [by rewrite <- Hlen |].
        unfold live. rewrite fmap_app, not_elem_of_app. done.
  - (* Resize *)
    injection He as <-. destruct (resize_spec new_size s) as (k & st & -> & _ & _).
    apply (places_same s); auto; state_fields.
    + intros i w [Hl | [_ Hl]]%lookup_app_Some; [auto |].
      apply lookup_replicate in Hl as [-> _]. auto.
    + intros p. by rewrite held_app, held_replicate_Waiting, app_nil_r.
  - injection He as <-. apply (places_same s); auto.
  - unfold ThreadPool.join_and_clear in He.
    destruct (ThreadPool.all_exited (workers_ s)) eqn:Hall; [| discriminate].
    injection He as <-. apply (places_same s); auto; state_fields.
    + intros i w Hl. by rewrite lookup_nil in Hl.
    + intros p. by rewrite (held_all_exited _ Hall).
  - injection He as <-. apply (places_same s); auto.
  - unfold ThreadPool.join_and_clear in He.
    destruct (ThreadPool.all_exited (workers_ s)) eqn:Hall; [| discriminate].
    injection He as <-. apply (places_same s); auto; state_fields.
    + intros i w Hl. by rewrite lookup_nil in Hl.
    + intros p. by rewrite (held_all_exited _ Hall).
  - (* WorkerTake *)
    apply worker_take_cases in He as [Hw [[_ ->] | (_ & task & rest & Ex & ->)]].
    + apply (places_same s); auto; unfold set_worker; state_fields.
      * intros j w [(-> & <- & _) | [_ Hl]]%list_lookup_insert_Some; auto.
      * intros p. by rewrite (held_insert_same _ _ _ Exited Hw).
    + pose proof (extract_Permutation _ _ _ Ex) as Hperm.
      unfold set_worker. unfold places, status_in, status_of, live. state_fields.
      repeat apply conj.
      * intros t Ht. apply HQ. rewrite Hperm. by apply elem_of_cons; right.
      * intros j t [(-> & [= <-] & _) | [_ Hl]]%list_lookup_insert_Some.
        -- apply HQ. rewrite Hperm. apply list_elem_of_here.
        -- by eapply HH.
      * intros j t [(-> & [=] & _) | [_ Hl]]%list_lookup_insert_Some. by eapply HE.
      * intros p Hp Hlive. apply HS; [done |]. intros Hin. apply Hlive.
        destruct (live_insert s i Waiting (Holding task) rest p Hw) as (r & H1 & H2).
        unfold live in Hin. apply H1 in Hin. apply H2. cbn [task_of] in Hin |- *.
        rewrite Hperm, fmap_cons, elem_of_cons, fmap_nil, elem_of_nil in Hin.
        rewrite list_fmap_singleton, list_elem_of_singleton. tauto.
  - (* WorkerBegin *)
    apply worker_begin_cases in He as (task & Hw & [(c & Hf & ->) | (Hf & ->)]).
    2:{ assert (task ∈ live s) as Hlive.
        { apply elem_of_app. right. eapply elem_of_held; [done |]. apply list_elem_of_here. }
        destruct (wf_closure s Hwf task Hlive) as (Hfun & _). congruence. }
    destruct (held_closure s i (Holding task) task c Hwf Hw) as (Hc1 & _ & Hlt);
      [apply list_elem_of_here | done |]. rewrite Hc1.
    set (f := λ x, TaskInfo.with_start_time (clock s) (TaskInfo.with_status RUNNING x)).
    assert (∀ p, TaskInfo.status <$> alter f (Task.info task)
                   (alter f (Task.info task) (infos s)) !! p
                 = if decide (p = Task.info task) then Some RUNNING
                   else TaskInfo.status <$> infos s !! p) as Hst.
    { intros p. rewrite !status_alter. destruct (decide (p = Task.info task)) as [->|]; [| done].
      rewrite list_lookup_alter_eq. destruct (lookup_lt_is_Some_2 _ _ Hlt) as [x ->]. done. }
    unfold places, status_in, status_of, live. state_fields. repeat apply conj.
    + intros t Ht. setoid_rewrite Hst. rewrite decide_False; [by apply HQ |].
      eapply (queued_info s i); try done. apply list_elem_of_here.
    + intros j t [(-> & [=] & _) | [Hij Hl]]%list_lookup_insert_Some.
      setoid_rewrite Hst. rewrite decide_False; [by eapply HH |].
      eapply (other_worker_info s i j); try done; apply list_elem_of_here.
    + intros j t Hl. rewrite Hst.
      apply list_lookup_insert_Some in Hl as [(-> & [= <-] & _) | [Hij Hl]].
      * by rewrite decide_True.
      * destruct (decide _); [done | by eapply HE].
    + intros p. rewrite !length_alter. intros Hp Hlive.
      destruct (live_insert s i (Holding task) (Executing task) (tasks_ s) p Hw)
        as (r & H1 & H2).
      assert (p ∉ Task.info <$> live s) as Hl by (unfold live; tauto).
      setoid_rewrite Hst. rewrite decide_False; [by apply HS |].
      intros ->. apply Hlive, H2. right; left. apply list_elem_of_here.
  - (* WorkerFinish *)
    apply worker_finish_cases in He
      as (task & c & r & pk & Hw & Hf & Ecall & _ & _ & ->).
    destruct (held_closure s i (Executing task) task c Hwf Hw) as (Hc1 & _ & Hlt);
      [apply list_elem_of_here | done |]. rewrite Hc1.
    set (f := λ x, TaskInfo.with_end_time (clock s) (TaskInfo.with_status COMPLETED x)).
    set (g := λ x, TaskInfo.with_end_time (clock s) (assignments r x)).
    assert (∀ p, TaskInfo.status <$> alter f (Task.info task)
                   (alter g (Task.info task) (infos s)) !! p
                 = if decide (p = Task.info task) then Some COMPLETED
                   else TaskInfo.status <$> infos s !! p) as Hst.
    { intros p. rewrite !status_alter. destruct (decide (p = Task.info task)) as [->|]; [| done].
      rewrite list_lookup_alter_eq. destruct (lookup_lt_is_Some_2 _ _ Hlt) as [x ->]. done. }
    unfold places, status_in, status_of, live. state_fields. repeat apply conj.
    + intros t Ht. setoid_rewrite Hst. rewrite decide_False; [by apply HQ |].
      eapply (queued_info s i); try done. apply list_elem_of_here.
    + intros j t [(-> & [=] & _) | [Hij Hl]]%list_lookup_insert_Some.
      setoid_rewrite Hst. rewrite decide_False; [by eapply HH |].
      eapply (other_worker_info s i j); try done; apply list_elem_of_here.
    + intros j t [(-> & [=] & _) | [Hij Hl]]%list_lookup_insert_Some.
      rewrite Hst. rewrite decide_False; [by eapply HE |].
      eapply (other_worker_info s i j); try done; apply list_elem_of_here.
    + intros p. rewrite !length_alter. intros Hp Hlive. setoid_rewrite Hst.
      destruct (decide (p = Task.info task)) as [->|Hne].
      { exists COMPLETED. split; [done | apply list_elem_of_here]. }
      apply HS; [done |]. intros Hin. apply Hlive.
      destruct (live_insert s i (Executing task) Waiting (tasks_ s) p Hw) as (r' & H1 & H2).
      unfold live in Hin. apply H1 in Hin. apply H2. cbn [task_of] in Hin |- *.
      rewrite list_fmap_singleton, list_elem_of_singleton in Hin.
      rewrite fmap_nil, elem_of_nil. tauto.
Qed.

Lemma Exited_insert (ws : list Worker) (i : nat) (w : Worker) :
  w ≠ Exited → Exited ∈ <[i := w]> ws → Exited ∈ ws.
Proof.
  intros Hw (j & Hj)%list_elem_of_lookup_1.
  apply list_lookup_insert_Some in Hj as [(_ & ? & _) | [_ Hj]]; [done |].
  by eapply list_elem_of_lookup_2.
Qed.

Lemma exec_drained (a : Action) (s s' : State) :
  exec a s = Some s' → drained s → drained s'.
Proof.
  unfold drained. intros He Hs. destruct a; simpl in He.
  - by injection He as <-.
  - injection He as <-. destruct (stop_ s) eqn:Hstop.
    { rewrite submit_rejected_when_stopping by done. simpl. rewrite Hstop.
      intros H1 H2. by destruct (Hs H1 H2). }
    destruct (submit_accepted task_id priority f s Hstop)
      as (s2 & -> & Hw & _ & _ & _ & _ & _ & Hf & _). simpl.
    rewrite Hf, Hw. intros H1 H2. by destruct (Hs H1 H2).
  - injection He as <-. unfold ThreadPool.cancelTask.
    destruct (task_infos_ s !! task_id) as [q|]; [| done].
    destruct (infos s !! q) as [ti|] eqn:Eq; [| done].
    by destruct (decide (TaskInfo.status ti = PENDING)).
  - injection He as <-. destruct (cancelPendingTasks_spec s) as (inf & -> & _).
    state_fields. intros H1 H2. by destruct (Hs H1 H2).
  - injection He as <-. destruct (resize_spec new_size s) as (k & st & -> & _ & _).
    state_fields. intros H1 [H2 | H2]%elem_of_app; [by apply Hs |].
    by apply elem_of_replicate in H2 as [? _].
  - injection He as <-. unfold ThreadPool.shutdown_request. state_fields.
    intros H1 H2. by destruct (Hs H1 H2).
  - unfold ThreadPool.join_and_clear in He.
    destruct (ThreadPool.all_exited (workers_ s)) eqn:Hall; [| discriminate].
    injection He as <-. state_fields. intros _ H. by apply elem_of_nil in H.
  - injection He as <-. by unfold ThreadPool.forceShutdown_request.
  - unfold ThreadPool.join_and_clear in He.
    destruct (ThreadPool.all_exited (workers_ s)) eqn:Hall; [| discriminate].
    injection He as <-. state_fields. intros _ H. by apply elem_of_nil in H.
  - apply worker_take_cases in He as [Hw [[Hex ->] | (Hforce & task & rest & Ex & ->)]];
      unfold set_worker; state_fields.
    + intros Hforce _. rewrite Hforce, orb_false_r in Hex.
      apply andb_prop in Hex as [Hstop Hempty]. split; [done |].
      by destruct (tasks_ s).
    + intros _ H. apply Exited_insert in H; [| done].
      destruct (Hs Hforce H) as [_ Hnil]. rewrite Hnil in Ex. done.
  - apply worker_begin_cases in He as (task & Hw & [(c & Hf & ->) | (Hf & ->)]);
      unfold set_worker; state_fields.
    + intros H1 H2. apply Exited_insert in H2; [| done]. by apply Hs.
    + intros H1 H2. apply Exited_insert in H2; [| done]. by apply Hs.
  - apply worker_finish_cases in He
      as (task & c & r & pk & Hw & Hf & Ecall & _ & _ & ->). state_fields.
    intros H1 H2. apply Exited_insert in H2; [| done]. by apply Hs.
Qed.

Lemma construct_tracked (thread_count : nat) (clock0 : Z) :
  tracked (ThreadPool.construct thread_count clock0).
Proof.
  split; simpl.
  - by rewrite held_replicate_Waiting.
  - intros task H. by apply elem_of_nil in H.
  - intros i task H. by apply lookup_replicate in H as [? _].
  - intros i task H. by apply lookup_replicate in H as [? _].
  - intros p Hp. lia.
Qed.

Lemma exec_tracked (a : Action) (s s' : State) :
  wf s → tracked s → exec a s = Some s' → tracked s'.
Proof.
  intros Hwf Htr He. pose proof (tracked_places s Htr) as Hpl.
  destruct (exec_places a s s' Hwf Hpl He) as (HQ & HH & HE & HS).
  split; try done.
  eapply exec_active; [done |]. by destruct Htr.
Qed.

Lemma reachable_tracked (s : State) : reachable s → tracked s.
Proof.
  apply reachable_inv; [apply construct_tracked |].
  intros a s1 s2 Hwf Htr He. by eapply exec_tracked.
Qed.

Lemma reachable_drained (s : State) : reachable s → drained s.
Proof.
  apply reachable_inv.
  - intros n c _ H. simpl in H. by apply elem_of_replicate in H as [? _].
  - intros a s1 s2 _ Hd He. by eapply exec_drained.
Qed.

(** ** A task that ends no later than it started *)

Lemma size_t_nonneg (z : Z) : 0 ≤ size_t z.
Proof. unfold size_t. apply Z.mod_pos_bound. lia. Qed.

Lemma updateStats_completed_nonneg (info : TaskInfo.t) (st : ThreadPoolStats.t) :
  0 ≤ ThreadPoolStats.completed_tasks st →
  0 ≤ ThreadPoolStats.completed_tasks (ThreadPool.updateStats info st).
Proof.
  intros H. unfold ThreadPool.updateStats. simpl.
  destruct (decide (TaskInfo.status info = COMPLETED)); [apply size_t_nonneg | done].
Qed.

(** [completed_tasks] is never negative. *)
Lemma reachable_completed_nonneg (s : State) :
  reachable s → 0 ≤ ThreadPoolStats.completed_tasks (stats_ s).
Proof.
  apply (reachable_inv (λ s, 0 ≤ ThreadPoolStats.completed_tasks (stats_ s))); [done |].
  intros a s1 s2 _ H He.
  destruct (exec_counters a s1 s2 He) as [Hc _].
  unfold counters in Hc. injection Hc as Hc _ _. rewrite Hc.
  destruct (finished_by a s1) as [|x [|y l]] eqn:E.
  - done.
  - exact (updateStats_completed_nonneg x _ H).
  - exfalso. destruct a; try discriminate. simpl in E.
    destruct (workers_ s1 !! i) as [[| |t|]|]; try discriminate.
    destruct (ThreadPool.worker_finish i s1) as [s3|]; try discriminate.
    by destruct (infos s3 !! Task.info t).
Qed.

(** C8 (the code departs from it).  [updateStats] counts every finished
    task but recomputes the mean only under [info.end_time >
    info.start_time].  When a worker finishes a task whose end reading is
    not later than its start reading, the record is COMPLETED and counted,
    the total going from [n] to [n + 1], while [average_task_duration_ms]
    stays as it was.  Hence, if the mean times the count was the sum of the
    recorded durations before the step, it is so after the step only if the
    mean happened to equal the duration recorded for this task, which is
    zero or negative. *)
Theorem task_ending_no_later_than_it_started_is_counted_not_averaged (s s' : State)
    (i : nat) (task : Task.t) (info : TaskInfo.t) :
  reachable s →
  workers_ s !! i = Some (Executing task) →
  exec (WorkerFinish i) s = Some s' →
  infos s' !! Task.info task = Some info →
  TaskInfo.end_time info ≤ TaskInfo.start_time info →
  let st := ThreadPool.getStats s in
  let st' := ThreadPool.getStats s' in
  let n := ThreadPoolStats.completed_tasks st + ThreadPoolStats.failed_tasks st in
  n + 1 < 2 ^ 64 →
  TaskInfo.status info = COMPLETED
  ∧ ThreadPoolStats.completed_tasks st' + ThreadPoolStats.failed_tasks st' = n + 1
  ∧ ThreadPoolStats.average_task_duration_ms st' = ThreadPoolStats.average_task_duration_ms st
  ∧ ∀ sum : Z,
      (ThreadPoolStats.average_task_duration_ms st * inject_Z n == inject_Z sum)%Q →
      ((ThreadPoolStats.average_task_duration_ms st' * inject_Z (n + 1)
        == inject_Z (sum + recorded_duration info))%Q
       ↔ (ThreadPoolStats.average_task_duration_ms st
          == inject_Z (recorded_duration info))%Q).
Proof.
  intros Hr Hw He Hinfo Hend st st' n Hn.
  pose proof (reachable_completed_nonneg s Hr) as Hc0.
  destruct (reachable_never_FAILED s Hr) as [_ Hf0].
  simpl in He. apply worker_finish_cases in He
    as (t & c & r & pk & Hw' & Hf & _ & _ & _ & E).
  rewrite Hw in Hw'. injection Hw' as <-. cbv zeta in E.
  subst s'. revert Hinfo. state_fields. intros Hinfo.
  subst st st' n. unfold ThreadPool.getStats in *. simpl in *. rewrite Hinfo.
  assert (TaskInfo.status info = COMPLETED) as Hst.
  { rewrite list_lookup_alter_eq in Hinfo.
    destruct (alter _ (Closure.task_info c) (infos s) !! Task.info task) as [x|];
      [| discriminate]. by injection Hinfo as <-. }
  assert ((TaskInfo.end_time info >? TaskInfo.start_time info) = false) as Hguard
    by (rewrite Z.gtb_ltb; apply Z.ltb_ge; lia).
  unfold ThreadPool.updateStats. simpl. rewrite Hguard.
  destruct (decide (TaskInfo.status info = COMPLETED)) as [_ | Hne]; [| done].
  rewrite Hf0 in *. rewrite size_t_small by lia.
  split; [done |]. split; [lia |]. split; [done |].
  intros sum Hsum.
  set (avg := ThreadPoolStats.average_task_duration_ms (stats_ s)) in *.
  set (k := ThreadPoolStats.completed_tasks (stats_ s)) in *.
  assert (avg * inject_Z (k + 0 + 1) == avg * inject_Z (k + 0) + avg)%Q as Estep
    by (rewrite (inject_Z_plus (k + 0) 1); ring).
  rewrite Estep, Hsum, inject_Z_plus. apply Qplus_inj_l.
Qed.

Lemma task_ending_no_later_than_it_started_is_counted_not_averaged_witness :
  let info := TaskInfo.mk "b" NORMAL COMPLETED 10000000 10000000 10000000 "" in
  let st := ThreadPool.getStats second_task_begun in
  let st' := ThreadPool.getStats (after zero_duration_actions 1) in
  let n := ThreadPoolStats.completed_tasks st + ThreadPoolStats.failed_tasks st in
  TaskInfo.status info = COMPLETED
  ∧ ThreadPoolStats.completed_tasks st' + ThreadPoolStats.failed_tasks st' = n + 1
  ∧ ThreadPoolStats.average_task_duration_ms st' = ThreadPoolStats.average_task_duration_ms st
  ∧ ∀ sum : Z,
      (ThreadPoolStats.average_task_duration_ms st * inject_Z n == inject_Z sum)%Q →
      ((ThreadPoolStats.average_task_duration_ms st' * inject_Z (n + 1)
        == inject_Z (sum + recorded_duration info))%Q
       ↔ (ThreadPoolStats.average_task_duration_ms st
          == inject_Z (recorded_duration info))%Q).
Proof.
  apply (task_ending_no_later_than_it_started_is_counted_not_averaged second_task_begun
           (after zero_duration_actions 1) 0
           (Task.mk "b" NORMAL (Some (Closure.mk 1 1)) 10000000 1)
           (TaskInfo.mk "b" NORMAL COMPLETED 10000000 10000000 10000000 "")).
  - exists 1%nat, 0, (pool 1), second_task_begun_actions.
    split; [reflexivity |]. vm_compute. reflexivity.
  - vm_compute. reflexivity.
  - vm_compute. reflexivity.
  - vm_compute. reflexivity.
  - simpl. lia.
  - vm_compute. reflexivity.
Defined.

(** ** Settled records *)

(** A settled record no task points to: no step changes it, and no task
    ever points to it again. *)
Lemma exec_settled (a : Action) (s s' : State) (p : nat) :
  wf s → exec a s = Some s' →
  p ∉ Task.info <$> live s → status_in [COMPLETED; CANCELLED] p s →
  (p ∉ Task.info <$> live s') ∧ infos s' !! p = infos s !! p.
Proof.
  intros Hwf He Hdead Hst. pose proof (status_in_lt _ _ _ Hst) as Hlt.
  assert (worker_action a = true →
          (p ∉ Task.info <$> live s') ∧ infos s' !! p = infos s !! p) as Hworker.
  { intros Ha. split.
    - intros Hin. apply Hdead. pose proof (worker_action_live a s s' Ha He) as Hsub.
      apply list_elem_of_fmap in Hin as (t & -> & Ht). apply list_elem_of_fmap_2.
      by eapply elem_of_submseteq.
    - apply (worker_action_infos a s s' p Hwf Ha He). intros Hin. apply Hdead.
      unfold live. rewrite fmap_app, elem_of_app. by right. }
  unfold live in Hdead. rewrite fmap_app, not_elem_of_app in Hdead.
  destruct Hdead as [Hq Hh].
  destruct a; try (by apply Hworker); simpl in He.
  - injection He as <-. destruct (stop_ s) eqn:Hstop.
    { rewrite submit_rejected_when_stopping by done. simpl. split; [| done].
      unfold live. rewrite fmap_app, not_elem_of_app. done. }
    destruct (submit_accepted task_id priority f s Hstop)
      as (s2 & -> & Hw & Ht & _ & Hi & _). simpl. split.
    + unfold live. rewrite Ht, Hw, !fmap_app, !not_elem_of_app. simpl.
      repeat split; [done | | done]. apply not_elem_of_cons. split; [lia |].
      apply not_elem_of_nil.
    + by rewrite Hi, lookup_app_l.
  - injection He as <-. unfold ThreadPool.cancelTask.
    destruct (task_infos_ s !! task_id) as [q|];
      [| split; [unfold live; rewrite fmap_app, not_elem_of_app |]; done].
    destruct (infos s !! q) as [ti|] eqn:Eq;
      [| split; [unfold live; rewrite fmap_app, not_elem_of_app |]; done].
    destruct (decide (TaskInfo.status ti = PENDING)) as [Hpend|];
      [| split; [unfold live; rewrite fmap_app, not_elem_of_app |]; done].
    simpl. split; [unfold live; rewrite fmap_app, not_elem_of_app; done |].
    rewrite list_lookup_alter_ne; [done |]. intros ->.
    destruct Hst as (st & H1 & H2). unfold status_of in H1. rewrite Eq in H1.
    injection H1 as <-. rewrite Hpend in H2.
    apply elem_of_cons in H2 as [? | H2]; [done |].
    apply elem_of_cons in H2 as [? | H2]; [done |]. by apply elem_of_nil in H2.
  - injection He as <-. destruct (cancelPendingTasks_spec s) as (inf & -> & Hlen & Hin & Hout).
    unfold live. state_fields. split; [done | by apply Hout].
  - injection He as <-. destruct (resize_spec new_size s) as (k & st & -> & _ & _).
    unfold live. state_fields. rewrite held_app, held_replicate_Waiting, app_nil_r.
    rewrite fmap_app, not_elem_of_app. done.
  - injection He as <-. unfold live. simpl. rewrite fmap_app, not_elem_of_app. done.
  - unfold ThreadPool.join_and_clear in He.
    destruct (ThreadPool.all_exited (workers_ s)) eqn:Hall; [| discriminate].
    injection He as <-. unfold live. state_fields. rewrite app_nil_r. done.
  - injection He as <-. unfold live. simpl. rewrite fmap_app, not_elem_of_app. done.
  - unfold ThreadPool.join_and_clear in He.
    destruct (ThreadPool.all_exited (workers_ s)) eqn:Hall; [| discriminate].
    injection He as <-. unfold live. state_fields. rewrite app_nil_r. done.
Qed.

Lemma run_settled (l : list Action) (s s' : State) (p : nat) :
  wf s → run l s = Some s' →
  p ∉ Task.info <$> live s → status_in [COMPLETED; CANCELLED] p s →
  (p ∉ Task.info <$> live s') ∧ infos s' !! p = infos s !! p.
Proof.
  revert s. induction l as [|a l IH]; intros s Hwf Hrun Hdead Hst; simpl in Hrun.
  { by injection Hrun as <-. }
  destruct (exec a s) as [s1|] eqn:He; [| discriminate].
  destruct (exec_settled a s s1 p Hwf He Hdead Hst) as [Hdead1 Hi1].
  destruct (IH s1) as [Hdead' Hi']; try done.
  - by eapply exec_wf.
  - eapply status_in_eq; [| exact Hst]. unfold status_of. by rewrite Hi1.
  - split; [done | by rewrite Hi'].
Qed.

Lemma elem_of_held_inv (ws : list Worker) (t : Task.t) :
  t ∈ held ws →
  ∃ i, ws !! i = Some (Holding t) ∨ ws !! i = Some (Executing t).
Proof.
  unfold held. intros (w & Ht & Hw)%list_elem_of_bind.
  apply list_elem_of_lookup_1 in Hw as [i Hi]. exists i.
  destruct w; simpl in Ht; try (by apply elem_of_nil in Ht);
    apply list_elem_of_singleton in Ht as ->; auto.
Qed.

Lemma not_in_two (a b x : TaskStatus) : x ∈ [a; b] → x = a ∨ x = b.
Proof.
  intros H. apply elem_of_cons in H as [? | H]; [by left |].
  apply elem_of_cons in H as [? | H]; [by right |]. by apply elem_of_nil in H.
Qed.


(** ** [cancelPendingTasks] *)

Lemma cancelPendingTasks_effect (s : State) :
  wf s →
  let s' := ThreadPool.cancelPendingTasks s in
  tasks_ s' = []
  ∧ (∀ task, task ∈ tasks_ s →
       ∃ info, infos s !! Task.info task = Some info
         ∧ infos s' !! Task.info task = Some (TaskInfo.with_status CANCELLED info))
  ∧ (∀ p, p ∉ Task.info <$> tasks_ s → infos s' !! p = infos s !! p)
  ∧ workers_ s' = workers_ s ∧ task_infos_ s' = task_infos_ s
  ∧ stop_ s' = stop_ s ∧ force_stop_ s' = force_stop_ s
  ∧ stats_ s' = stats_ s ∧ active_threads_ s' = active_threads_ s.
Proof.
  intros Hwf. cbv zeta.
  destruct (cancelPendingTasks_spec s) as (inf & -> & Hlen & Hin & Hout).
  state_fields. split; [done |]. split; [| done].
  intros task Htask.
  destruct (wf_closure s Hwf task) as (_ & _ & Hlt); [apply elem_of_app; by left |].
  destruct (lookup_lt_is_Some_2 _ _ Hlt) as [x Hx]. exists x. split; [done |].
  rewrite Hin, Hx; [done |]. by apply list_elem_of_fmap_2.
Qed.

(** X1. [cancelPendingTasks] ([thread_pool.cpp], lines 137-149) on a pool in
    any reachable state empties the queue and sets the record of every task
    that was queued to CANCELLED, keeping the other fields of that record;
    every other record, the workers, the registry, both flags, the
    statistics and the counter of active threads are as before. *)
Theorem cancelPendingTasks_cancels_every_queued_task (s : State) :
  reachable s →
  let s' := ThreadPool.cancelPendingTasks s in
  ThreadPool.pendingTasks s' = 0%nat
  ∧ (∀ task, task ∈ tasks_ s →
       ∃ info, infos s !! Task.info task = Some info
         ∧ infos s' !! Task.info task = Some (TaskInfo.with_status CANCELLED info))
  ∧ (∀ p, p ∉ Task.info <$> tasks_ s → infos s' !! p = infos s !! p)
  ∧ workers_ s' = workers_ s ∧ task_infos_ s' = task_infos_ s
  ∧ stop_ s' = stop_ s ∧ force_stop_ s' = force_stop_ s
  ∧ stats_ s' = stats_ s ∧ active_threads_ s' = active_threads_ s.
Proof.
  intros Hr. cbv zeta.
  destruct (cancelPendingTasks_effect s (reachable_wf s Hr)) as (Ht & H).
  split; [| exact H]. unfold ThreadPool.pendingTasks. by rewrite Ht.
Qed.

Lemma cancelPendingTasks_cancels_every_queued_task_witness :
  let s' := ThreadPool.cancelPendingTasks one_running_two_pending in
  ThreadPool.pendingTasks s' = 0%nat
  ∧ (∀ task, task ∈ tasks_ one_running_two_pending →
       ∃ info, infos one_running_two_pending !! Task.info task = Some info
         ∧ infos s' !! Task.info task = Some (TaskInfo.with_status CANCELLED info))
  ∧ (∀ p, p ∉ Task.info <$> tasks_ one_running_two_pending →
       infos s' !! p = infos one_running_two_pending !! p)
  ∧ workers_ s' = workers_ one_running_two_pending
  ∧ task_infos_ s' = task_infos_ one_running_two_pending
  ∧ stop_ s' = stop_ one_running_two_pending
  ∧ force_stop_ s' = force_stop_ one_running_two_pending
  ∧ stats_ s' = stats_ one_running_two_pending
  ∧ active_threads_ s' = active_threads_ one_running_two_pending.
Proof.
  apply (cancelPendingTasks_cancels_every_queued_task one_running_two_pending).
  exists 1%nat, 0, (pool 1), one_running_two_pending_actions.
  split; [reflexivity |]. vm_compute. reflexivity.
Defined.

(** X2. A task that [cancelPendingTasks] removed from the queue is never
    run: whatever the client threads and the workers do afterwards, its
    record keeps reading CANCELLED, the queue never contains it again and no
    worker ever holds it.  (A task cancelled by [cancelTask] stays in the
    queue and is run; see C2.) *)
Theorem tasks_removed_by_cancelPendingTasks_never_run (s : State) (task : Task.t)
    (l : list Action) (s' : State) :
  reachable s →
  task ∈ tasks_ s →
  run l (ThreadPool.cancelPendingTasks s) = Some s' →
  status_of (Task.info task) s' = Some CANCELLED
  ∧ (∀ t, t ∈ tasks_ s' → Task.info t ≠ Task.info task)
  ∧ (∀ i w t, workers_ s' !! i = Some w → t ∈ task_of w → Task.info t ≠ Task.info task).
Proof.
  intros Hr Htask Hrun. pose proof (reachable_wf s Hr) as Hwf.
  set (s1 := ThreadPool.cancelPendingTasks s) in *.
  assert (wf s1) as Hwf1 by (by apply (exec_wf CancelPendingTasks s)).
  destruct (cancelPendingTasks_effect s Hwf) as (Ht1 & Hc & _ & Hw1 & _).
  fold s1 in Ht1, Hc, Hw1.
  destruct (Hc task Htask) as (x & Hx & Hx1).
  assert (Task.info task ∉ Task.info <$> live s1) as Hdead.
  { unfold live. rewrite Ht1, Hw1. simpl. intros (t & Heq & Ht)%list_elem_of_fmap.
    apply elem_of_held_inv in Ht as [i Hi].
    assert (∃ w, workers_ s !! i = Some w ∧ t ∈ task_of w) as (w & Hw & Hin).
    { destruct Hi as [Hi | Hi]; eexists; (split; [exact Hi | apply list_elem_of_here]). }
    by eapply (queued_info s i w t task). }
  assert (status_in [COMPLETED; CANCELLED] (Task.info task) s1) as Hst.
  { exists CANCELLED. unfold status_of. rewrite Hx1. split; [done |].
    apply list_elem_of_further, list_elem_of_here. }
  destruct (run_settled l s1 s' _ Hwf1 Hrun Hdead Hst) as [Hdead' Hi'].
  split; [unfold status_of; by rewrite Hi', Hx1 |].
  split.
  - intros t Ht Heq. apply Hdead'. rewrite <- Heq. apply list_elem_of_fmap_2.
    apply elem_of_app. by left.
  - intros i w t Hw Ht Heq. apply Hdead'. rewrite <- Heq. apply list_elem_of_fmap_2.
    apply elem_of_app. right. by eapply elem_of_held.
Qed.

Lemma tasks_removed_by_cancelPendingTasks_never_run_witness :
  let task := Task.mk "pending1" NORMAL (Some (Closure.mk 1 1)) 0 1 in
  let s' := after cancelled_pending_actions 1 in
  status_of (Task.info task) s' = Some CANCELLED
  ∧ (∀ t, t ∈ tasks_ s' → Task.info t ≠ Task.info task)
  ∧ (∀ i w t, workers_ s' !! i = Some w → t ∈ task_of w → Task.info t ≠ Task.info task).
Proof.
  apply (tasks_removed_by_cancelPendingTasks_never_run one_running_two_pending
           (Task.mk "pending1" NORMAL (Some (Closure.mk 1 1)) 0 1)
           [Tick 1000000; WorkerFinish 0]).
  - exists 1%nat, 0, (pool 1), one_running_two_pending_actions.
    split; [reflexivity |]. vm_compute. reflexivity.
  - vm_compute. apply list_elem_of_here.
  - vm_compute. reflexivity.
Defined.

(** ** The counter of the busy workers *)

(** X5. [activeThreads()] (lines 188-190) is the number of worker threads
    between the [fetch_add] of line 61 and the [fetch_sub] of line 89, that
    is, of the workers that hold a task; it never exceeds [size()].  Holds
    in every reachable state of a pool with fewer than 2^64 threads. *)
Theorem activeThreads_counts_the_busy_workers (s : State) :
  reachable s →
  Z.of_nat (ThreadPool.size s) < 2 ^ 64 →
  ThreadPool.activeThreads s = Z.of_nat (length (held (workers_ s)))
  ∧ 0 ≤ ThreadPool.activeThreads s ≤ Z.of_nat (ThreadPool.size s).
Proof.
  intros Hr Hsize. pose proof (tr_active s (reachable_tracked s Hr)) as Ha.
  pose proof (held_length_le (workers_ s)) as Hle. unfold ThreadPool.size in Hsize.
  unfold ThreadPool.activeThreads, ThreadPool.size. rewrite Ha, size_t_small; lia.
Qed.

Lemma activeThreads_counts_the_busy_workers_witness :
  ThreadPool.activeThreads B_pending = Z.of_nat (length (held (workers_ B_pending)))
  ∧ 0 ≤ ThreadPool.activeThreads B_pending ≤ Z.of_nat (ThreadPool.size B_pending).
Proof.
  apply (activeThreads_counts_the_busy_workers B_pending).
  - exists 1%nat, 0, (pool 1),
      [Submit "A" NORMAL (returns 0); WorkerTake 0; WorkerBegin 0;
       Tick 1000000; Submit "B" NORMAL (returns 10)].
    split; [reflexivity |]. vm_compute. reflexivity.
  - vm_compute. reflexivity.
Defined.

(** ** Waiting for the pool, and graceful shutdown *)

Lemma held_nil_lookup (ws : list Worker) (i : nat) (w : Worker) :
  held ws = [] → ws !! i = Some w → w = Waiting ∨ w = Exited.
Proof.
  intros Hnil Hw. destruct w as [|t|t|]; auto.
  - assert (t ∈ held ws) as H by (eapply elem_of_held; [done | apply list_elem_of_here]).
    rewrite Hnil in H. by apply elem_of_nil in H.
  - assert (t ∈ held ws) as H by (eapply elem_of_held; [done | apply list_elem_of_here]).
    rewrite Hnil in H. by apply elem_of_nil in H.
Qed.

(** With no task queued or held, every record is settled. *)
Lemma no_live_settled (s : State) (p : nat) (info : TaskInfo.t) :
  tracked s → tasks_ s = [] → held (workers_ s) = [] → infos s !! p = Some info →
  TaskInfo.status info = COMPLETED ∨ TaskInfo.status info = CANCELLED.
Proof.
  intros Htr Ht Hh Hp. destruct (tr_settled s Htr p) as (st & Hst & Hin).
  - by eapply lookup_lt_Some.
  - unfold live. rewrite Ht, Hh. apply not_elem_of_nil.
  - unfold status_of in Hst. rewrite Hp in Hst. injection Hst as <-.
    by apply not_in_two.
Qed.

Lemma idle_iff (s : State) :
  tracked s → Z.of_nat (length (workers_ s)) < 2 ^ 64 →
  ThreadPool.idle s = true ↔ tasks_ s = [] ∧ held (workers_ s) = [].
Proof.
  intros Htr Hsize. pose proof (held_length_le (workers_ s)) as Hle.
  unfold ThreadPool.idle. rewrite (tr_active s Htr), size_t_small by lia.
  rewrite andb_true_iff, Z.eqb_eq. split.
  - intros [Hq Ha]. split; [by destruct (tasks_ s) |].
    destruct (held (workers_ s)); [done | simpl in Ha; lia].
  - intros [-> ->]. done.
Qed.

(** X7. [waitForAll] (lines 123-128) returns only in a state in which
    nothing is queued, no worker holds a task, and every task record reads
    COMPLETED or CANCELLED.  (Pool with fewer than 2^64 threads.) *)
Theorem waitForAll_returns_only_when_every_task_is_settled (s : State) :
  reachable s →
  Z.of_nat (ThreadPool.size s) < 2 ^ 64 →
  ThreadPool.waitForAll s = Some () →
  ThreadPool.pendingTasks s = 0%nat
  ∧ (∀ i w, workers_ s !! i = Some w → w = Waiting ∨ w = Exited)
  ∧ (∀ p info, infos s !! p = Some info →
       TaskInfo.status info = COMPLETED ∨ TaskInfo.status info = CANCELLED).
Proof.
  intros Hr Hsize Hwait. pose proof (reachable_tracked s Hr) as Htr.
  unfold ThreadPool.waitForAll in Hwait.
  destruct (ThreadPool.idle s) eqn:Hidle; [| discriminate].
  apply (idle_iff s Htr Hsize) in Hidle as [Ht Hh].
  split; [unfold ThreadPool.pendingTasks; by rewrite Ht |].
  split; [intros i w; by apply held_nil_lookup |].
  intros p info. by apply no_live_settled.
Qed.

Lemma waitForAll_returns_only_when_every_task_is_settled_witness :
  ThreadPool.pendingTasks two_done = 0%nat
  ∧ (∀ i w, workers_ two_done !! i = Some w → w = Waiting ∨ w = Exited)
  ∧ (∀ p info, infos two_done !! p = Some info →
       TaskInfo.status info = COMPLETED ∨ TaskInfo.status info = CANCELLED).
Proof.
  apply (waitForAll_returns_only_when_every_task_is_settled two_done).
  - exists 1%nat, 0, (pool 1), scenario4. split; [reflexivity |]. vm_compute. reflexivity.
  - vm_compute. reflexivity.
  - vm_compute. reflexivity.
Defined.

(** X8. [waitFor] (lines 130-135) returns [true] only in a state in which
    nothing is queued, no worker holds a task and every record reads
    COMPLETED or CANCELLED; it returns [false] only after the timeout has
    expired, in a state in which a task is queued or some worker holds
    one.  (Pool with fewer than 2^64 threads.) *)
Theorem waitFor_reports_whether_the_pool_is_idle (s : State) (expired result : bool) :
  reachable s →
  Z.of_nat (ThreadPool.size s) < 2 ^ 64 →
  ThreadPool.waitFor expired s = Some result →
  if result
  then ThreadPool.pendingTasks s = 0%nat
       ∧ (∀ i w, workers_ s !! i = Some w → w = Waiting ∨ w = Exited)
       ∧ (∀ p info, infos s !! p = Some info →
            TaskInfo.status info = COMPLETED ∨ TaskInfo.status info = CANCELLED)
  else expired = true
       ∧ (ThreadPool.pendingTasks s ≠ 0%nat
          ∨ ∃ i task, workers_ s !! i = Some (Holding task)
                      ∨ workers_ s !! i = Some (Executing task)).
Proof.
  intros Hr Hsize Hwait. pose proof (reachable_tracked s Hr) as Htr.
  unfold ThreadPool.waitFor in Hwait.
  destruct (ThreadPool.idle s) eqn:Hidle.
  - injection Hwait as <-. apply (idle_iff s Htr Hsize) in Hidle as [Ht Hh].
    split; [unfold ThreadPool.pendingTasks; by rewrite Ht |].
    split; [intros i w; by apply held_nil_lookup |].
    intros p info. by apply no_live_settled.
  - destruct expired; [| discriminate]. injection Hwait as <-. split; [done |].
    destruct (tasks_ s) as [|t q] eqn:Ht.
    + right. destruct (held (workers_ s)) as [|t h] eqn:Hh.
      * assert (ThreadPool.idle s = true) as H by (by apply (idle_iff s Htr Hsize)).
        congruence.
      * assert (t ∈ held (workers_ s)) as Hin by (rewrite Hh; apply list_elem_of_here).
        apply elem_of_held_inv in Hin as [i Hi]. by exists i, t.
    + left. unfold ThreadPool.pendingTasks. by rewrite Ht.
Qed.

Lemma waitFor_reports_whether_the_pool_is_idle_witness :
  true = true
  ∧ (ThreadPool.pendingTasks B_pending ≠ 0%nat
     ∨ ∃ i task, workers_ B_pending !! i = Some (Holding task)
                 ∨ workers_ B_pending !! i = Some (Executing task)).
Proof.
  apply (waitFor_reports_whether_the_pool_is_idle B_pending true false).
  - exists 1%nat, 0, (pool 1),
      [Submit "A" NORMAL (returns 0); WorkerTake 0; WorkerBegin 0;
       Tick 1000000; Submit "B" NORMAL (returns 10)].
    split; [reflexivity |]. vm_compute. reflexivity.
  - vm_compute. reflexivity.
  - vm_compute. reflexivity.
Defined.

Lemma all_exited_Exited (ws : list Worker) :
  ws ≠ [] → ThreadPool.all_exited ws = true → Exited ∈ ws.
Proof.
  destruct ws as [|w ws]; [done |]. intros _ Hall.
  assert (w = Exited) as -> by (by apply (all_exited_lookup (w :: ws) 0 w)).
  apply list_elem_of_here.
Qed.

(** X9. Graceful shutdown drains the queue.  When the [join] loop of
    [shutdown] (lines 235-241) completes on a pool that has at least one
    worker thread and on which [forceShutdown] was never called, [stop_] is
    set, the queue is empty, no thread is left, [activeThreads()] is zero,
    every task record reads COMPLETED or CANCELLED, and every later [submit]
    throws "ThreadPool is shutting down". *)
Theorem shutdown_returns_with_every_task_settled (s2 s3 : State) :
  reachable s2 →
  force_stop_ s2 = false →
  ThreadPool.size s2 ≠ 0%nat →
  ThreadPool.join_and_clear s2 = Some s3 →
  stop_ s3 = true
  ∧ ThreadPool.size s3 = 0%nat
  ∧ ThreadPool.pendingTasks s3 = 0%nat
  ∧ ThreadPool.activeThreads s3 = 0
  ∧ (∀ p info, infos s3 !! p = Some info →
       TaskInfo.status info = COMPLETED ∨ TaskInfo.status info = CANCELLED)
  ∧ (∀ task_id priority f,
       ThreadPool.submit task_id priority f s3
       = (Throw (std_exception "ThreadPool is shutting down"), s3)).
Proof.
  intros Hr Hforce Hsize Hjoin. pose proof (reachable_tracked s2 Hr) as Htr.
  unfold ThreadPool.join_and_clear in Hjoin.
  destruct (ThreadPool.all_exited (workers_ s2)) eqn:Hall; [| discriminate].
  injection Hjoin as <-.
  destruct (reachable_drained s2 Hr Hforce) as [Hstop Ht].
  { apply all_exited_Exited; [| done]. unfold ThreadPool.size in Hsize.
    by destruct (workers_ s2). }
  pose proof (held_all_exited _ Hall) as Hh.
  unfold ThreadPool.size, ThreadPool.pendingTasks, ThreadPool.activeThreads. state_fields.
  split; [done |]. split; [done |]. split; [by rewrite Ht |].
  split; [by rewrite (tr_active s2 Htr), Hh |].
  split; [intros p info; by apply no_live_settled |].
  intros task_id priority f. by apply submit_rejected_when_stopping.
Qed.

Lemma shutdown_returns_with_every_task_settled_witness :
  let s3 := after (graceful_actions ++ [ShutdownJoin]) 1 in
  stop_ s3 = true
  ∧ ThreadPool.size s3 = 0%nat
  ∧ ThreadPool.pendingTasks s3 = 0%nat
  ∧ ThreadPool.activeThreads s3 = 0
  ∧ (∀ p info, infos s3 !! p = Some info →
       TaskInfo.status info = COMPLETED ∨ TaskInfo.status info = CANCELLED)
  ∧ (∀ task_id priority f,
       ThreadPool.submit task_id priority f s3
       = (Throw (std_exception "ThreadPool is shutting down"), s3)).
Proof.
  apply (shutdown_returns_with_every_task_settled (after graceful_actions 1)).
  - exists 1%nat, 0, (pool 1), graceful_actions.
    split; [reflexivity |]. vm_compute. reflexivity.
  - vm_compute. reflexivity.
  - vm_compute. discriminate.
  - vm_compute. reflexivity.
Defined.

(** A worker step touches neither flag; only the removal of the top task
    touches the queue. *)
Lemma worker_step_frame (a : Action) (s s' : State) :
  worker_action a = true → exec a s = Some s' →
  stop_ s' = stop_ s ∧ force_stop_ s' = force_stop_ s
  ∧ (match a with WorkerTake _ => True | _ => tasks_ s' = tasks_ s end).
Proof.
  intros Ha He. destruct a; try discriminate; simpl in He.
  - by injection He as <-.
  - by apply worker_take_cases in He as [_ [[_ ->] | (_ & task & rest & _ & ->)]].
  - by apply worker_begin_cases in He as (task & _ & [(c & _ & ->) | (_ & ->)]).
  - by apply worker_finish_cases in He as (task & c & r & pk & _ & _ & _ & _ & _ & ->).
Qed.

(** A worker that holds a task brings it to its end and is back at the
    wait. *)
Lemma finish_current (i : nat) (w : Worker) (s : State) :
  wf s → workers_ s !! i = Some w → w ≠ Exited →
  ∃ l s',
    forallb worker_action l = true ∧ run l s = Some s' ∧ wf s'
    ∧ workers_ s' = <[i := Waiting]> (workers_ s)
    ∧ stop_ s' = stop_ s ∧ force_stop_ s' = force_stop_ s ∧ tasks_ s' = tasks_ s.
Proof.
  intros Hwf Hw Hne.
  assert (∀ s1 task, wf s1 → workers_ s1 !! i = Some (Executing task) →
            ∃ s', run [WorkerFinish i] s1 = Some s' ∧ wf s'
                  ∧ workers_ s' = <[i := Waiting]> (workers_ s1)
                  ∧ stop_ s' = stop_ s1 ∧ force_stop_ s' = force_stop_ s1
                  ∧ tasks_ s' = tasks_ s1) as Hfinish.
  { intros s1 task Hwf1 Hw1.
    destruct (worker_finish_progress i s1 task Hwf1 Hw1) as (s2 & E2 & Hws2).
    destruct (worker_step_frame (WorkerFinish i) s1 s2 eq_refl E2) as (Hs & Hf & Ht).
    simpl in Ht. exists s2. rewrite (run_cons _ _ _ _ E2). simpl.
    split; [done |]. split; [by eapply exec_wf | done]. }
  destruct w as [|task|task|]; [| | | done].
  - exists [], s. split; [done |]. split; [done |]. split; [done |].
    split; [| done]. symmetry. by apply list_insert_id.
  - destruct (worker_begin_progress i s task Hwf Hw) as (s1 & E1 & Hws1).
    destruct (worker_step_frame (WorkerBegin i) s s1 eq_refl E1) as (Hs1 & Hf1 & Ht1).
    simpl in Ht1.
    destruct (Hfinish s1 task) as (s2 & E2 & Hwf2 & Hws2 & Hs2 & Hf2 & Ht2).
    { by eapply exec_wf. }
    { rewrite Hws1. apply list_lookup_insert_eq. by eapply lookup_lt_Some. }
    exists [WorkerBegin i; WorkerFinish i], s2.
    split; [done |]. split; [by rewrite (run_cons _ _ _ _ E1) |]. split; [done |].
    split; [by rewrite Hws2, Hws1, list_insert_insert_eq |].
    repeat split; congruence.
  - destruct (Hfinish s task Hwf Hw) as (s2 & E2 & Hwf2 & Hws2 & Hs2 & Hf2 & Ht2).
    by exists [WorkerFinish i], s2.
Qed.

(** A waiting worker runs the queued tasks one after the other until the
    queue is empty. *)
Lemma drain_queue (n i : nat) (s : State) :
  wf s → workers_ s !! i = Some Waiting → force_stop_ s = false →
  length (tasks_ s) = n →
  ∃ l s',
    forallb worker_action l = true ∧ run l s = Some s' ∧ wf s'
    ∧ workers_ s' = workers_ s
    ∧ stop_ s' = stop_ s ∧ force_stop_ s' = false ∧ tasks_ s' = [].
Proof.
  revert s. induction n as [|n IH]; intros s Hwf Hw Hforce Hlen.
  { exists [], s. split; [done |]. split; [done |]. split; [done |].
    split; [done |]. split; [done |]. split; [done |]. by destruct (tasks_ s). }
  destruct (extract_is_Some (tasks_ s)) as (task & rest & Ex).
  { by destruct (tasks_ s). }
  pose proof (worker_take_top i s task rest Hw Hforce Ex) as E1.
  set (s1 := set_worker i (Holding task)
               (set_active_threads (size_t (active_threads_ s + 1)) (set_tasks rest s)))
    in E1.
  assert (wf s1) as Hwf1 by (by apply (exec_wf (WorkerTake i) s)).
  assert (i < length (workers_ s))%nat as Hlt by (by eapply lookup_lt_Some).
  destruct (finish_current i (Holding task) s1 Hwf1) as
    (l2 & s2 & Hl2 & E2 & Hwf2 & Hws2 & Hs2 & Hf2 & Ht2); [| done |].
  { unfold s1, set_worker. state_fields. by apply list_lookup_insert_eq. }
  assert (workers_ s2 = workers_ s) as Hws.
  { rewrite Hws2. unfold s1, set_worker. state_fields.
    rewrite list_insert_insert_eq. by apply list_insert_id. }
  destruct (IH s2 Hwf2) as (l3 & s3 & Hl3 & E3 & Hwf3 & Hws3 & Hs3 & Hf3 & Ht3).
  { by rewrite Hws. }
  { by rewrite Hf2. }
  { rewrite Ht2. unfold s1, set_worker. state_fields.
    pose proof (Permutation_length (extract_Permutation _ _ _ Ex)) as Hp.
    simpl in Hp. lia. }
  exists (WorkerTake i :: l2 ++ l3), s3.
  split; [simpl; by rewrite forallb_app, Hl2, Hl3 |].
  split; [rewrite (run_cons (WorkerTake i) _ _ _ E1), run_app, E2; exact E3 |].
  split; [done |]. split; [by rewrite Hws3 |].
  split; [by rewrite Hs3, Hs2 |]. done.
Qed.

(** Once [stop_] is set, a worker can reach its exit: it finishes the task
    it holds, empties the queue, and leaves the loop. *)
Lemma retire_worker (i : nat) (w : Worker) (s : State) :
  wf s → stop_ s = true → workers_ s !! i = Some w →
  ∃ l s',
    forallb worker_action l = true ∧ run l s = Some s' ∧ wf s'
    ∧ workers_ s' = <[i := Exited]> (workers_ s) ∧ stop_ s' = true.
Proof.
  intros Hwf Hstop Hw.
  assert (i < length (workers_ s))%nat as Hlt by (by eapply lookup_lt_Some).
  assert (w = Exited ∨ w ≠ Exited) as [-> | Hne] by (destruct w; auto).
  { exists [], s. split; [done |]. split; [done |]. split; [done |].
    split; [| done]. symmetry. by apply list_insert_id. }
  destruct (finish_current i w s Hwf Hw Hne)
    as (l1 & s1 & Hl1 & E1 & Hwf1 & Hws1 & Hs1 & Hf1 & Ht1).
  assert (workers_ s1 !! i = Some Waiting) as Hw1.
  { rewrite Hws1. by apply list_lookup_insert_eq. }
  assert (∃ l2 s2, forallb worker_action l2 = true ∧ run l2 s1 = Some s2 ∧ wf s2
                   ∧ workers_ s2 = workers_ s1 ∧ stop_ s2 = true
                   ∧ ((stop_ s2 && PriorityQueue.empty (tasks_ s2)) || force_stop_ s2) = true)
    as (l2 & s2 & Hl2 & E2 & Hwf2 & Hws2 & Hs2 & Hexit).
  { destruct (force_stop_ s1) eqn:Hforce.
    - exists [], s1. split; [done |]. split; [done |]. split; [done |].
      split; [done |]. split; [congruence |]. by rewrite Hforce, orb_true_r.
    - destruct (drain_queue (length (tasks_ s1)) i s1 Hwf1 Hw1 Hforce eq_refl)
        as (l2 & s2 & Hl2 & E2 & Hwf2 & Hws2 & Hs2 & Hf2 & Ht2).
      exists l2, s2. split; [done |]. split; [done |]. split; [done |].
      split; [done |]. split; [congruence |].
      rewrite Ht2. simpl. rewrite Hs2, Hs1, Hstop. done. }
  assert (ThreadPool.worker_take i s2 = Some (set_worker i Exited s2)) as E3.
  { unfold ThreadPool.worker_take. rewrite Hws2, Hw1, Hexit, Hs2.
    by rewrite orb_true_r. }
  exists (l1 ++ l2 ++ [WorkerTake i]), (set_worker i Exited s2).
  split; [by rewrite !forallb_app, Hl1, Hl2 |].
  split; [rewrite run_app, E1; simpl; rewrite run_app, E2; simpl; by rewrite E3 |].
  split; [by apply (exec_wf (WorkerTake i) s2) |].
  unfold set_worker. state_fields.
  split; [by rewrite Hws2, Hws1, list_insert_insert_eq | done].
Qed.

Lemma retire_workers (ws : list Worker) (i : nat) (s : State) :
  wf s → stop_ s = true → drop i (workers_ s) = ws →
  ∃ l s',
    forallb worker_action l = true ∧ run l s = Some s'
    ∧ workers_ s' = take i (workers_ s) ++ replicate (length ws) Exited.
Proof.
  revert i s. induction ws as [|w ws IH]; intros i s Hwf Hstop Hdrop.
  - exists [], s. split; [done |]. split; [done |]. simpl. rewrite app_nil_r.
    symmetry. apply take_ge. by apply drop_nil_inv.
  - assert (workers_ s !! i = Some w) as Hw.
    { rewrite <- (Nat.add_0_r i), <- lookup_drop, Hdrop. done. }
    assert (i < length (workers_ s))%nat as Hlt by (by eapply lookup_lt_Some).
    destruct (retire_worker i w s Hwf Hstop Hw) as (l1 & s1 & Hl1 & E1 & Hwf1 & Hws1 & Hs1).
    destruct (IH (S i) s1 Hwf1 Hs1) as (l2 & s' & Hl2 & E' & Hws').
    { rewrite Hws1, drop_insert_lt by lia.
      rewrite (drop_S _ _ _ Hw) in Hdrop. by injection Hdrop. }
    exists (l1 ++ l2), s'. split; [by rewrite forallb_app, Hl1, Hl2 |].
    split; [by rewrite run_app, E1 |].
    rewrite Hws', Hws1.
    rewrite (take_S_r _ _ Exited) by (by apply list_lookup_insert_eq).
    rewrite take_insert_ge by lia. simpl. by rewrite <- app_assoc.
Qed.

(** X10. [shutdown] can return: from every reachable state, after
    [stop_] is set there is a sequence of worker steps (each worker finishes
    the task it holds, the queue is emptied, each worker leaves its loop)
    after which [join] completes and [workers_] is cleared; if the pool has
    a worker and was never force-stopped, the queue is then empty and every
    task record reads COMPLETED or CANCELLED. *)
Theorem shutdown_can_return (s0 : State) :
  reachable s0 →
  ∃ l s2 s3,
    forallb worker_action l = true
    ∧ run l (ThreadPool.shutdown_request s0) = Some s2
    ∧ ThreadPool.join_and_clear s2 = Some s3
    ∧ ThreadPool.size s3 = 0%nat
    ∧ (force_stop_ s0 = false → ThreadPool.size s0 ≠ 0%nat →
       ThreadPool.pendingTasks s3 = 0%nat
       ∧ ∀ p info, infos s3 !! p = Some info →
           TaskInfo.status info = COMPLETED ∨ TaskInfo.status info = CANCELLED).
Proof.
  intros Hr. pose proof (reachable_wf s0 Hr) as Hwf.
  assert (wf (ThreadPool.shutdown_request s0)) as Hwf1
    by (by apply (exec_wf ShutdownRequest s0)).
  destruct (retire_workers (workers_ s0) 0 _ Hwf1 eq_refl eq_refl)
    as (l & s2 & Hl & E & Hws).
  simpl in Hws.
  assert (ThreadPool.all_exited (workers_ s2) = true) as Hall
    by (rewrite Hws; apply all_exited_replicate).
  exists l, s2, (set_workers [] s2).
  split; [done |]. split; [done |].
  split; [unfold ThreadPool.join_and_clear; by rewrite Hall |].
  split; [done |].
  intros Hforce Hsize.
  assert (reachable s2) as Hr2.
  { destruct Hr as (n & c0 & s00 & l0 & Hc & Hrun).
    exists n, c0, s00, (l0 ++ ShutdownRequest :: l). split; [done |].
    rewrite run_app, Hrun. simpl. exact E. }
  pose proof (reachable_tracked s2 Hr2) as Htr.
  assert (force_stop_ s2 = false) as Hforce2.
  { clear -E Hl Hforce. revert E Hl.
    assert (force_stop_ (ThreadPool.shutdown_request s0) = false) as H by done.
    revert H. generalize (ThreadPool.shutdown_request s0).
    induction l as [|a l IH]; intros s1 H1 E Hl; simpl in E.
    - by injection E as <-.
    - destruct (exec a s1) as [s1'|] eqn:He; [| discriminate].
      simpl in Hl. apply andb_prop in Hl as [Ha Hl].
      destruct (worker_step_frame a s1 s1' Ha He) as (_ & Hf & _).
      apply (IH s1'); [congruence | done | done]. }
  destruct (reachable_drained s2 Hr2 Hforce2) as [_ Ht].
  { apply all_exited_Exited; [| done]. rewrite Hws. unfold ThreadPool.size in Hsize.
    by destruct (workers_ s0). }
  unfold ThreadPool.pendingTasks. state_fields. split; [by rewrite Ht |].
  intros p info. apply no_live_settled; [done | done |]. by apply held_all_exited.
Qed.

Lemma shutdown_can_return_witness :
  ∃ l s2 s3,
    forallb worker_action l = true
    ∧ run l (ThreadPool.shutdown_request one_running_two_pending) = Some s2
    ∧ ThreadPool.join_and_clear s2 = Some s3
    ∧ ThreadPool.size s3 = 0%nat
    ∧ (force_stop_ one_running_two_pending = false →
       ThreadPool.size one_running_two_pending ≠ 0%nat →
       ThreadPool.pendingTasks s3 = 0%nat
       ∧ ∀ p info, infos s3 !! p = Some info →
           TaskInfo.status info = COMPLETED ∨ TaskInfo.status info = CANCELLED).
Proof.
  apply (shutdown_can_return one_running_two_pending).
  exists 1%nat, 0, (pool 1), one_running_two_pending_actions.
  split; [reflexivity |]. vm_compute. reflexivity.
Defined.

(** ** What every run keeps *)

Lemma later_record_refl (x : TaskInfo.t) : later_record x x.
Proof. by repeat split. Qed.

Lemma later_record_trans (x y z : TaskInfo.t) :
  later_record x y → later_record y z → later_record x z.
Proof.
  intros (H1 & H2 & H3 & H4) (G1 & G2 & G3 & G4).
  repeat split; [congruence | congruence | congruence | auto].
Qed.

Lemma later_record_alter (f : TaskInfo.t → TaskInfo.t) (q p : nat) (l : list TaskInfo.t)
    (x y : TaskInfo.t) :
  (∀ z, later_record z (f z)) → l !! p = Some y → later_record x y →
  ∃ x', alter f q l !! p = Some x' ∧ later_record x x'.
Proof.
  intros Hf Hy Hxy. destruct (decide (p = q)) as [->|Hne].
  - exists (f y). rewrite list_lookup_alter_eq, Hy. split; [done |].
    by eapply later_record_trans.
  - exists y. by rewrite list_lookup_alter_ne.
Qed.

(** What one step can do to an existing record: it stays where it is, its
    id, priority and submission instant are kept, and it is not set back to
    PENDING. *)
Lemma exec_records (a : Action) (s s' : State) (p : nat) (x : TaskInfo.t) :
  exec a s = Some s' → infos s !! p = Some x →
  ∃ x', infos s' !! p = Some x' ∧ later_record x x'.
Proof.
  intros He Hx.
  assert (∃ x', infos s !! p = Some x' ∧ later_record x x') as Hsame
    by (exists x; split; [done | apply later_record_refl]).
  destruct a; simpl in He.
  - by injection He as <-.
  - injection He as <-. destruct (stop_ s) eqn:Hstop.
    { by rewrite submit_rejected_when_stopping. }
    destruct (submit_accepted task_id priority f s Hstop)
      as (s2 & -> & _ & _ & _ & Hi & _). simpl. exists x.
    rewrite Hi, lookup_app_l; [| by eapply lookup_lt_Some].
    split; [done | apply later_record_refl].
  - injection He as <-. unfold ThreadPool.cancelTask.
    destruct (task_infos_ s !! task_id) as [q|]; [| done].
    destruct (infos s !! q) as [ti|] eqn:Eq; [| done].
    destruct (decide (TaskInfo.status ti = PENDING)) as [Hpend|]; [| done]. simpl.
    apply (later_record_alter _ q p (infos s) x x); [| done | apply later_record_refl].
    intros z. by repeat split.
  - injection He as <-. destruct (cancelPendingTasks_spec s) as (inf & -> & Hlen & Hin & Hout).
    state_fields. destruct (decide (p ∈ Task.info <$> tasks_ s)) as [Hq|Hq].
    + exists (TaskInfo.with_status CANCELLED x). rewrite (Hin p Hq), Hx. by repeat split.
    + exists x. rewrite (Hout p Hq). split; [done | apply later_record_refl].
  - injection He as <-. by destruct (resize_spec new_size s) as (k & st & -> & _ & _).
  - by injection He as <-.
  - unfold ThreadPool.join_and_clear in He.
    destruct (ThreadPool.all_exited (workers_ s)); [| discriminate]. by injection He as <-.
  - by injection He as <-.
  - unfold ThreadPool.join_and_clear in He.
    destruct (ThreadPool.all_exited (workers_ s)); [| discriminate]. by injection He as <-.
  - by apply worker_take_cases in He as [_ [[_ ->] | (_ & task & rest & _ & ->)]].
  - apply worker_begin_cases in He as (task & _ & [(c & _ & ->) | (_ & ->)]); [| done].
    state_fields.
    destruct (later_record_alter
                (λ y, TaskInfo.with_start_time (clock s) (TaskInfo.with_status RUNNING y))
                (Task.info task) p (infos s) x x) as (x1 & Hx1 & H1);
      [intros z; by repeat split | done | apply later_record_refl |].
    apply (later_record_alter _ (Closure.task_info c) p _ x x1); [| done | done].
    intros z. by repeat split.
  - apply worker_finish_cases in He as (task & c & r & pk & _ & _ & _ & _ & _ & ->).
    state_fields.
    destruct (later_record_alter
                (λ y, TaskInfo.with_end_time (clock s) (assignments r y))
                (Closure.task_info c) p (infos s) x x) as (x1 & Hx1 & H1);
      [intros z; by destruct r as [[]|[what|]] | done | apply later_record_refl |].
    apply (later_record_alter _ (Task.info task) p _ x x1); [| done | done].
    intros z. by repeat split.
Qed.

Lemma run_records (l : list Action) (s s' : State) (p : nat) (x : TaskInfo.t) :
  run l s = Some s' → infos s !! p = Some x →
  ∃ x', infos s' !! p = Some x' ∧ later_record x x'.
Proof.
  revert s x. induction l as [|a l IH]; intros s x Hrun Hx; simpl in Hrun.
  { injection Hrun as <-. exists x. split; [done | apply later_record_refl]. }
  destruct (exec a s) as [s1|] eqn:He; [| discriminate].
  destruct (exec_records a s s1 p x He Hx) as (x1 & Hx1 & H1).
  destruct (IH s1 x1 Hrun Hx1) as (x' & Hx' & H').
  exists x'. split; [done |]. by eapply later_record_trans.
Qed.

(** No step removes an entry of the registry. *)
Lemma exec_registry_grows (a : Action) (s s' : State) (k : string) :
  exec a s = Some s' → is_Some (task_infos_ s !! k) → is_Some (task_infos_ s' !! k).
Proof.
  intros He Hk. destruct (resubmits k a) eqn:Ha.
  - destruct a; try discriminate. simpl in Ha. apply bool_decide_eq_true in Ha as ->.
    simpl in He. injection He as <-. destruct (stop_ s) eqn:Hstop.
    { by rewrite submit_rejected_when_stopping. }
    destruct (submit_accepted k priority f s Hstop) as (s2 & -> & _ & _ & Hr & _).
    simpl. rewrite Hr, lookup_insert_eq. done.
  - by rewrite (exec_registry k a s s' Ha He).
Qed.

(** X11. The registry never loses an id: along every run, an id present
    in [task_infos_] stays present.  If nothing is submitted under the id
    during the run, its entry points to the same record, which
    [getTaskInfos] still returns, with the same id, priority and submission
    instant; and if the record read something other than PENDING before the
    run, it does not read PENDING after it. *)
Theorem registry_entries_are_never_removed (l : list Action) (s s' : State) :
  run l s = Some s' →
  (∀ k, is_Some (task_infos_ s !! k) → is_Some (task_infos_ s' !! k))
  ∧ (∀ k p x,
       task_infos_ s !! k = Some p → infos s !! p = Some x →
       forallb (λ a, negb (resubmits k a)) l = true →
       task_infos_ s' !! k = Some p
       ∧ ∃ x', infos s' !! p = Some x'
           ∧ x' ∈ ThreadPool.getTaskInfos s'
           ∧ TaskInfo.id x' = TaskInfo.id x
           ∧ TaskInfo.priority x' = TaskInfo.priority x
           ∧ TaskInfo.submit_time x' = TaskInfo.submit_time x
           ∧ (TaskInfo.status x' = PENDING → TaskInfo.status x = PENDING)).
Proof.
  intros Hrun. split.
  - revert s Hrun. induction l as [|a l IH]; intros s; simpl; [by intros [= <-] |].
    destruct (exec a s) as [s1|] eqn:He; [| discriminate]. intros Hrun k Hk.
    apply (IH s1 Hrun). by eapply exec_registry_grows.
  - intros k p x Hk Hx Hl.
    assert (task_infos_ s' !! k = Some p) as Hk'
      by (by rewrite (run_registry k l s s' Hl Hrun)).
    split; [exact Hk' |].
    destruct (run_records l s s' p x Hrun Hx) as (x' & Hx' & Hlater).
    exists x'. split; [exact Hx' |].
    split; [apply elem_of_getTaskInfos; by exists k, p |]. exact Hlater.
Qed.

Lemma registry_entries_are_never_removed_witness :
  let l := CancelTask "B" :: B_cancelled_then_run in
  let s' := after (cancelled_B_actions ++ [WorkerBegin 0; WorkerFinish 0]) 1 in
  (∀ k, is_Some (task_infos_ B_pending !! k) → is_Some (task_infos_ s' !! k))
  ∧ (∀ k p x,
       task_infos_ B_pending !! k = Some p → infos B_pending !! p = Some x →
       forallb (λ a, negb (resubmits k a)) l = true →
       task_infos_ s' !! k = Some p
       ∧ ∃ x', infos s' !! p = Some x'
           ∧ x' ∈ ThreadPool.getTaskInfos s'
           ∧ TaskInfo.id x' = TaskInfo.id x
           ∧ TaskInfo.priority x' = TaskInfo.priority x
           ∧ TaskInfo.submit_time x' = TaskInfo.submit_time x
           ∧ (TaskInfo.status x' = PENDING → TaskInfo.status x = PENDING)).
Proof.
  apply (registry_entries_are_never_removed (CancelTask "B" :: B_cancelled_then_run)
           B_pending).
  vm_compute. reflexivity.
Defined.

(** X12. [resize] (lines 163-182) never removes a thread: afterwards
    [size()] is the larger of the requested and the previous size, the
    previous workers are where they were and the added ones wait; when the
    requested size differs from the previous one, the [thread_count]
    statistic is set to the resulting [size()].  In particular a request to
    shrink leaves the pool at its size.  Queue, records, registry, flags and
    the counter of active threads are untouched. *)
Theorem resize_never_removes_a_thread (new_size : nat) (s : State) :
  let s' := ThreadPool.resize new_size s in
  ThreadPool.size s' = Nat.max new_size (ThreadPool.size s)
  ∧ workers_ s' = workers_ s ++ replicate (new_size - ThreadPool.size s) Waiting
  ∧ (new_size ≠ ThreadPool.size s →
     ThreadPoolStats.thread_count (ThreadPool.getStats s') = Z.of_nat (ThreadPool.size s'))
  ∧ tasks_ s' = tasks_ s ∧ infos s' = infos s ∧ task_infos_ s' = task_infos_ s
  ∧ stop_ s' = stop_ s ∧ force_stop_ s' = force_stop_ s
  ∧ active_threads_ s' = active_threads_ s.
Proof.
  cbv zeta. unfold ThreadPool.resize, ThreadPool.size.
  destruct (decide (new_size = length (workers_ s))) as [->|Hne].
  - rewrite Nat.max_id, Nat.sub_diag. simpl. rewrite app_nil_r. by repeat split.
  - destruct (decide (length (workers_ s) < new_size)%nat) as [Hlt|Hge]; state_fields.
    + rewrite length_app, length_replicate. simpl.
      split; [lia |]. by repeat split.
    + replace (new_size - length (workers_ s))%nat with 0%nat by lia.
      simpl. rewrite app_nil_r. split; [lia |]. by repeat split.
Qed.

Lemma exec_flags (a : Action) (s s' : State) :
  exec a s = Some s' →
  (stop_ s = true → stop_ s' = true) ∧ (force_stop_ s = true → force_stop_ s' = true).
Proof.
  intros He.
  destruct (worker_action a) eqn:Ha.
  { destruct (worker_step_frame a s s' Ha He) as (-> & -> & _). done. }
  destruct a; try discriminate; simpl in He.
  - injection He as <-. destruct (stop_ s) eqn:Hstop.
    { by rewrite submit_rejected_when_stopping. }
    destruct (submit_accepted task_id priority f s Hstop)
      as (s2 & -> & _ & _ & _ & _ & _ & Hs & Hf & _). simpl. by rewrite Hf.
  - injection He as <-. unfold ThreadPool.cancelTask.
    destruct (task_infos_ s !! task_id) as [q|]; [| done].
    destruct (infos s !! q) as [ti|]; [| done].
    by destruct (decide (TaskInfo.status ti = PENDING)).
  - injection He as <-. by destruct (cancelPendingTasks_spec s) as (inf & -> & _).
  - injection He as <-. by destruct (resize_spec new_size s) as (k & st & -> & _ & _).
  - by injection He as <-.
  - unfold ThreadPool.join_and_clear in He.
    destruct (ThreadPool.all_exited (workers_ s)); [| discriminate]. by injection He as <-.
  - by injection He as <-.
  - unfold ThreadPool.join_and_clear in He.
    destruct (ThreadPool.all_exited (workers_ s)); [| discriminate]. by injection He as <-.
Qed.

(** X13. No operation clears [stop_] or [force_stop_]: along every run,
    a flag that is set stays set, so [isShuttingDown()] (lines 223-225),
    once true, is true for good. *)
Theorem stop_flags_are_never_cleared (l : list Action) (s s' : State) :
  run l s = Some s' →
  (stop_ s = true → stop_ s' = true)
  ∧ (force_stop_ s = true → force_stop_ s' = true)
  ∧ (ThreadPool.isShuttingDown s = true → ThreadPool.isShuttingDown s' = true).
Proof.
  intros Hrun.
  assert ((stop_ s = true → stop_ s' = true)
          ∧ (force_stop_ s = true → force_stop_ s' = true)) as [H1 H2].
  { revert s Hrun. induction l as [|a l IH]; intros s Hrun; simpl in Hrun.
    { by injection Hrun as <-. }
    destruct (exec a s) as [s1|] eqn:He; [| discriminate].
    destruct (exec_flags a s s1 He) as [F1 F2]. destruct (IH s1 Hrun) as [G1 G2]. auto. }
  split; [done |]. split; [done |]. unfold ThreadPool.isShuttingDown.
  intros [H | H]%orb_prop; [by rewrite H1 | rewrite H2 by done; apply orb_true_r].
Qed.

Lemma stop_flags_are_never_cleared_witness :
  (stop_ (ThreadPool.shutdown_request one_running_two_pending) = true →
   stop_ after_stop = true)
  ∧ (force_stop_ (ThreadPool.shutdown_request one_running_two_pending) = true →
     force_stop_ after_stop = true)
  ∧ (ThreadPool.isShuttingDown (ThreadPool.shutdown_request one_running_two_pending) = true →
     ThreadPool.isShuttingDown after_stop = true).
Proof.
  apply (stop_flags_are_never_cleared after_stop_actions).
  vm_compute. reflexivity.
Defined.

(** With [stop_] set, a step creates no record, leaves the registry alone
    and puts nothing into the queue. *)
Lemma exec_stopped (a : Action) (s s' : State) :
  stop_ s = true → exec a s = Some s' →
  stop_ s' = true ∧ task_infos_ s' = task_infos_ s
  ∧ length (infos s') = length (infos s) ∧ tasks_ s' ⊆+ tasks_ s.
Proof.
  intros Hstop He. split; [by apply (exec_flags a s s' He) |].
  destruct a; simpl in He.
  - by injection He as <-.
  - injection He as <-. by rewrite submit_rejected_when_stopping.
  - injection He as <-. unfold ThreadPool.cancelTask.
    destruct (task_infos_ s !! task_id) as [q|]; [| done].
    destruct (infos s !! q) as [ti|]; [| done].
    destruct (decide (TaskInfo.status ti = PENDING)); [| done]. simpl.
    by rewrite length_alter.
  - injection He as <-. destruct (cancelPendingTasks_spec s) as (inf & -> & Hlen & _).
    state_fields. split; [done |]. split; [done |]. apply submseteq_nil_l.
  - injection He as <-. by destruct (resize_spec new_size s) as (k & st & -> & _ & _).
  - by injection He as <-.
  - unfold ThreadPool.join_and_clear in He.
    destruct (ThreadPool.all_exited (workers_ s)); [| discriminate]. by injection He as <-.
  - by injection He as <-.
  - unfold ThreadPool.join_and_clear in He.
    destruct (ThreadPool.all_exited (workers_ s)); [| discriminate]. by injection He as <-.
  - apply worker_take_cases in He as [_ [[_ ->] | (_ & task & rest & Ex & ->)]]; [done |].
    state_fields. split; [done |]. split; [done |].
    rewrite (extract_Permutation _ _ _ Ex). by apply submseteq_cons.
  - apply worker_begin_cases in He as (task & _ & [(c & _ & ->) | (_ & ->)]); [| done].
    state_fields. by rewrite !length_alter.
  - apply worker_finish_cases in He as (task & c & r & pk & _ & _ & _ & _ & _ & ->).
    state_fields. by rewrite !length_alter.
Qed.

(** X14. Once [shutdown] has set [stop_], the pool takes no new work:
    along every later run no record is created, the registry is unchanged,
    the queue only loses tasks, and [submit] throws
    "ThreadPool is shutting down" in the state reached. *)
Theorem no_task_is_accepted_once_shutdown_was_requested (l : list Action) (s s' : State) :
  stop_ s = true →
  run l s = Some s' →
  task_infos_ s' = task_infos_ s
  ∧ length (infos s') = length (infos s)
  ∧ tasks_ s' ⊆+ tasks_ s
  ∧ (∀ task_id priority f,
       ThreadPool.submit task_id priority f s'
       = (Throw (std_exception "ThreadPool is shutting down"), s')).
Proof.
  intros Hstop Hrun.
  assert (stop_ s' = true ∧ task_infos_ s' = task_infos_ s
          ∧ length (infos s') = length (infos s) ∧ tasks_ s' ⊆+ tasks_ s)
    as (Hstop' & H1 & H2 & H3).
  { revert s Hstop Hrun. induction l as [|a l IH]; intros s Hstop Hrun; simpl in Hrun.
    { by injection Hrun as <-. }
    destruct (exec a s) as [s1|] eqn:He; [| discriminate].
    destruct (exec_stopped a s s1 Hstop He) as (F0 & F1 & F2 & F3).
    destruct (IH s1 F0 Hrun) as (G0 & G1 & G2 & G3).
    repeat split; [done | congruence | congruence | by etrans]. }
  repeat split; try done. intros. by apply submit_rejected_when_stopping.
Qed.

Lemma no_task_is_accepted_once_shutdown_was_requested_witness :
  let s := ThreadPool.shutdown_request one_running_two_pending in
  task_infos_ after_stop = task_infos_ s
  ∧ length (infos after_stop) = length (infos s)
  ∧ tasks_ after_stop ⊆+ tasks_ s
  ∧ (∀ task_id priority f,
       ThreadPool.submit task_id priority f after_stop
       = (Throw (std_exception "ThreadPool is shutting down"), after_stop)).
Proof.
  apply (no_task_is_accepted_once_shutdown_was_requested after_stop_actions).
  - reflexivity.
  - vm_compute. reflexivity.
Defined.

(** ** The registry and the ids *)

Lemma omap_registry (inf : list TaskInfo.t) (l : list (string * nat)) :
  (∀ k p, (k, p) ∈ l → ∃ x, inf !! p = Some x ∧ TaskInfo.id x = k) →
  TaskInfo.id <$> omap (λ pair, inf !! pair.2) l = l.*1.
Proof.
  induction l as [|[k p] l IH]; intros H; [done |].
  destruct (H k p) as (x & Hx & Hid); [apply list_elem_of_here |].
  simpl. rewrite Hx. simpl. rewrite Hid. f_equal. apply IH.
  intros k' p' Hin. apply H. by apply list_elem_of_further.
Qed.

(** X15. [getTaskInfos()] (lines 210-221) in a reachable state returns
    exactly one record per registered id: the ids of the returned records
    are pairwise distinct, there are as many records as registry entries,
    and a record is returned exactly when the registry entry of its id
    points to it. *)
Theorem getTaskInfos_lists_one_record_per_id (s : State) :
  reachable s →
  NoDup (TaskInfo.id <$> ThreadPool.getTaskInfos s)
  ∧ length (ThreadPool.getTaskInfos s) = size (task_infos_ s)
  ∧ (∀ info, info ∈ ThreadPool.getTaskInfos s
       ↔ ∃ p, task_infos_ s !! TaskInfo.id info = Some p ∧ infos s !! p = Some info).
Proof.
  intros Hr. pose proof (reachable_wf s Hr) as Hwf.
  assert (TaskInfo.id <$> ThreadPool.getTaskInfos s = (map_to_list (task_infos_ s)).*1) as E.
  { apply omap_registry. intros k p Hkp%elem_of_map_to_list.
    pose proof (wf_registry s Hwf k p Hkp) as Hid. rewrite list_lookup_fmap in Hid.
    destruct (infos s !! p) as [x|]; [| discriminate]. injection Hid as Hid. by exists x. }
  split; [rewrite E; apply NoDup_fst_map_to_list |].
  split.
  - rewrite <- (length_fmap TaskInfo.id), E, length_fmap. apply length_map_to_list.
  - intros info. rewrite elem_of_getTaskInfos. split.
    + intros (k & p & Hk & Hp). exists p. split; [| done].
      pose proof (wf_registry s Hwf k p Hk) as Hid.
      rewrite list_lookup_fmap, Hp in Hid. injection Hid as ->. done.
    + intros (p & Hk & Hp). by exists (TaskInfo.id info), p.
Qed.

Lemma getTaskInfos_lists_one_record_per_id_witness :
  NoDup (TaskInfo.id <$> ThreadPool.getTaskInfos job_again)
  ∧ length (ThreadPool.getTaskInfos job_again) = size (task_infos_ job_again)
  ∧ (∀ info, info ∈ ThreadPool.getTaskInfos job_again
       ↔ ∃ p, task_infos_ job_again !! TaskInfo.id info = Some p
              ∧ infos job_again !! p = Some info).
Proof.
  apply (getTaskInfos_lists_one_record_per_id job_again).
  exists 1%nat, 0, (pool 1), (Submit "job" NORMAL (returns 1) :: job_again_actions).
  split; [reflexivity |]. vm_compute. reflexivity.
Defined.

(** X16. [generateTaskId] (lines 93-102) maps different random numbers to
    different ids, so two submissions through [submit(priority, f)]
    ([thread_pool.h], lines 178-182) whose draws differ are both in the
    registry afterwards, each under its own id, and both are queued. *)
Theorem generated_task_ids_differ_for_different_draws (a b : N)
    (priority priority' : TaskPriority) (f f' : outcome) (s : State) :
  stop_ s = false →
  a ≠ b →
  let s1 := (ThreadPool.submit_priority a priority f s).2 in
  let s2 := (ThreadPool.submit_priority b priority' f' s1).2 in
  ThreadPool.generateTaskId a ≠ ThreadPool.generateTaskId b
  ∧ task_infos_ s2 !! ThreadPool.generateTaskId a = Some (length (infos s))
  ∧ task_infos_ s2 !! ThreadPool.generateTaskId b = Some (S (length (infos s)))
  ∧ ThreadPool.pendingTasks s2 = S (S (ThreadPool.pendingTasks s)).
Proof.
  intros Hstop Hab.
  assert (ThreadPool.generateTaskId a ≠ ThreadPool.generateTaskId b) as Hne.
  { unfold ThreadPool.generateTaskId. intros H.
    apply (inj (String.app "task_")) in H. by apply (inj pretty) in H. }
  cbv zeta. split; [done |]. unfold ThreadPool.submit_priority.
  destruct (submit_accepted (ThreadPool.generateTaskId a) priority f s Hstop)
    as (s1 & -> & _ & Ht1 & Hr1 & Hi1 & _ & Hs1 & _).
  cbn [snd].
  destruct (submit_accepted (ThreadPool.generateTaskId b) priority' f' s1 Hs1)
    as (s2 & -> & _ & Ht2 & Hr2 & Hi2 & _).
  cbn [snd]. unfold ThreadPool.pendingTasks, PriorityQueue.size.
  rewrite Hr2, Hr1, Ht2, Ht1, Hi1. split; [| split].
  - rewrite lookup_insert_ne by done. apply lookup_insert_eq.
  - rewrite lookup_insert_eq, length_app. f_equal. simpl. lia.
  - rewrite !length_app. simpl. lia.
Qed.

Lemma generated_task_ids_differ_for_different_draws_witness :
  let s1 := (ThreadPool.submit_priority 7 LOW (returns 1) (pool 1)).2 in
  let s2 := (ThreadPool.submit_priority 8 HIGH (returns 2) s1).2 in
  ThreadPool.generateTaskId 7 ≠ ThreadPool.generateTaskId 8
  ∧ task_infos_ s2 !! ThreadPool.generateTaskId 7 = Some (length (infos (pool 1)))
  ∧ task_infos_ s2 !! ThreadPool.generateTaskId 8 = Some (S (length (infos (pool 1))))
  ∧ ThreadPool.pendingTasks s2 = S (S (ThreadPool.pendingTasks (pool 1))).
Proof.
  apply (generated_task_ids_differ_for_different_draws 7 8 LOW HIGH (returns 1) (returns 2)
           (pool 1)).
  - reflexivity.
  - lia.
Defined.

(** X17. [cancelTask] (lines 151-161) returns [true] at most once per
    submission: after a call that returned [true], and whatever happens
    next short of a new submission under the same id, a further call with
    that id returns [false] and changes nothing. *)
Theorem cancelTask_succeeds_at_most_once (task_id : string) (s s1 s' : State)
    (l : list Action) :
  ThreadPool.cancelTask task_id s = (true, s1) →
  forallb (λ a, negb (resubmits task_id a)) l = true →
  run l s1 = Some s' →
  ThreadPool.cancelTask task_id s' = (false, s').
Proof.
  intros Hc Hl Hrun. unfold ThreadPool.cancelTask in Hc.
  destruct (task_infos_ s !! task_id) as [p|] eqn:Hp; [| by injection Hc].
  destruct (infos s !! p) as [ti|] eqn:Hti; [| by injection Hc].
  destruct (decide (TaskInfo.status ti = PENDING)) as [Hpend|]; [| by injection Hc].
  injection Hc as <-.
  pose proof (run_registry task_id l _ s' Hl Hrun) as Hreg.
  unfold modify_info in Hreg, Hrun. revert Hreg. state_fields. rewrite Hp. intros Hreg.
  destruct (run_records l _ s' p (TaskInfo.with_status CANCELLED ti) Hrun)
    as (x' & Hx' & _ & _ & _ & Hst).
  { state_fields. by rewrite list_lookup_alter_eq, Hti. }
  unfold ThreadPool.cancelTask. rewrite Hreg, Hx'.
  destruct (decide (TaskInfo.status x' = PENDING)) as [E|]; [| done].
  by apply Hst in E.
Qed.

Lemma cancelTask_succeeds_at_most_once_witness :
  ThreadPool.cancelTask "B" (after (cancelled_B_actions ++ [WorkerBegin 0; WorkerFinish 0]) 1)
  = (false, after (cancelled_B_actions ++ [WorkerBegin 0; WorkerFinish 0]) 1).
Proof.
  apply (cancelTask_succeeds_at_most_once "B" B_pending
           (ThreadPool.cancelTask "B" B_pending).2 _ B_cancelled_then_run).
  - vm_compute. reflexivity.
  - reflexivity.
  - vm_compute. reflexivity.
Defined.




(** ** The order of dispatch *)

Lemma taken_app (l1 l2 : list Action) (s : State) :
  taken (l1 ++ l2) s
  = taken l1 s ++ match run l1 s with Some s1 => taken l2 s1 | None => [] end.
Proof.
  revert s. induction l1 as [|a l1 IH]; intros s; simpl; [done |].
  destruct (exec a s) as [s1|]; [| done]. by rewrite IH, app_assoc.
Qed.

(** One loop iteration of a waiting worker takes the top task and nothing
    else. *)
Lemma taken_iteration (i : nat) (s : State) (task : Task.t) (rest : PriorityQueue.t) :
  workers_ s !! i = Some Waiting → force_stop_ s = false →
  PriorityQueue.extract (tasks_ s) = Some (task, rest) →
  taken (iteration i) s = [task].
Proof.
  intros Hw Hforce Ex. pose proof (worker_take_top i s task rest Hw Hforce Ex) as E1.
  unfold iteration. cbn [taken]. unfold taken_by. cbn [exec]. rewrite E1.
  unfold set_worker at 1. state_fields.
  rewrite list_lookup_insert_eq by (by eapply lookup_lt_Some).
  destruct (ThreadPool.worker_begin i _) as [s2|]; [| done]. simpl.
  by destruct (ThreadPool.worker_finish i s2).
Qed.

Lemma iterations_taken (n i : nat) (s : State) :
  wf s → workers_ s !! i = Some Waiting → force_stop_ s = false →
  length (tasks_ s) = n →
  taken (iterations n i) s ≡ₚ tasks_ s
  ∧ ∀ j k a b, (j < k)%nat →
      taken (iterations n i) s !! j = Some a →
      taken (iterations n i) s !! k = Some b →
      Task.lt a b = false.
Proof.
  revert s. induction n as [|n IH]; intros s Hwf Hw Hforce Hlen.
  { destruct (tasks_ s); [| done]. split; [done |]. intros j k a b _ H. done. }
  destruct (iteration_run i s Hwf Hw Hforce) as
    (task & rest & w & s1 & Ex & _ & Hrun & Ht1 & Hw1 & Hf1 & _).
  { by destruct (tasks_ s). }
  pose proof (extract_Permutation _ _ _ Ex) as Hperm.
  assert (wf s1) as Hwf1 by (by eapply run_wf).
  destruct (IH s1 Hwf1 Hw1 Hf1) as [Hp1 Hs1].
  { rewrite Ht1. apply Permutation_length in Hperm. simpl in Hperm. lia. }
  rewrite iterations_S, taken_app, Hrun, (taken_iteration i s task rest Hw Hforce Ex).
  simpl. split; [by rewrite Hp1, Ht1, Hperm |].
  intros j k a b Hjk Ha Hb. destruct k as [|k]; [lia |]. simpl in Hb.
  destruct j as [|j]; simpl in Ha.
  - injection Ha as <-. apply (extract_greatest _ _ _ Ex).
    rewrite Hperm. apply list_elem_of_further. rewrite <- Ht1, <- Hp1.
    by eapply list_elem_of_lookup_2.
  - apply (Hs1 j k); [lia | done | done].
Qed.

(** X19. A waiting worker that runs through the whole queue, with nothing
    submitted meanwhile, takes every queued task exactly once and in the
    order of the queue: a task taken earlier has a priority at least as high
    as one taken later, and among equal priorities it was submitted no
    later. *)
Theorem one_worker_runs_the_queue_in_priority_order (i : nat) (s : State) :
  reachable s →
  workers_ s !! i = Some Waiting →
  force_stop_ s = false →
  let order := taken (iterations (length (tasks_ s)) i) s in
  order ≡ₚ tasks_ s
  ∧ ∀ j k a b, (j < k)%nat → order !! j = Some a → order !! k = Some b →
      priority_rank (Task.priority b) ≤ priority_rank (Task.priority a)
      ∧ (Task.priority a = Task.priority b → Task.submit_time a ≤ Task.submit_time b).
Proof.
  intros Hr Hw Hforce. cbv zeta.
  destruct (iterations_taken (length (tasks_ s)) i s (reachable_wf s Hr) Hw Hforce eq_refl)
    as [Hperm Hsorted].
  split; [done |]. intros j k a b Hjk Ha Hb.
  pose proof (Hsorted j k a b Hjk Ha Hb) as Hlt. apply Task_lt_false in Hlt.
  destruct Hlt as [Hlt | [Heq Hle]].
  - split; [lia |]. intros E. rewrite E in Hlt. lia.
  - split; [by rewrite Heq | done].
Qed.

Lemma one_worker_runs_the_queue_in_priority_order_witness :
  let order := taken (iterations (length (tasks_ three_pending)) 0) three_pending in
  order ≡ₚ tasks_ three_pending
  ∧ ∀ j k a b, (j < k)%nat → order !! j = Some a → order !! k = Some b →
      priority_rank (Task.priority b) ≤ priority_rank (Task.priority a)
      ∧ (Task.priority a = Task.priority b → Task.submit_time a ≤ Task.submit_time b).
Proof.
  apply (one_worker_runs_the_queue_in_priority_order 0 three_pending).
  - exists 1%nat, 0, (pool 1),
      [Submit "low" LOW (returns 1); Tick 5;
       Submit "critical-late" CRITICAL (returns 2); Tick 5;
       Submit "high" HIGH (returns 3)].
    split; [reflexivity |]. vm_compute. reflexivity.
  - reflexivity.
  - reflexivity.
Defined.

(** ** Forced shutdown and the tasks in the workers' hands *)






(** The same forced shutdown, in numbers: of the four tasks, the one that was
    running and the one that a worker had taken and not started are
    COMPLETED, the two that were queued are still queued and PENDING. *)
Example forced_shutdown_of_two_workers :
  let s0 := one_running_one_taken in
  let s3 := after (one_running_one_taken_actions
                   ++ ForceShutdownRequest :: wind_down_two ++ [ForceShutdownJoin]) 2 in
  (status_of 0 s0, status_of 1 s0, status_of 2 s0, status_of 3 s0)
  = (Some RUNNING, Some PENDING, Some PENDING, Some PENDING)
  ∧ (status_of 0 s3, status_of 1 s3, status_of 2 s3, status_of 3 s3)
    = (Some COMPLETED, Some COMPLETED, Some PENDING, Some PENDING)
  ∧ ThreadPool.pendingTasks s3 = 2%nat ∧ ThreadPool.size s3 = 0%nat.
Proof. vm_compute. repeat split; reflexivity. Qed.


(** ** After [forceShutdown] *)

(** With [force_stop_] set, a step hands no task to a worker, and a record
    that reads PENDING or CANCELLED and belongs to no worker's task keeps
    doing so. *)
Lemma exec_force_stopped (a : Action) (s s' : State) (p : nat) :
  wf s → force_stop_ s = true → exec a s = Some s' →
  p ∉ Task.info <$> held (workers_ s) → status_in [PENDING; CANCELLED] p s →
  force_stop_ s' = true
  ∧ taken_by a s = []
  ∧ (p ∉ Task.info <$> held (workers_ s'))
  ∧ status_in [PENDING; CANCELLED] p s'.
Proof.
  intros Hwf Hforce He Hp Hst.
  split; [by apply (exec_flags a s s' He) |].
  assert (∀ s2, infos s2 = infos s → status_in [PENDING; CANCELLED] p s2) as Hsame.
  { intros s2 E. apply (status_in_eq _ _ s); [| done]. unfold status_of. by rewrite E. }
  destruct (worker_action a) eqn:Ha.
  { split.
    - destruct a; try done. unfold taken_by. rewrite He. simpl in He.
      apply worker_take_cases in He as [Hw [[_ ->] | (Hf & _)]]; [| congruence].
      unfold set_worker. state_fields.
      rewrite list_lookup_insert_eq; [done |]. by eapply lookup_lt_Some.
    - destruct (run_force_stopped [a] s s' Hwf Hforce) as (_ & _ & _ & Hsub & Hinf & _).
      { simpl. by rewrite Ha. }
      { simpl. by rewrite He. }
      split.
      + intros (t & -> & Ht)%list_elem_of_fmap. apply Hp, list_elem_of_fmap_2.
        by eapply elem_of_submseteq.
      + apply (status_in_eq _ _ s); [| done]. unfold status_of. by rewrite (Hinf p Hp). }
  split; [by destruct a |].
  destruct a; try discriminate; simpl in He.
  - injection He as <-. destruct (stop_ s) eqn:Hstop.
    { rewrite submit_rejected_when_stopping by done. done. }
    destruct (submit_accepted task_id priority f s Hstop)
      as (s2 & -> & Hw & _ & _ & Hi & _). simpl. rewrite Hw. split; [done |].
    apply (status_in_eq _ _ s); [| done]. unfold status_of.
    rewrite Hi, lookup_app_l; [done |]. by eapply status_in_lt.
  - injection He as <-. unfold ThreadPool.cancelTask.
    destruct (task_infos_ s !! task_id) as [q|]; [| done].
    destruct (infos s !! q) as [ti|] eqn:Eq; [| done].
    destruct (decide (TaskInfo.status ti = PENDING)) as [Hpend|]; [| done]. simpl.
    split; [done |]. destruct Hst as (st & H1 & H2).
    unfold status_in, status_of, modify_info in *. state_fields. rewrite status_alter. destruct (decide (p = q)) as [->|].
    + exists CANCELLED. rewrite Eq. split; [done |].
      apply list_elem_of_further, list_elem_of_here.
    + by exists st.
  - injection He as <-. destruct (cancelPendingTasks_spec s) as (inf & -> & Hlen & Hin & Hout).
    state_fields. split; [done |]. destruct Hst as (st & H1 & H2).
    unfold status_in, status_of in *. state_fields.
    destruct (decide (p ∈ Task.info <$> tasks_ s)) as [Hq|Hq].
    + exists CANCELLED. rewrite (Hin p Hq). destruct (infos s !! p); [| done].
      split; [done |]. apply list_elem_of_further, list_elem_of_here.
    + exists st. by rewrite (Hout p Hq).
  - injection He as <-. destruct (resize_spec new_size s) as (k & st & -> & _ & _).
    state_fields. rewrite held_app, held_replicate_Waiting, app_nil_r.
    split; [done |]. by apply Hsame.
  - injection He as <-. split; [done |]. by apply Hsame.
  - unfold ThreadPool.join_and_clear in He.
    destruct (ThreadPool.all_exited (workers_ s)); [| discriminate].
    injection He as <-. state_fields. split; [apply not_elem_of_nil |]. by apply Hsame.
  - injection He as <-. split; [done |]. by apply Hsame.
  - unfold ThreadPool.join_and_clear in He.
    destruct (ThreadPool.all_exited (workers_ s)); [| discriminate].
    injection He as <-. state_fields. split; [apply not_elem_of_nil |]. by apply Hsame.
Qed.

(** X20. A task submitted after [forceShutdown] set [force_stop_] (and
    before any [shutdown]) is accepted and registered (see C5), and never
    run: whatever happens afterwards, no worker takes any task out of the
    queue any more, no worker ever holds this task, and its record reads
    PENDING or CANCELLED for good. *)
Theorem task_submitted_after_forceShutdown_is_never_run (s : State) (task_id : string)
    (priority : TaskPriority) (f : outcome) (l : list Action) (s' : State) :
  reachable s →
  force_stop_ s = true →
  stop_ s = false →
  let s1 := (ThreadPool.submit task_id priority f s).2 in
  run l s1 = Some s' →
  task_infos_ s1 !! task_id = Some (length (infos s))
  ∧ taken l s1 = []
  ∧ (∀ i w t, workers_ s' !! i = Some w → t ∈ task_of w → Task.info t ≠ length (infos s))
  ∧ status_in [PENDING; CANCELLED] (length (infos s)) s'.
Proof.
  intros Hr Hforce Hstop. cbv zeta. pose proof (reachable_wf s Hr) as Hwf.
  pose proof (submit_wf task_id priority f s Hwf) as Hwf1.
  destruct (submit_accepted task_id priority f s Hstop)
    as (s1 & E & Hw1 & _ & Hr1 & Hi1 & _ & _ & Hf1 & _).
  rewrite E in Hwf1 |- *. simpl in *. intros Hrun. split; [rewrite Hr1; apply lookup_insert_eq |].
  assert (length (infos s) ∉ Task.info <$> held (workers_ s1)) as Hp.
  { rewrite Hw1. intros (t & Heq & Ht)%list_elem_of_fmap.
    destruct (wf_closure s Hwf t) as (_ & _ & Hlt); [apply elem_of_app; by right |]. lia. }
  assert (status_in [PENDING; CANCELLED] (length (infos s)) s1) as Hst.
  { exists PENDING. unfold status_of. rewrite Hi1, lookup_app_r, Nat.sub_diag by done.
    split; [done | apply list_elem_of_here]. }
  assert (force_stop_ s1 = true) as Hforce1 by congruence.
  clear Hw1 Hr1 Hi1 Hf1.
  assert (taken l s1 = []
          ∧ (length (infos s) ∉ Task.info <$> held (workers_ s'))
          ∧ status_in [PENDING; CANCELLED] (length (infos s)) s') as (Ht & Hp' & Hst').
  { revert Hrun Hwf1 Hforce1 Hp Hst. generalize (length (infos s)). generalize s1.
    induction l as [|a l IH]; intros s2 p Hrun Hwf2 Hforce2 Hp Hst; simpl in Hrun.
    { by injection Hrun as <-. }
    cbn [taken]. destruct (exec a s2) as [s3|] eqn:He; [| discriminate].
    destruct (exec_force_stopped a s2 s3 p Hwf2 Hforce2 He Hp Hst) as (F1 & F2 & F3 & F4).
    destruct (IH s3 p Hrun) as (G1 & G2 & G3); try done; [by eapply exec_wf |].
    by rewrite F2, G1. }
  split; [done |]. split; [| done].
  intros i w t Hw Hin Heq. apply Hp'. rewrite <- Heq. apply list_elem_of_fmap_2.
  by eapply elem_of_held.
Qed.

Lemma task_submitted_after_forceShutdown_is_never_run_witness :
  let s := ThreadPool.forceShutdown_request one_running_two_pending in
  let s1 := (ThreadPool.submit "late" CRITICAL (returns 9) s).2 in
  let s' := default s1 (run after_force_actions s1) in
  task_infos_ s1 !! "late" = Some (length (infos s))
  ∧ taken after_force_actions s1 = []
  ∧ (∀ i w t, workers_ s' !! i = Some w → t ∈ task_of w → Task.info t ≠ length (infos s))
  ∧ status_in [PENDING; CANCELLED] (length (infos s)) s'.
Proof.
  apply (task_submitted_after_forceShutdown_is_never_run
           (ThreadPool.forceShutdown_request one_running_two_pending) "late" CRITICAL
           (returns 9) after_force_actions).
  - exists 1%nat, 0, (pool 1), (one_running_two_pending_actions ++ [ForceShutdownRequest]).
    split; [reflexivity |]. vm_compute. reflexivity.
  - reflexivity.
  - reflexivity.
  - vm_compute. reflexivity.
Defined.

(** ** Queued tasks are run *)





(** ** Two submissions under one id, in every run *)

(** A worker calls only the packaged task of the task it holds. *)
Lemma worker_action_packaged (a : Action) (s s' : State) (q : nat) :
  wf s → worker_action a = true → exec a s = Some s' →
  q ∉ Task.info <$> held (workers_ s) →
  packaged s' !! q = packaged s !! q.
Proof.
  intros Hwf Ha He Hq. destruct a; try discriminate; simpl in He.
  - by injection He as <-.
  - by apply worker_take_cases in He as [_ [[_ ->] | (_ & task & rest & _ & ->)]].
  - by apply worker_begin_cases in He as (task & Hw & [(c & Hf & ->) | (Hf & ->)]).
  - apply worker_finish_cases in He as (task & c & r & pk & Hw & Hf & _ & _ & Hpk & ->).
    destruct (held_closure s i _ task c Hwf Hw) as (_ & Hc & _);
      [apply list_elem_of_here | done |].
    state_fields. apply Hpk. rewrite Hc. intros ->. apply Hq, list_elem_of_fmap_2.
    eapply elem_of_held; [exact Hw | apply list_elem_of_here].
Qed.

(** No step brings back a task that is neither queued nor held, and none
    touches its packaged task. *)
Lemma exec_dead (a : Action) (s s' : State) (q : nat) :
  wf s → exec a s = Some s' →
  q ∉ Task.info <$> live s → (q < length (packaged s))%nat →
  (q ∉ Task.info <$> live s') ∧ packaged s' !! q = packaged s !! q.
Proof.
  intros Hwf He Hdead Hlt.
  assert (worker_action a = true →
          (q ∉ Task.info <$> live s') ∧ packaged s' !! q = packaged s !! q) as Hworker.
  { intros Ha. split.
    - intros Hin. apply Hdead. pose proof (worker_action_live a s s' Ha He) as Hsub.
      apply list_elem_of_fmap in Hin as (t & -> & Ht). apply list_elem_of_fmap_2.
      by eapply elem_of_submseteq.
    - apply (worker_action_packaged a s s' q Hwf Ha He). intros Hin. apply Hdead.
      unfold live. rewrite fmap_app, elem_of_app. by right. }
  unfold live in Hdead. rewrite fmap_app, not_elem_of_app in Hdead.
  destruct Hdead as [Hq Hh].
  destruct a; try (by apply Hworker); simpl in He.
  - injection He as <-. destruct (stop_ s) eqn:Hstop.
    { rewrite submit_rejected_when_stopping by done. simpl. split; [| done].
      unfold live. rewrite fmap_app, not_elem_of_app. done. }
    destruct (submit_accepted task_id priority f s Hstop)
      as (s2 & -> & Hw & Ht & _ & _ & Hp & _). simpl. split.
    + unfold live. rewrite Ht, Hw, !fmap_app, !not_elem_of_app. simpl.
      repeat split; [done | | done]. apply not_elem_of_cons.
      rewrite <- (wf_alloc s Hwf). split; [lia |]. apply not_elem_of_nil.
    + by rewrite Hp, lookup_app_l.
  - injection He as <-. unfold ThreadPool.cancelTask.
    destruct (task_infos_ s !! task_id) as [p|];
      [| split; [unfold live; rewrite fmap_app, not_elem_of_app |]; done].
    destruct (infos s !! p) as [ti|] eqn:Eq;
      [| split; [unfold live; rewrite fmap_app, not_elem_of_app |]; done].
    destruct (decide (TaskInfo.status ti = PENDING)) as [Hpend|];
      split; (unfold live; rewrite ?fmap_app, ?not_elem_of_app; done).
  - injection He as <-. destruct (cancelPendingTasks_spec s) as (inf & -> & _).
    unfold live. state_fields. done.
  - injection He as <-. destruct (resize_spec new_size s) as (k & st & -> & _ & _).
    unfold live. state_fields. rewrite held_app, held_replicate_Waiting, app_nil_r.
    rewrite fmap_app, not_elem_of_app. done.
  - injection He as <-. unfold live. simpl. rewrite fmap_app, not_elem_of_app. done.
  - unfold ThreadPool.join_and_clear in He.
    destruct (ThreadPool.all_exited (workers_ s)) eqn:Hall; [| discriminate].
    injection He as <-. unfold live. state_fields. rewrite app_nil_r. done.
  - injection He as <-. unfold live. simpl. rewrite fmap_app, not_elem_of_app. done.
  - unfold ThreadPool.join_and_clear in He.
    destruct (ThreadPool.all_exited (workers_ s)) eqn:Hall; [| discriminate].
    injection He as <-. unfold live. state_fields. rewrite app_nil_r. done.
Qed.

Lemma run_dead (l : list Action) (s s' : State) (q : nat) :
  wf s → run l s = Some s' →
  q ∉ Task.info <$> live s → (q < length (packaged s))%nat →
  (q ∉ Task.info <$> live s') ∧ packaged s' !! q = packaged s !! q.
Proof.
  revert s. induction l as [|a l IH]; intros s Hwf; simpl; [by intros [= <-] |].
  destruct (exec a s) as [s1|] eqn:He; [| discriminate]. intros Hrun Hdead Hlt.
  destruct (exec_dead a s s1 q Hwf He Hdead Hlt) as [Hdead1 Hp1].
  destruct (IH s1) as [Hdead' Hp']; try done.
  - by eapply exec_wf.
  - apply lookup_lt_is_Some. rewrite Hp1. by apply lookup_lt_is_Some.
  - split; [done | congruence].
Qed.

(** Apart from [cancelPendingTasks], a step either leaves a queued or held
    task where it is or in a worker's hands, or is the step in which a
    worker runs the task's callable. *)
Lemma exec_carried (a : Action) (s s' : State) (t : Task.t) (w : outcome) :
  wf s → cancels_pending a = false → exec a s = Some s' →
  carried t w s → carried t w s'.
Proof.
  intros Hwf Hc He [[Hlive Hpt] | [Hdead Hpt]].
  2:{ right. destruct (exec_dead a s s' _ Hwf He Hdead) as [Hdead' Hp'].
      - by eapply lookup_lt_Some.
      - split; [done | congruence]. }
  assert (∀ s1, live s1 ≡ₚ live s → packaged s1 = packaged s → carried t w s1) as Hsame.
  { intros s1 Hl Hp. left. rewrite Hl, Hp. done. }
  destruct a as [d|id p g|id| |n| | | | |i|i|i]; try discriminate; simpl in He.
  - injection He as <-. by apply Hsame.
  - injection He as <-. destruct (stop_ s) eqn:Hstop.
    { rewrite submit_rejected_when_stopping by done. by apply Hsame. }
    destruct (submit_accepted id p g s Hstop) as (s2 & -> & Hw & Ht & _ & _ & Hp & _).
    simpl. left. split.
    + unfold live in *. rewrite Ht, Hw. rewrite !elem_of_app in *. tauto.
    + rewrite Hp. by apply lookup_app_l_Some.
  - injection He as <-. apply Hsame; unfold ThreadPool.cancelTask;
      destruct (task_infos_ s !! id) as [q|]; try done;
      destruct (infos s !! q) as [ti|]; try done;
      by destruct (decide (TaskInfo.status ti = PENDING)).
  - injection He as <-. destruct (resize_spec n s) as (k & st & -> & _ & _).
    apply Hsame; [| done]. unfold live. state_fields.
    by rewrite held_app, held_replicate_Waiting, app_nil_r.
  - injection He as <-. by apply Hsame.
  - unfold ThreadPool.join_and_clear in He.
    destruct (ThreadPool.all_exited (workers_ s)) eqn:Hall; [| discriminate].
    injection He as <-. apply Hsame; [| done]. unfold live. state_fields.
    by rewrite (held_all_exited _ Hall).
  - injection He as <-. by apply Hsame.
  - unfold ThreadPool.join_and_clear in He.
    destruct (ThreadPool.all_exited (workers_ s)) eqn:Hall; [| discriminate].
    injection He as <-. apply Hsame; [| done]. unfold live. state_fields.
    by rewrite (held_all_exited _ Hall).
  - apply worker_take_cases in He as [Hw [[_ ->] | (_ & task & rest & E & ->)]].
    + apply Hsame; [| done]. unfold live, set_worker. state_fields.
      by rewrite (held_insert_same _ i Waiting Exited Hw).
    + apply Hsame; [| done]. unfold live, set_worker. state_fields.
      destruct (held_insert (workers_ s) i Waiting (Holding task) Hw) as (r & H1 & H2).
      rewrite H1, H2, (extract_Permutation _ _ _ E). simpl.
      by rewrite <- Permutation_middle.
  - apply worker_begin_cases in He as (task & Hw & [(c & Hf & ->) | (Hf & ->)]).
    + apply Hsame; [| done]. unfold live. state_fields.
      by rewrite (held_insert_same _ i (Holding task) (Executing task) Hw).
    + destruct (wf_closure s Hwf task) as (Hfun & _); [| congruence].
      apply elem_of_app. right. eapply elem_of_held; [done |]. apply list_elem_of_here.
  - apply worker_finish_cases in He as (task & c & r & pk & Hw & Hf & Ecall & _ & Hpk & ->).
    assert (task ∈ live s) as Htask.
    { apply elem_of_app. right. eapply elem_of_held; [done |]. apply list_elem_of_here. }
    destruct (held_closure s i _ task c Hwf Hw) as (_ & Hct & _);
      [apply list_elem_of_here | done |].
    destruct (wf_closure s Hwf task Htask) as (_ & [w0 Hpt0] & _).
    rewrite Hct in Ecall, Hpk.
    rewrite (packaged_task_call_not_ready _ _ _ Hpt0) in Ecall.
    assert (pk = <[Task.info task := PackagedTask.mk w0 (promised w0)]> (packaged s))
      as -> by exact (f_equal (λ x, packaged x.2) (eq_sym Ecall)).
    destruct (held_insert (workers_ s) i (Executing task) Waiting Hw) as (rest & H1 & H2).
    simpl in H1, H2.
    pose proof (wf_nodup s Hwf) as Hnd. unfold live in Hnd, Hlive.
    rewrite H1 in Hnd, Hlive. rewrite <- Permutation_middle in Hnd, Hlive.
    simpl in Hnd. apply NoDup_cons in Hnd as [Hnotin Hnd].
    apply elem_of_cons in Hlive as [-> | Hlive].
    + right. unfold live. state_fields. rewrite H2. split; [done |].
      rewrite Hpt0 in Hpt. injection Hpt as <-.
      apply list_lookup_insert_eq. by eapply lookup_lt_Some.
    + left. unfold live. state_fields. rewrite H2. split; [done |].
      rewrite list_lookup_insert_ne; [done |].
      intros Heq. apply Hnotin. rewrite Heq. by apply list_elem_of_fmap_2.
Qed.

Lemma run_carried (l : list Action) (s s' : State) (t : Task.t) (w : outcome) :
  wf s → forallb (λ a, negb (cancels_pending a)) l = true → run l s = Some s' →
  carried t w s → carried t w s'.
Proof.
  revert s. induction l as [|a l IH]; intros s Hwf Hl; simpl; [by intros [= <-] |].
  simpl in Hl. apply andb_prop in Hl as [Ha Hl]. apply negb_true_iff in Ha.
  destruct (exec a s) as [s1|] eqn:He; [| discriminate]. intros Hrun Hc.
  apply (IH s1); [by eapply exec_wf | done | done |].
  by eapply exec_carried.
Qed.

Lemma worker_actions_cancel_nothing (l : list Action) :
  forallb worker_action l = true → forallb (λ a, negb (cancels_pending a)) l = true.
Proof.
  induction l as [|a l IH]; simpl; [done |]. intros [Ha Hl]%andb_prop.
  rewrite (IH Hl). by destruct a.
Qed.

(** Every worker that holds a task brings it to its end; the queue and the
    flags are as before. *)
Lemma settle_workers (ws : list Worker) (i : nat) (s : State) :
  wf s → drop i (workers_ s) = ws →
  ∃ l s',
    forallb worker_action l = true ∧ run l s = Some s' ∧ wf s'
    ∧ workers_ s' = take i (workers_ s) ++ (at_rest <$> ws)
    ∧ stop_ s' = stop_ s ∧ force_stop_ s' = force_stop_ s ∧ tasks_ s' = tasks_ s.
Proof.
  revert i s. induction ws as [|w ws IH]; intros i s Hwf Hdrop.
  - exists [], s. split; [done |]. split; [done |]. split; [done |].
    split; [| done]. simpl. rewrite app_nil_r.
    symmetry. apply take_ge. by apply drop_nil_inv.
  - assert (workers_ s !! i = Some w) as Hw.
    { rewrite <- (Nat.add_0_r i), <- lookup_drop, Hdrop. done. }
    assert (i < length (workers_ s))%nat as Hlt by (by eapply lookup_lt_Some).
    assert (∃ l1 s1, forallb worker_action l1 = true ∧ run l1 s = Some s1 ∧ wf s1
              ∧ workers_ s1 = <[i := at_rest w]> (workers_ s)
              ∧ stop_ s1 = stop_ s ∧ force_stop_ s1 = force_stop_ s
              ∧ tasks_ s1 = tasks_ s)
      as (l1 & s1 & Hl1 & E1 & Hwf1 & Hws1 & Hs1 & Hf1 & Ht1).
    { assert (w = Exited ∨ w ≠ Exited) as [-> | Hne] by (destruct w; auto).
      - exists [], s. split; [done |]. split; [done |]. split; [done |].
        split; [| done]. symmetry. by apply list_insert_id.
      - destruct (finish_current i w s Hwf Hw Hne) as (l1 & s1 & H).
        exists l1, s1. by destruct w. }
    destruct (IH (S i) s1 Hwf1) as (l2 & s' & Hl2 & E' & Hwf' & Hws' & Hs' & Hf' & Ht').
    { rewrite Hws1, drop_insert_lt by lia.
      rewrite (drop_S _ _ _ Hw) in Hdrop. by injection Hdrop. }
    exists (l1 ++ l2), s'. split; [by rewrite forallb_app, Hl1, Hl2 |].
    split; [by rewrite run_app, E1 |]. split; [done |].
    split; [| repeat split; congruence].
    rewrite Hws', Hws1.
    rewrite (take_S_r _ _ (at_rest w)) by (by apply list_lookup_insert_eq).
    rewrite take_insert_ge by lia. simpl. by rewrite <- app_assoc.
Qed.

Lemma held_at_rest (ws : list Worker) : held (at_rest <$> ws) = [].
Proof. induction ws as [|w ws IH]; [done |]. by destruct w. Qed.

(** With a worker that has not left its loop and no forced shutdown, the
    workers can bring the pool to rest: the queue empty, no task held. *)
Lemma pool_can_come_to_rest (s : State) (i : nat) (w : Worker) :
  wf s → workers_ s !! i = Some w → w ≠ Exited → force_stop_ s = false →
  ∃ l s',
    forallb worker_action l = true ∧ run l s = Some s'
    ∧ tasks_ s' = [] ∧ held (workers_ s') = [].
Proof.
  intros Hwf Hw Hne Hforce.
  destruct (settle_workers (workers_ s) 0 s Hwf eq_refl)
    as (l1 & s1 & Hl1 & E1 & Hwf1 & Hws1 & _ & Hf1 & _).
  simpl in Hws1.
  assert (workers_ s1 !! i = Some Waiting) as Hw1.
  { rewrite Hws1, list_lookup_fmap, Hw. by destruct w. }
  destruct (drain_queue (length (tasks_ s1)) i s1 Hwf1 Hw1) as
    (l2 & s2 & Hl2 & E2 & _ & Hws2 & _ & _ & Ht2); [congruence | done |].
  exists (l1 ++ l2), s2. split; [by rewrite forallb_app, Hl1, Hl2 |].
  split; [by rewrite run_app, E1 |]. split; [done |].
  rewrite Hws2, Hws1. apply held_at_rest.
Qed.

(** What [carried] says about the future of the task. *)
Lemma carried_future (t : Task.t) (w : outcome) (s : State) :
  carried t w s →
  (t ∈ live s ∧ future_of (Task.info t) s = Some not_ready)
  ∨ ((Task.info t ∉ Task.info <$> live s)
     ∧ future_of (Task.info t) s = Some (promised w)).
Proof.
  unfold future_of. intros [[Hl Hp] | [Hd Hp]]; rewrite Hp; [by left | by right].
Qed.

(** C10 (amended).  When [submit] is called with an id under which a task
    is registered and still live (queued or in a worker's hands), and no
    graceful shutdown is requested, the call succeeds; the first task stays
    where it was and the new task is appended to the queue; the registry
    entry of the id points to the new record, PENDING.  In every later state
    reached without a call of [cancelPendingTasks], each of the two tasks is
    either still queued or held, its future not ready, or gone from the
    queue and the workers with its future holding what its callable did: a
    task leaves only by being run.  If the pool has a worker that has not
    left its loop and is not force-stopped, the workers can empty the
    queue, and then both futures are ready.  As long as nothing is
    submitted under the id again, the registry entry stays on the second
    record, and [getTaskInfos] returns exactly one record with that id, the
    second one. *)
Theorem resubmitted_id_is_accepted_and_both_tasks_stay (s : State) (task_id : string)
    (priority : TaskPriority) (f : outcome) (first : Task.t) :
  reachable s →
  stop_ s = false →
  first ∈ live s →
  task_infos_ s !! task_id = Some (Task.info first) →
  ∃ future s2 second w1,
    ThreadPool.submit task_id priority f s = (Ok future, s2)
    ∧ tasks_ s2 = tasks_ s ++ [second]
    ∧ workers_ s2 = workers_ s
    ∧ Task.id second = task_id
    ∧ Task.info second = future
    ∧ Task.function second = Some (Closure.mk future (Task.info second))
    ∧ Task.function first = Some (Closure.mk (Task.info first) (Task.info first))
    ∧ packaged s2 !! Task.info first = Some (PackagedTask.mk w1 not_ready)
    ∧ packaged s2 !! future = Some (PackagedTask.mk f not_ready)
    ∧ Task.info second ≠ Task.info first
    ∧ task_infos_ s2 !! task_id = Some (Task.info second)
    ∧ infos s2 !! Task.info second
      = Some (TaskInfo.mk task_id priority PENDING (now s) 0 0 "")
    ∧ (∀ l s3,
         forallb (λ a, negb (cancels_pending a)) l = true →
         run l s2 = Some s3 →
         ((first ∈ live s3 ∧ future_of (Task.info first) s3 = Some not_ready)
          ∨ ((Task.info first ∉ Task.info <$> live s3)
             ∧ future_of (Task.info first) s3 = Some (promised w1)))
         ∧ ((second ∈ live s3 ∧ future_of future s3 = Some not_ready)
            ∨ ((Task.info second ∉ Task.info <$> live s3)
               ∧ future_of future s3 = Some (promised f))))
    ∧ (∀ i w, workers_ s2 !! i = Some w → w ≠ Exited → force_stop_ s2 = false →
         ∃ l s3,
           forallb worker_action l = true
           ∧ run l s2 = Some s3
           ∧ ThreadPool.pendingTasks s3 = 0%nat
           ∧ held (workers_ s3) = []
           ∧ future_of (Task.info first) s3 = Some (promised w1)
           ∧ future_of future s3 = Some (promised f))
    ∧ (∀ l s3,
         forallb (λ a, negb (resubmits task_id a)) l = true →
         run l s2 = Some s3 →
         task_infos_ s3 !! task_id = Some (Task.info second)
         ∧ ∃ info,
             infos s3 !! Task.info second = Some info
             ∧ TaskInfo.id info = task_id
             ∧ info ∈ ThreadPool.getTaskInfos s3
             ∧ ∀ info', info' ∈ ThreadPool.getTaskInfos s3 →
                 TaskInfo.id info' = task_id → info' = info).
Proof.
  intros Hwf%reachable_wf Hstop Hlive Hreg.
  destruct (submit_accepted task_id priority f s Hstop)
    as (s2 & E & Hw2 & Ht2 & Hr2 & Hi2 & Hp2 & _ & Hf2 & _).
  pose proof (submit_wf task_id priority f s Hwf) as Hwf2. rewrite E in Hwf2. simpl in Hwf2.
  pose proof (wf_alloc s Hwf) as Hal.
  destruct (wf_closure s Hwf first Hlive) as (Hfun1 & [w1 Hpt1] & Hlt1).
  set (second := Task.mk task_id priority
                   (Some (Closure.mk (length (packaged s)) (length (infos s))))
                   (clock s) (length (infos s))).
  assert (packaged s2 !! length (packaged s) = Some (PackagedTask.mk f not_ready)) as Hpt2
    by (by rewrite Hp2, lookup_app_r, Nat.sub_diag).
  assert (infos s2 !! length (infos s)
          = Some (TaskInfo.mk task_id priority PENDING (now s) 0 0 "")) as Hnew
    by (by rewrite Hi2, lookup_app_r, Nat.sub_diag).
  assert (carried first w1 s2) as Hc1.
  { left. split.
    - unfold live in *. rewrite Ht2, Hw2. rewrite !elem_of_app in *. tauto.
    - rewrite Hp2. by apply lookup_app_l_Some. }
  assert (carried second f s2) as Hc2.
  { left. split.
    - unfold live. rewrite Ht2. rewrite !elem_of_app. left. right. apply list_elem_of_here.
    - simpl. by rewrite <- Hal. }
  assert (∀ l s3, forallb (λ a, negb (cancels_pending a)) l = true → run l s2 = Some s3 →
            ((first ∈ live s3 ∧ future_of (Task.info first) s3 = Some not_ready)
             ∨ ((Task.info first ∉ Task.info <$> live s3)
                ∧ future_of (Task.info first) s3 = Some (promised w1)))
            ∧ ((second ∈ live s3 ∧ future_of (length (packaged s)) s3 = Some not_ready)
               ∨ ((Task.info second ∉ Task.info <$> live s3)
                  ∧ future_of (length (packaged s)) s3 = Some (promised f)))) as Hkept.
  { intros l s3 Hl Hrun. split.
    - apply carried_future. by apply (run_carried l s2).
    - rewrite Hal.
      exact (carried_future second f s3 (run_carried l s2 s3 _ _ Hwf2 Hl Hrun Hc2)). }
  exists (length (packaged s)), s2, second, w1.
  split; [exact E |]. split; [exact Ht2 |]. split; [exact Hw2 |]. split; [reflexivity |].
  split; [simpl; lia |]. split; [reflexivity |]. split; [exact Hfun1 |].
  split; [rewrite Hp2; by apply lookup_app_l_Some |].
  split; [exact Hpt2 |].
  split; [simpl; lia |].
  split; [rewrite Hr2; apply lookup_insert_eq |].
  split; [exact Hnew |].
  split; [exact Hkept |].
  split.
  - intros i w Hi Hne Hforce.
    destruct (pool_can_come_to_rest s2 i w Hwf2 Hi Hne Hforce)
      as (l & s3 & Hl & Hrun & Ht3 & Hh3).
    exists l, s3. split; [done |]. split; [done |].
    split; [unfold ThreadPool.pendingTasks; by rewrite Ht3 |]. split; [done |].
    destruct (Hkept l s3 (worker_actions_cancel_nothing l Hl) Hrun) as [H1 H2].
    assert (live s3 = []) as Hnil by (unfold live; by rewrite Ht3, Hh3).
    rewrite Hnil in H1, H2.
    destruct H1 as [[H1 _] | [_ H1]]; [by apply elem_of_nil in H1 |].
    destruct H2 as [[H2 _] | [_ H2]]; [by apply elem_of_nil in H2 |]. done.
  - intros l s3 Hl Hrun.
    assert (task_infos_ s3 !! task_id = Some (Task.info second)) as Hreg3.
    { rewrite (run_registry task_id l s2 s3 Hl Hrun), Hr2. apply lookup_insert_eq. }
    split; [exact Hreg3 |].
    destruct (run_records l s2 s3 _ _ Hrun Hnew) as (info & Hinfo & Hid & _).
    pose proof (run_wf l s2 s3 Hwf2 Hrun) as Hwf3.
    exists info. split; [exact Hinfo |]. split; [exact Hid |].
    split; [apply elem_of_getTaskInfos; by exists task_id, (Task.info second) |].
    intros info' Hin Hid'.
    pose proof (getTaskInfos_by_id info' s3 (Task.info second) Hwf3) as H.
    rewrite Hid' in H. specialize (H Hreg3 Hin). simpl in H, Hinfo. congruence.
Qed.

Lemma resubmitted_id_is_accepted_and_both_tasks_stay_witness :
  let s := job_taken in
  let first := Task.mk "job" NORMAL (Some (Closure.mk 0 0)) 0 0 in
  ∃ future s2 second w1,
    ThreadPool.submit "job" HIGH (returns 2) s = (Ok future, s2)
    ∧ tasks_ s2 = tasks_ s ++ [second]
    ∧ workers_ s2 = workers_ s
    ∧ Task.id second = "job"
    ∧ Task.info second = future
    ∧ Task.function second = Some (Closure.mk future (Task.info second))
    ∧ Task.function first = Some (Closure.mk (Task.info first) (Task.info first))
    ∧ packaged s2 !! Task.info first = Some (PackagedTask.mk w1 not_ready)
    ∧ packaged s2 !! future = Some (PackagedTask.mk (returns 2) not_ready)
    ∧ Task.info second ≠ Task.info first
    ∧ task_infos_ s2 !! "job" = Some (Task.info second)
    ∧ infos s2 !! Task.info second
      = Some (TaskInfo.mk "job" HIGH PENDING (now s) 0 0 "")
    ∧ (∀ l s3,
         forallb (λ a, negb (cancels_pending a)) l = true →
         run l s2 = Some s3 →
         ((first ∈ live s3 ∧ future_of (Task.info first) s3 = Some not_ready)
          ∨ ((Task.info first ∉ Task.info <$> live s3)
             ∧ future_of (Task.info first) s3 = Some (promised w1)))
         ∧ ((second ∈ live s3 ∧ future_of future s3 = Some not_ready)
            ∨ ((Task.info second ∉ Task.info <$> live s3)
               ∧ future_of future s3 = Some (promised (returns 2)))))
    ∧ (∀ i w, workers_ s2 !! i = Some w → w ≠ Exited → force_stop_ s2 = false →
         ∃ l s3,
           forallb worker_action l = true
           ∧ run l s2 = Some s3
           ∧ ThreadPool.pendingTasks s3 = 0%nat
           ∧ held (workers_ s3) = []
           ∧ future_of (Task.info first) s3 = Some (promised w1)
           ∧ future_of future s3 = Some (promised (returns 2)))
    ∧ (∀ l s3,
         forallb (λ a, negb (resubmits "job" a)) l = true →
         run l s2 = Some s3 →
         task_infos_ s3 !! "job" = Some (Task.info second)
         ∧ ∃ info,
             infos s3 !! Task.info second = Some info
             ∧ TaskInfo.id info = "job"
             ∧ info ∈ ThreadPool.getTaskInfos s3
             ∧ ∀ info', info' ∈ ThreadPool.getTaskInfos s3 →
                 TaskInfo.id info' = "job" → info' = info).
Proof.
  apply (resubmitted_id_is_accepted_and_both_tasks_stay job_taken "job" HIGH
           (returns 2) (Task.mk "job" NORMAL (Some (Closure.mk 0 0)) 0 0)).
  - exists 1%nat, 0, (pool 1), [Submit "job" NORMAL (returns 1); WorkerTake 0].
    split; [reflexivity |]. vm_compute. reflexivity.
  - reflexivity.
  - vm_compute. apply list_elem_of_here.
  - vm_compute. reflexivity.
Defined.

(** C10 as stated fails.  With the first task still queued and [shutdown]
    requested, the second submission throws.  And after both submissions
    on a running pool, [cancelPendingTasks] removes both tasks: no queued or
    held task ever points to either record again, so neither callable is
    run, and the registry entry keeps showing the second record, CANCELLED. *)
Lemma resubmission_is_refused_or_the_tasks_are_never_run :
  (let s := ThreadPool.shutdown_request once_submitted in
   Task.mk "job" NORMAL (Some (Closure.mk 0 0)) 0 0 ∈ live s
   ∧ task_infos_ s !! "job" = Some 0%nat
   ∧ ThreadPool.submit "job" HIGH (returns 2) s
     = (Throw (std_exception "ThreadPool is shutting down"), s))
  ∧ (ThreadPool.pendingTasks twice_submitted = 2%nat
     ∧ ThreadPool.size twice_submitted = 1%nat
     ∧ ThreadPool.isShuttingDown twice_submitted = false)
  ∧ (∀ l s, run l (ThreadPool.cancelPendingTasks twice_submitted) = Some s →
       ∀ t, t ∈ live s → Task.info t ≠ 0%nat ∧ Task.info t ≠ 1%nat)
  ∧ (∀ l s, forallb (λ a, negb (resubmits "job" a)) l = true →
       run l (ThreadPool.cancelPendingTasks twice_submitted) = Some s →
       task_infos_ s !! "job" = Some 1%nat ∧ status_of 1 s = Some CANCELLED).
Proof.
  set (s1 := ThreadPool.cancelPendingTasks twice_submitted).
  assert (wf s1) as Hwf.
  { apply reachable_wf.
    exists 1%nat, 0, (pool 1),
      [Submit "job" NORMAL (returns 1); Submit "job" HIGH (returns 2); CancelPendingTasks].
    split; [reflexivity |]. vm_compute. reflexivity. }
  assert (live s1 = []) as Hlive by (vm_compute; reflexivity).
  assert (∀ q, q ∉ Task.info <$> live s1) as Hdead.
  { intros q. rewrite Hlive. apply not_elem_of_nil. }
  split; [split; [vm_compute; apply list_elem_of_here | split; vm_compute; reflexivity] |].
  split; [repeat split; vm_compute; reflexivity |].
  split.
  - intros l s Hrun t Ht.
    assert (∀ q, (q < 2)%nat → Task.info t ≠ q) as Hne.
    { intros q Hq Heq.
      destruct (run_dead l s1 s q Hwf Hrun (Hdead q)) as [H _]; [exact Hq |].
      apply H. rewrite <- Heq. by apply list_elem_of_fmap_2. }
    split; apply Hne; lia.
  - intros l s Hl Hrun. split.
    + rewrite (run_registry "job" l s1 s Hl Hrun). vm_compute. reflexivity.
    + destruct (run_settled l s1 s 1 Hwf Hrun (Hdead 1%nat)) as [_ Hi].
      { exists CANCELLED. split; [vm_compute; reflexivity |].
        apply list_elem_of_further, list_elem_of_here. }
      unfold status_of. rewrite Hi. vm_compute. reflexivity.
Qed.

(** ** The C interface *)

Lemma submit_task_globals (func : option outcome) (priority : Z) (callback : option outcome)
    (st : Process) :
  let r := sdk_thread_pool_submit_task func priority callback st in
  g_task_infos r.2 = g_task_infos st
  ∧ ((r.1 = 0 ∨ r.1 = g_next_task_id st)
     ∧ (g_next_task_id r.2 = g_next_task_id st ∧ r.1 = 0
        ∨ g_next_task_id r.2 = uint64_t (g_next_task_id st + 1))).
Proof.
  cbv zeta. unfold sdk_thread_pool_submit_task.
  destruct func as [f|]; [| simpl; auto].
  destruct (SDK.isInitialized (sdk_instance st)); [| simpl; auto]. simpl.
  destruct (SDK.getThreadPool (sdk_instance st)) as [thread_pool|]; [| simpl; auto].
  destruct (ThreadPool.submit _ _ _ thread_pool) as [[future|e] thread_pool']; simpl; auto.
Qed.

Lemma submit_task_with_id_globals (task_id : option string) (func : option outcome)
    (priority : Z) (callback : option outcome) (st : Process) :
  let r := sdk_thread_pool_submit_task_with_id task_id func priority callback st in
  g_task_infos r.2 = g_task_infos st
  ∧ ((r.1 = 0 ∨ r.1 = g_next_task_id st)
     ∧ (g_next_task_id r.2 = g_next_task_id st ∧ r.1 = 0
        ∨ g_next_task_id r.2 = uint64_t (g_next_task_id st + 1))).
Proof.
  cbv zeta. unfold sdk_thread_pool_submit_task_with_id.
  destruct task_id as [task_id|]; [| simpl; auto].
  destruct func as [f|]; [| simpl; auto].
  destruct (SDK.isInitialized (sdk_instance st)); [| simpl; auto]. simpl.
  destruct (SDK.getThreadPool (sdk_instance st)) as [thread_pool|]; [| simpl; auto].
  destruct (ThreadPool.submit _ _ _ thread_pool) as [[future|e] thread_pool']; simpl; auto.
Qed.

(** No call writes to [g_task_infos]; only a submission moves
    [g_next_task_id], by one. *)
Lemma call_globals (c : Call) (st st' : Process) :
  call c st = Some st' →
  g_task_infos st' = g_task_infos st
  ∧ (g_next_task_id st' = g_next_task_id st ∧ returned_id c st = []
     ∨ g_next_task_id st' = uint64_t (g_next_task_id st + 1)
       ∧ (returned_id c st = [] ∨ returned_id c st = [g_next_task_id st])).
Proof.
  intros Hc. destruct c; simpl in Hc.
  - injection Hc as <-.
    destruct (submit_task_globals func priority callback st) as (Hg & Hid & Hn).
    split; [done |]. unfold returned_id.
    destruct Hn as [[Hn H0] | Hn].
    + left. split; [done |]. by rewrite H0.
    + right. split; [done |]. destruct Hid as [-> | ->]; [by left |].
      destruct (g_next_task_id st =? 0); auto.
  - injection Hc as <-.
    destruct (submit_task_with_id_globals task_id func priority callback st)
      as (Hg & Hid & Hn).
    split; [done |]. unfold returned_id.
    destruct Hn as [[Hn H0] | Hn].
    + left. split; [done |]. by rewrite H0.
    + right. split; [done |]. destruct Hid as [-> | ->]; [by left |].
      destruct (g_next_task_id st =? 0); auto.
  - injection Hc as <-. unfold sdk_thread_pool_cancel_task.
    destruct (current_pool st) as [thread_pool|]; [| auto].
    destruct (ThreadPool.cancelTask _ thread_pool). auto.
  - injection Hc as <-. unfold sdk_thread_pool_resize.
    destruct (current_pool st) as [thread_pool|]; [| auto].
    destruct (ThreadPool.resize_within _ _ thread_pool) as [[u|e] thread_pool']; auto.
  - injection Hc as <-. unfold sdk_thread_pool_cancel_all_pending.
    destruct (current_pool st) as [thread_pool|]; auto.
  - destruct (SDK.thread_pool_ (sdk_instance st)) as [thread_pool|]; [| discriminate].
    simpl in Hc. destruct (exec a thread_pool) as [thread_pool'|]; [| discriminate].
    injection Hc as <-. auto.
  - injection Hc as <-. auto.
Qed.

Lemma calls_g_task_infos (l : list Call) (st st' : Process) :
  calls l st = Some st' → g_task_infos st' = g_task_infos st.
Proof.
  revert st. induction l as [|c l IH]; intros st Hl; simpl in Hl.
  { by injection Hl as <-. }
  destruct (call c st) as [st1|] eqn:Hc; [| discriminate].
  rewrite (IH st1 Hl). by apply (call_globals c st st1).
Qed.

(** X22. Nothing writes to [g_task_infos] (line 268), so in every state a
    process can reach the map is empty: [sdk_thread_pool_get_task_status]
    (lines 433-444) returns [SDK_TASK_STATUS_PENDING] for every id,
    [sdk_thread_pool_get_task_info] (lines 446-479) returns [false], and
    the status [TaskWrapper::operator()] hands to the completion callback
    (lines 286-306) is [SDK_TASK_STATUS_COMPLETED], whatever the state of
    the task. *)
Theorem status_queries_of_the_C_interface_find_no_task (l : list Call) (st : Process)
    (task_id : Z) :
  calls l process_start = Some st →
  sdk_thread_pool_get_task_status task_id st = SDK_TASK_STATUS_PENDING
  ∧ (∀ info, (sdk_thread_pool_get_task_info task_id info st).1 = false)
  ∧ (∀ w, TaskWrapper.status w st = SDK_TASK_STATUS_COMPLETED).
Proof.
  intros Hl. pose proof (calls_g_task_infos l _ _ Hl) as Hg. simpl in Hg.
  unfold sdk_thread_pool_get_task_status, sdk_thread_pool_get_task_info, TaskWrapper.status.
  rewrite Hg. split; [by rewrite lookup_empty |].
  split; [intros [info|]; by rewrite ?lookup_empty | intros w; by rewrite lookup_empty].
Qed.

Lemma status_queries_of_the_C_interface_find_no_task_witness :
  sdk_thread_pool_get_task_status 1 c_task_done = SDK_TASK_STATUS_PENDING
  ∧ (∀ info, (sdk_thread_pool_get_task_info 1 info c_task_done).1 = false)
  ∧ (∀ w, TaskWrapper.status w c_task_done = SDK_TASK_STATUS_COMPLETED).
Proof.
  apply (status_queries_of_the_C_interface_find_no_task c_task_done_calls).
  vm_compute. reflexivity.
Defined.

(** The task of the example has run: its record in the pool reads
    COMPLETED, under the id the submission returned. *)
Example c_task_done_record :
  (thread_pool ← current_pool c_task_done;
   p ← task_infos_ thread_pool !! to_string 1;
   status_of p thread_pool)
  = Some COMPLETED.
Proof. vm_compute. reflexivity. Qed.

Lemma wait_task_round_no_task (task_id timeout_ms elapsed : Z) (st : Process) :
  g_task_infos st = ∅ →
  wait_task_round task_id timeout_ms elapsed st
  = if (0 <? timeout_ms) && (timeout_ms * ticks_per_ms <=? elapsed)
    then Some false else None.
Proof.
  intros Hg. unfold wait_task_round, sdk_thread_pool_get_task_status.
  by rewrite Hg, lookup_empty.
Qed.

(** X23. [sdk_thread_pool_wait_task] (lines 499-525) never returns
    [true]: with a zero timeout it never returns at all, however many rounds
    of its loop are run, and with a positive timeout it returns [false],
    exactly when some round of the loop finds the timeout elapsed. *)
Theorem sdk_thread_pool_wait_task_never_returns_true (task_id timeout_ms : Z)
    (rounds : list (Z * Process)) :
  Forall (λ r, ∃ l, calls l process_start = Some r.2) rounds →
  sdk_thread_pool_wait_task task_id timeout_ms rounds ≠ Some true
  ∧ (timeout_ms = 0 → sdk_thread_pool_wait_task task_id timeout_ms rounds = None)
  ∧ (sdk_thread_pool_wait_task task_id timeout_ms rounds = Some false
     ↔ 0 < timeout_ms ∧ ∃ r, r ∈ rounds ∧ timeout_ms * ticks_per_ms ≤ r.1).
Proof.
  intros Hall. induction Hall as [|[elapsed st] rounds [l Hl] _ IH].
  { split; [done |]. split; [done |]. split; [done |].
    intros [_ (r & Hr & _)]. by apply elem_of_nil in Hr. }
  destruct IH as (IH1 & IH2 & IH3).
  pose proof (calls_g_task_infos l _ _ Hl) as Hg. simpl in Hg.
  cbn [sdk_thread_pool_wait_task]. rewrite (wait_task_round_no_task _ _ _ _ Hg).
  destruct ((0 <? timeout_ms) && (timeout_ms * ticks_per_ms <=? elapsed)) eqn:E.
  - apply andb_prop in E as [E1%Z.ltb_lt E2%Z.leb_le].
    split; [done |]. split; [lia |]. split; [| done].
    intros _. split; [done |]. exists (elapsed, st). split; [apply list_elem_of_here | done].
  - split; [done |]. split; [done |]. rewrite IH3. split.
    + intros [H0 (r & Hr & Hle)]. split; [done |]. exists r.
      split; [by apply list_elem_of_further | done].
    + intros [H0 (r & Hr & Hle)]. split; [done |].
      apply elem_of_cons in Hr as [-> | Hr]; [| by exists r].
      simpl in Hle. apply andb_false_iff in E as [E%Z.ltb_ge | E%Z.leb_gt]; lia.
Qed.

Lemma sdk_thread_pool_wait_task_never_returns_true_witness :
  sdk_thread_pool_wait_task 1 0 [(0, c_task_done); (10000000, c_task_done)] ≠ Some true
  ∧ (0 = 0 →
     sdk_thread_pool_wait_task 1 0 [(0, c_task_done); (10000000, c_task_done)] = None)
  ∧ (sdk_thread_pool_wait_task 1 0 [(0, c_task_done); (10000000, c_task_done)] = Some false
     ↔ 0 < 0 ∧ ∃ r, r ∈ [(0, c_task_done); (10000000, c_task_done)]
                    ∧ 0 * ticks_per_ms ≤ r.1).
Proof.
  apply (sdk_thread_pool_wait_task_never_returns_true 1 0
           [(0, c_task_done); (10000000, c_task_done)]).
  repeat apply Forall_cons_2; [| | apply Forall_nil_2];
    (exists c_task_done_calls; vm_compute; reflexivity).
Defined.

Lemma current_pool_Some (st : Process) (thread_pool : State) :
  current_pool st = Some thread_pool →
  SDK.isInitialized (sdk_instance st) = true
  ∧ SDK.getThreadPool (sdk_instance st) = Some thread_pool.
Proof.
  unfold current_pool. by destruct (SDK.isInitialized (sdk_instance st)).
Qed.

Lemma current_pool_with_thread_pool (thread_pool thread_pool' : State) (st : Process) :
  current_pool st = Some thread_pool →
  current_pool (with_thread_pool thread_pool' st) = Some thread_pool'.
Proof.
  intros [Hi _]%current_pool_Some. unfold current_pool, with_thread_pool. simpl.
  unfold SDK.isInitialized in Hi. by rewrite Hi.
Qed.

Lemma uint64_t_small (z : Z) : 0 ≤ z < 2 ^ 64 → uint64_t z = z.
Proof. intros H. unfold uint64_t. by apply Z.mod_small. Qed.

(** X24. [sdk_thread_pool_submit_task] (lines 348-388) with a function, on
    an initialised SDK with a pool, while the next id is not zero: the call
    consumes one id whether or not the pool accepts the task; it returns 0
    exactly when the pool is stopping, and then the pool is unchanged;
    otherwise it returns the id consumed, and the pool has the task queued
    and registered under the decimal digits of that id, with a PENDING
    record that carries the converted priority. *)
Theorem sdk_thread_pool_submit_task_returns_zero_iff_rejected (f : outcome)
    (priority : Z) (callback : option outcome) (st : Process) (thread_pool : State) :
  current_pool st = Some thread_pool →
  0 < g_next_task_id st < 2 ^ 64 →
  let r := sdk_thread_pool_submit_task (Some f) priority callback st in
  g_next_task_id r.2 = uint64_t (g_next_task_id st + 1)
  ∧ g_task_infos r.2 = g_task_infos st
  ∧ (r.1 = 0 ↔ stop_ thread_pool = true)
  ∧ (stop_ thread_pool = true → current_pool r.2 = Some thread_pool)
  ∧ (stop_ thread_pool = false →
     r.1 = g_next_task_id st
     ∧ ∃ thread_pool',
         current_pool r.2 = Some thread_pool'
         ∧ task_infos_ thread_pool' !! to_string r.1 = Some (length (infos thread_pool))
         ∧ infos thread_pool' !! length (infos thread_pool)
           = Some (TaskInfo.mk (to_string r.1) (convertPriority priority) PENDING
                     (clock thread_pool) 0 0 "")
         ∧ ThreadPool.pendingTasks thread_pool' = S (ThreadPool.pendingTasks thread_pool)).
Proof.
  intros Hpool Hid. destruct (current_pool_Some _ _ Hpool) as [Hi Hp]. cbv zeta.
  unfold sdk_thread_pool_submit_task. rewrite Hi, Hp. simpl.
  destruct (stop_ thread_pool) eqn:Hstop.
  - rewrite submit_rejected_when_stopping by done. simpl.
    split; [done |]. split; [done |]. split; [done |].
    split; [| done]. intros _.
    apply (current_pool_with_thread_pool thread_pool). unfold current_pool.
    unfold fetch_add_next_task_id. simpl. unfold current_pool in Hpool. exact Hpool.
  - destruct (submit_accepted (to_string (g_next_task_id st)) (convertPriority priority)
                (TaskWrapper.call (TaskWrapper.mk (Some f) callback (g_next_task_id st)))
                thread_pool Hstop)
      as (pool' & -> & _ & Ht & Hr & Hinf & _).
    simpl. split; [done |]. split; [done |].
    split; [split; [lia | done] |]. split; [done |]. intros _. split; [done |].
    exists pool'. split.
    { apply (current_pool_with_thread_pool thread_pool). exact Hpool. }
    split; [rewrite Hr; apply lookup_insert_eq |].
    split; [by rewrite Hinf, lookup_app_r, Nat.sub_diag |].
    unfold ThreadPool.pendingTasks, PriorityQueue.size. rewrite Ht, length_app. simpl. lia.
Qed.

Lemma sdk_thread_pool_submit_task_returns_zero_iff_rejected_witness :
  let r := sdk_thread_pool_submit_task (Some (returns 0)) SDK_TASK_PRIORITY_HIGH None
             process_with_pool in
  g_next_task_id r.2 = uint64_t (g_next_task_id process_with_pool + 1)
  ∧ g_task_infos r.2 = g_task_infos process_with_pool
  ∧ (r.1 = 0 ↔ stop_ (pool 1) = true)
  ∧ (stop_ (pool 1) = true → current_pool r.2 = Some (pool 1))
  ∧ (stop_ (pool 1) = false →
     r.1 = g_next_task_id process_with_pool
     ∧ ∃ thread_pool',
         current_pool r.2 = Some thread_pool'
         ∧ task_infos_ thread_pool' !! to_string r.1 = Some (length (infos (pool 1)))
         ∧ infos thread_pool' !! length (infos (pool 1))
           = Some (TaskInfo.mk (to_string r.1) (convertPriority SDK_TASK_PRIORITY_HIGH)
                     PENDING (clock (pool 1)) 0 0 "")
         ∧ ThreadPool.pendingTasks thread_pool' = S (ThreadPool.pendingTasks (pool 1))).
Proof.
  apply (sdk_thread_pool_submit_task_returns_zero_iff_rejected (returns 0)
           SDK_TASK_PRIORITY_HIGH None process_with_pool (pool 1)).
  - reflexivity.
  - vm_compute. split; reflexivity.
Defined.

Lemma calls_returned_ids (l : list Call) (st st' : Process) :
  calls l st = Some st' →
  0 < g_next_task_id st →
  g_next_task_id st + Z.of_nat (length l) < 2 ^ 64 →
  g_next_task_id st ≤ g_next_task_id st' ≤ g_next_task_id st + Z.of_nat (length l)
  ∧ (∀ a, a ∈ returned_ids l st → g_next_task_id st ≤ a < g_next_task_id st')
  ∧ (∀ j k a b, (j < k)%nat → returned_ids l st !! j = Some a →
       returned_ids l st !! k = Some b → a < b).
Proof.
  revert st. induction l as [|c l IH]; intros st Hl Hpos Hbound; simpl in Hl.
  { injection Hl as <-. simpl. split; [lia |]. split.
    - intros a Ha. by apply elem_of_nil in Ha.
    - intros j k a b _ Ha. done. }
  destruct (call c st) as [st1|] eqn:Hc; [| discriminate].
  cbn [returned_ids]. rewrite Hc.
  rewrite length_cons, Nat2Z.inj_succ in Hbound.
  rewrite length_cons, Nat2Z.inj_succ.
  destruct (call_globals c st st1 Hc) as (_ & Hn).
  assert (g_next_task_id st ≤ g_next_task_id st1 ≤ g_next_task_id st + 1
          ∧ (returned_id c st = []
             ∨ returned_id c st = [g_next_task_id st]
               ∧ g_next_task_id st1 = g_next_task_id st + 1)) as (Hn1 & Hid).
  { destruct Hn as [[-> ->] | [-> Hret]].
    - split; [lia | by left].
    - rewrite uint64_t_small by lia. split; [lia |].
      destruct Hret as [-> | ->]; [by left | by right]. }
  destruct (IH st1 Hl) as (Hn' & Hin & Hsorted); [lia | lia |].
  split; [lia |].
  destruct Hid as [-> | [-> Hs1]]; simpl.
  - split; [| done]. intros a Ha. specialize (Hin a Ha). lia.
  - split.
    + intros a [-> | Ha]%elem_of_cons; [lia |]. specialize (Hin a Ha). lia.
    + intros j k a b Hjk Ha Hb. destruct k as [|k]; [lia |]. simpl in Hb.
      destruct j as [|j]; simpl in Ha.
      * injection Ha as <-. apply list_elem_of_lookup_2 in Hb.
        specialize (Hin b Hb). lia.
      * apply (Hsorted j k); [lia | done | done].
Qed.

(** X25. The ids returned by the two submission functions of the C
    interface are fresh: along a run of calls that starts with a positive
    [g_next_task_id] and is too short for the counter to wrap, every
    non-zero id returned is larger than the ones returned before, and lies
    between the values of the counter at the start and at the end. *)
Theorem ids_returned_by_the_C_interface_are_fresh (l : list Call) (st st' : Process) :
  calls l st = Some st' →
  0 < g_next_task_id st →
  g_next_task_id st + Z.of_nat (length l) < 2 ^ 64 →
  (∀ j k a b, (j < k)%nat → returned_ids l st !! j = Some a →
     returned_ids l st !! k = Some b → a < b)
  ∧ (∀ a, a ∈ returned_ids l st → g_next_task_id st ≤ a < g_next_task_id st').
Proof.
  intros Hl Hpos Hbound.
  destruct (calls_returned_ids l st st' Hl Hpos Hbound) as (_ & Hin & Hsorted). done.
Qed.

Lemma ids_returned_by_the_C_interface_are_fresh_witness :
  (∀ j k a b, (j < k)%nat → returned_ids c_task_done_calls process_start !! j = Some a →
     returned_ids c_task_done_calls process_start !! k = Some b → a < b)
  ∧ (∀ a, a ∈ returned_ids c_task_done_calls process_start →
       g_next_task_id process_start ≤ a < g_next_task_id c_task_done).
Proof.
  apply (ids_returned_by_the_C_interface_are_fresh c_task_done_calls process_start).
  - vm_compute. reflexivity.
  - reflexivity.
  - reflexivity.
Defined.

(** X26. Round trip through the C interface: the id returned by
    [sdk_thread_pool_submit_task] identifies the task; passed at once to
    [sdk_thread_pool_cancel_task] (lines 481-497) it makes that call return
    [true] and the record of the task read CANCELLED (the task stays in the
    queue), and a second call with it returns [false] and changes
    nothing. *)
Theorem task_submitted_through_the_C_interface_is_cancelled_by_its_id (f : outcome)
    (priority : Z) (callback : option outcome) (st : Process) (thread_pool : State) :
  current_pool st = Some thread_pool →
  stop_ thread_pool = false →
  let r := sdk_thread_pool_submit_task (Some f) priority callback st in
  let c := sdk_thread_pool_cancel_task r.1 r.2 in
  r.1 = g_next_task_id st
  ∧ c.1 = true
  ∧ (∃ thread_pool',
       current_pool c.2 = Some thread_pool'
       ∧ task_infos_ thread_pool' !! to_string r.1 = Some (length (infos thread_pool))
       ∧ status_of (length (infos thread_pool)) thread_pool' = Some CANCELLED
       ∧ ThreadPool.pendingTasks thread_pool' = S (ThreadPool.pendingTasks thread_pool))
  ∧ sdk_thread_pool_cancel_task r.1 c.2 = (false, c.2).
Proof.
  intros Hpool Hstop. destruct (current_pool_Some _ _ Hpool) as [Hi Hp]. cbv zeta.
  unfold sdk_thread_pool_submit_task. rewrite Hi, Hp. simpl.
  destruct (submit_accepted (to_string (g_next_task_id st)) (convertPriority priority)
              (TaskWrapper.call (TaskWrapper.mk (Some f) callback (g_next_task_id st)))
              thread_pool Hstop)
    as (pool' & -> & _ & Ht & Hr & Hinf & _).
  cbn [fst snd]. split; [done |].
  pose (id := to_string (g_next_task_id st)). fold id in Hr.
  set (st1 := with_thread_pool pool' (fetch_add_next_task_id st)).
  assert (current_pool st1 = Some pool') as Hpool1.
  { apply (current_pool_with_thread_pool thread_pool). exact Hpool. }
  assert (task_infos_ pool' !! id = Some (length (infos thread_pool))) as Hreg
    by (rewrite Hr; apply lookup_insert_eq).
  assert (status_of (length (infos thread_pool)) pool' = Some PENDING) as Hst.
  { unfold status_of. by rewrite Hinf, lookup_app_r, Nat.sub_diag. }
  destruct (cancelTask_true id pool' _ Hreg Hst) as [Hc Hst'].
  set (pool2 := modify_info (length (infos thread_pool)) (TaskInfo.with_status CANCELLED) pool')
    in *.
  assert (sdk_thread_pool_cancel_task (g_next_task_id st) st1
          = (true, with_thread_pool pool2 st1)) as Ec.
  { unfold sdk_thread_pool_cancel_task. fold id. by rewrite Hpool1, Hc. }
  rewrite Ec. cbn [fst snd].
  assert (current_pool (with_thread_pool pool2 st1) = Some pool2) as Hpool2.
  { by apply (current_pool_with_thread_pool pool'). }
  split; [done |]. split.
  - exists pool2. split; [done |]. split; [done |]. split; [done |].
    unfold ThreadPool.pendingTasks, PriorityQueue.size, pool2, modify_info. state_fields.
    rewrite Ht, length_app. simpl. lia.
  - unfold sdk_thread_pool_cancel_task. fold id. rewrite Hpool2.
    assert (ThreadPool.cancelTask id pool2 = (false, pool2)) as ->.
    { unfold ThreadPool.cancelTask. unfold status_of in Hst'.
      replace (task_infos_ pool2 !! id) with (Some (length (infos thread_pool))) by done.
      destruct (infos pool2 !! length (infos thread_pool)) as [x|]; [| done].
      injection Hst' as Hx. rewrite Hx. done. }
    reflexivity.
Qed.

Lemma task_submitted_through_the_C_interface_is_cancelled_by_its_id_witness :
  let r := sdk_thread_pool_submit_task (Some (returns 0)) SDK_TASK_PRIORITY_LOW None
             process_with_pool in
  let c := sdk_thread_pool_cancel_task r.1 r.2 in
  r.1 = g_next_task_id process_with_pool
  ∧ c.1 = true
  ∧ (∃ thread_pool',
       current_pool c.2 = Some thread_pool'
       ∧ task_infos_ thread_pool' !! to_string r.1 = Some (length (infos (pool 1)))
       ∧ status_of (length (infos (pool 1))) thread_pool' = Some CANCELLED
       ∧ ThreadPool.pendingTasks thread_pool' = S (ThreadPool.pendingTasks (pool 1)))
  ∧ sdk_thread_pool_cancel_task r.1 c.2 = (false, c.2).
Proof.
  apply (task_submitted_through_the_C_interface_is_cancelled_by_its_id (returns 0)
           SDK_TASK_PRIORITY_LOW None process_with_pool (pool 1)).
  - reflexivity.
  - reflexivity.
Defined.

(** X27. The number returned by [sdk_thread_pool_submit_task_with_id]
    (lines 390-431) does not identify the task: the task is registered under
    the caller's string, while [sdk_thread_pool_cancel_task] looks up the
    decimal digits of the number.  Unless the two coincide or another task
    is registered under these digits, the cancellation returns [false] and
    the task stays PENDING in the queue. *)
Theorem task_submitted_with_id_is_not_cancelled_by_the_returned_id (name : string)
    (f : outcome) (priority : Z) (callback : option outcome) (st : Process)
    (thread_pool : State) :
  current_pool st = Some thread_pool →
  stop_ thread_pool = false →
  c_str name ≠ to_string (g_next_task_id st) →
  task_infos_ thread_pool !! to_string (g_next_task_id st) = None →
  let r := sdk_thread_pool_submit_task_with_id (Some name) (Some f) priority callback st in
  r.1 = g_next_task_id st
  ∧ sdk_thread_pool_cancel_task r.1 r.2 = (false, r.2)
  ∧ ∃ thread_pool',
      current_pool r.2 = Some thread_pool'
      ∧ task_infos_ thread_pool' !! c_str name = Some (length (infos thread_pool))
      ∧ status_of (length (infos thread_pool)) thread_pool' = Some PENDING
      ∧ ThreadPool.pendingTasks thread_pool' = S (ThreadPool.pendingTasks thread_pool).
Proof.
  intros Hpool Hstop Hname Hfree. destruct (current_pool_Some _ _ Hpool) as [Hi Hp].
  cbv zeta. unfold sdk_thread_pool_submit_task_with_id. rewrite Hi, Hp. simpl.
  destruct (submit_accepted (c_str name) (convertPriority priority)
              (TaskWrapper.call (TaskWrapper.mk (Some f) callback (g_next_task_id st)))
              thread_pool Hstop)
    as (pool' & -> & _ & Ht & Hr & Hinf & _).
  cbn [fst snd]. split; [done |].
  set (st1 := with_thread_pool pool' (fetch_add_next_task_id st)).
  assert (current_pool st1 = Some pool') as Hpool1.
  { apply (current_pool_with_thread_pool thread_pool). exact Hpool. }
  split.
  - unfold sdk_thread_pool_cancel_task. rewrite Hpool1.
    assert (ThreadPool.cancelTask (to_string (g_next_task_id st)) pool' = (false, pool')) as ->.
    { unfold ThreadPool.cancelTask. by rewrite Hr, lookup_insert_ne, Hfree. }
    reflexivity.
  - exists pool'. split; [done |]. split; [rewrite Hr; apply lookup_insert_eq |].
    split; [unfold status_of; by rewrite Hinf, lookup_app_r, Nat.sub_diag |].
    unfold ThreadPool.pendingTasks, PriorityQueue.size. rewrite Ht, length_app. simpl. lia.
Qed.

Lemma task_submitted_with_id_is_not_cancelled_by_the_returned_id_witness :
  let r := sdk_thread_pool_submit_task_with_id (Some "job") (Some (returns 0))
             SDK_TASK_PRIORITY_NORMAL None process_with_pool in
  r.1 = g_next_task_id process_with_pool
  ∧ sdk_thread_pool_cancel_task r.1 r.2 = (false, r.2)
  ∧ ∃ thread_pool',
      current_pool r.2 = Some thread_pool'
      ∧ task_infos_ thread_pool' !! c_str "job" = Some (length (infos (pool 1)))
      ∧ status_of (length (infos (pool 1))) thread_pool' = Some PENDING
      ∧ ThreadPool.pendingTasks thread_pool' = S (ThreadPool.pendingTasks (pool 1)).
Proof.
  apply (task_submitted_with_id_is_not_cancelled_by_the_returned_id "job" (returns 0)
           SDK_TASK_PRIORITY_NORMAL None process_with_pool (pool 1)).
  - reflexivity.
  - reflexivity.
  - vm_compute. discriminate.
  - vm_compute. reflexivity.
Defined.

(** X28. When the SDK is not initialised, or has no pool, every function
    of the thread-pool C interface that needs the pool returns its failure
    value (0 or [false]) and changes nothing; in particular
    [sdk_thread_pool_wait_all] returns [false] at once. *)
Theorem C_interface_fails_without_a_pool (st : Process) :
  current_pool st = None →
  (∀ func priority callback,
     sdk_thread_pool_submit_task func priority callback st = (0, st))
  ∧ (∀ task_id func priority callback,
       sdk_thread_pool_submit_task_with_id task_id func priority callback st = (0, st))
  ∧ (∀ task_id, sdk_thread_pool_cancel_task task_id st = (false, st))
  ∧ (∀ available new_size, sdk_thread_pool_resize available new_size st = (false, st))
  ∧ sdk_thread_pool_get_size st = 0
  ∧ sdk_thread_pool_get_active_threads st = 0
  ∧ sdk_thread_pool_get_pending_tasks st = 0
  ∧ (∀ stats, sdk_thread_pool_get_stats stats st = (false, stats))
  ∧ (∀ timeout_ms expired, sdk_thread_pool_wait_all timeout_ms expired st = Some false)
  ∧ sdk_thread_pool_cancel_all_pending st = (0, st).
Proof.
  intros Hpool.
  assert (SDK.isInitialized (sdk_instance st) = false
          ∨ SDK.getThreadPool (sdk_instance st) = None) as Hno.
  { unfold current_pool in Hpool.
    destruct (SDK.isInitialized (sdk_instance st)); [by right | by left]. }
  unfold sdk_thread_pool_cancel_task, sdk_thread_pool_resize, sdk_thread_pool_get_size,
    sdk_thread_pool_get_active_threads, sdk_thread_pool_get_pending_tasks,
    sdk_thread_pool_get_stats, sdk_thread_pool_wait_all, sdk_thread_pool_cancel_all_pending.
  rewrite Hpool. repeat split; try done.
  - intros [f|] priority callback; [| done]. unfold sdk_thread_pool_submit_task.
    destruct Hno as [-> | Hno]; [done |]. rewrite Hno.
    by destruct (SDK.isInitialized (sdk_instance st)).
  - intros [task_id|] [f|] priority callback; try done.
    unfold sdk_thread_pool_submit_task_with_id.
    destruct Hno as [-> | Hno]; [done |]. rewrite Hno.
    by destruct (SDK.isInitialized (sdk_instance st)).
  - by intros [stats|].
Qed.

Lemma C_interface_fails_without_a_pool_witness :
  (∀ func priority callback,
     sdk_thread_pool_submit_task func priority callback process_start = (0, process_start))
  ∧ (∀ task_id func priority callback,
       sdk_thread_pool_submit_task_with_id task_id func priority callback process_start
       = (0, process_start))
  ∧ (∀ task_id, sdk_thread_pool_cancel_task task_id process_start = (false, process_start))
  ∧ (∀ available new_size,
       sdk_thread_pool_resize available new_size process_start = (false, process_start))
  ∧ sdk_thread_pool_get_size process_start = 0
  ∧ sdk_thread_pool_get_active_threads process_start = 0
  ∧ sdk_thread_pool_get_pending_tasks process_start = 0
  ∧ (∀ stats, sdk_thread_pool_get_stats stats process_start = (false, stats))
  ∧ (∀ timeout_ms expired,
       sdk_thread_pool_wait_all timeout_ms expired process_start = Some false)
  ∧ sdk_thread_pool_cancel_all_pending process_start = (0, process_start).
Proof.
  apply (C_interface_fails_without_a_pool process_start). reflexivity.
Defined.

(** X29. [convertPriority] (lines 314-327) is the inverse of the cast of
    a [TaskPriority] to its number, maps every number outside LOW..CRITICAL
    to NORMAL, and is the only case in which the number is not preserved;
    [convertStatus] (lines 329-344) is one-to-one and its values are the
    five enumerators of [sdk_task_status_t]. *)
Theorem priorities_and_statuses_convert_one_to_one :
  (∀ p, convertPriority (priority_rank p) = p)
  ∧ (∀ priority, priority < SDK_TASK_PRIORITY_LOW ∨ SDK_TASK_PRIORITY_CRITICAL < priority →
       convertPriority priority = NORMAL)
  ∧ (∀ priority, priority_rank (convertPriority priority) = priority
       ↔ SDK_TASK_PRIORITY_LOW ≤ priority ≤ SDK_TASK_PRIORITY_CRITICAL)
  ∧ (∀ status status', convertStatus status = convertStatus status' → status = status')
  ∧ (∀ status, SDK_TASK_STATUS_PENDING ≤ convertStatus status ≤ SDK_TASK_STATUS_CANCELLED).
Proof.
  split; [by intros [] |]. split.
  { intros priority H. unfold convertPriority, SDK_TASK_PRIORITY_LOW, SDK_TASK_PRIORITY_NORMAL,
      SDK_TASK_PRIORITY_HIGH, SDK_TASK_PRIORITY_CRITICAL in *.
    destruct (priority =? 0) eqn:E0; [apply Z.eqb_eq in E0; lia |].
    destruct (priority =? 1) eqn:E1; [apply Z.eqb_eq in E1; lia |].
    destruct (priority =? 2) eqn:E2; [apply Z.eqb_eq in E2; lia |].
    destruct (priority =? 3) eqn:E3; [apply Z.eqb_eq in E3; lia |]. done. }
  split.
  { intros priority. unfold convertPriority, SDK_TASK_PRIORITY_LOW, SDK_TASK_PRIORITY_NORMAL,
      SDK_TASK_PRIORITY_HIGH, SDK_TASK_PRIORITY_CRITICAL.
    destruct (priority =? 0) eqn:E0; [apply Z.eqb_eq in E0; simpl; lia |].
    destruct (priority =? 1) eqn:E1; [apply Z.eqb_eq in E1; simpl; lia |].
    destruct (priority =? 2) eqn:E2; [apply Z.eqb_eq in E2; simpl; lia |].
    destruct (priority =? 3) eqn:E3; [apply Z.eqb_eq in E3; simpl; lia |].
    apply Z.eqb_neq in E0, E1, E2, E3. simpl. lia. }
  split; [by intros [] [] |].
  intros []; unfold SDK_TASK_STATUS_PENDING, SDK_TASK_STATUS_CANCELLED; simpl;
    unfold SDK_TASK_STATUS_PENDING, SDK_TASK_STATUS_RUNNING, SDK_TASK_STATUS_COMPLETED,
      SDK_TASK_STATUS_FAILED, SDK_TASK_STATUS_CANCELLED; lia.
Qed.

(** ** Resizing through the C interface *)

(** What [resize] leaves when the system runs out of threads. *)
Lemma resize_within_spec (available new_size : nat) (s : State) :
  let r := ThreadPool.resize_within available new_size s in
  ((new_size - ThreadPool.size s ≤ available)%nat →
     r = (Ok (), ThreadPool.resize new_size s))
  ∧ ((available < new_size - ThreadPool.size s)%nat →
     ∃ e, r.1 = Throw e
          ∧ workers_ r.2 = workers_ s ++ replicate available Waiting
          ∧ stats_ r.2 = stats_ s)
  ∧ tasks_ r.2 = tasks_ s ∧ active_threads_ r.2 = active_threads_ s.
Proof.
  cbv zeta. unfold ThreadPool.resize_within, ThreadPool.size.
  assert (tasks_ (ThreadPool.resize new_size s) = tasks_ s
          ∧ active_threads_ (ThreadPool.resize new_size s) = active_threads_ s) as [Ht Ha].
  { unfold ThreadPool.resize. destruct (decide (new_size = length (workers_ s))); [done |].
    by destruct (decide (length (workers_ s) < new_size)%nat). }
  destruct (decide (new_size - length (workers_ s) ≤ available)%nat) as [Hle | Hgt]; simpl.
  - split; [done |]. split; [lia | done].
  - split; [lia |]. split; [| done]. intros _. eexists. done.
Qed.

(** X30. [sdk_thread_pool_resize] (lines 527-544) on an initialised SDK
    with a pool returns [true] exactly when the system can start the
    threads asked for; that is always so when the request does not exceed
    the current size.  On success [sdk_thread_pool_get_size] reports the
    larger of the requested and the previous size, so a request to shrink
    reports success and leaves the size unchanged.  On failure the threads
    started before the exception stay: the size has grown by [available],
    while [sdk_thread_pool_get_stats] reports what it reported before the
    call, thread count included.  The pending tasks, the active threads and
    [g_next_task_id] are unchanged either way. *)
Theorem sdk_thread_pool_resize_succeeds_unless_threads_run_out (available : nat)
    (new_size : Z) (st : Process) (thread_pool : State) :
  current_pool st = Some thread_pool →
  0 ≤ new_size →
  let size := Z.of_nat (ThreadPool.size thread_pool) in
  let r := sdk_thread_pool_resize available new_size st in
  (r.1 = true ↔ new_size ≤ size + Z.of_nat available)
  ∧ (r.1 = true →
     sdk_thread_pool_get_size r.2 = uint32_t (Z.max new_size size))
  ∧ (r.1 = false →
     sdk_thread_pool_get_size r.2 = uint32_t (size + Z.of_nat available)
     ∧ ∀ stats, sdk_thread_pool_get_stats (Some stats) r.2
                = sdk_thread_pool_get_stats (Some stats) st)
  ∧ (new_size ≤ size →
     r.1 = true ∧ sdk_thread_pool_get_size r.2 = sdk_thread_pool_get_size st)
  ∧ sdk_thread_pool_get_pending_tasks r.2 = sdk_thread_pool_get_pending_tasks st
  ∧ sdk_thread_pool_get_active_threads r.2 = sdk_thread_pool_get_active_threads st
  ∧ g_next_task_id r.2 = g_next_task_id st.
Proof.
  intros Hpool Hpos. cbv zeta. unfold sdk_thread_pool_resize. rewrite Hpool.
  destruct (resize_within_spec available (Z.to_nat new_size) thread_pool)
    as (Hok & Hthrow & Ht & Ha). cbv zeta in Hok, Hthrow, Ht, Ha.
  assert (∀ tp, sdk_thread_pool_get_size (with_thread_pool tp st)
                = uint32_t (Z.of_nat (ThreadPool.size tp))) as Hsize.
  { intros tp. unfold sdk_thread_pool_get_size.
    by rewrite (current_pool_with_thread_pool thread_pool tp st Hpool). }
  assert (sdk_thread_pool_get_size st = uint32_t (Z.of_nat (ThreadPool.size thread_pool)))
    as Hsize0 by (unfold sdk_thread_pool_get_size; by rewrite Hpool).
  assert (∀ tp, tasks_ tp = tasks_ thread_pool → active_threads_ tp = active_threads_ thread_pool →
            sdk_thread_pool_get_pending_tasks (with_thread_pool tp st)
            = sdk_thread_pool_get_pending_tasks st
            ∧ sdk_thread_pool_get_active_threads (with_thread_pool tp st)
              = sdk_thread_pool_get_active_threads st) as Hrest.
  { intros tp Ht' Ha'.
    unfold sdk_thread_pool_get_pending_tasks, sdk_thread_pool_get_active_threads.
    rewrite (current_pool_with_thread_pool thread_pool tp st Hpool), Hpool.
    unfold ThreadPool.pendingTasks, ThreadPool.activeThreads. by rewrite Ht', Ha'. }
  assert (ThreadPool.size (ThreadPool.resize (Z.to_nat new_size) thread_pool)
          = Nat.max (Z.to_nat new_size) (ThreadPool.size thread_pool)) as Hmax.
  { unfold ThreadPool.resize, ThreadPool.size.
    destruct (decide (Z.to_nat new_size = length (workers_ thread_pool))) as [-> | Hne]; [lia |].
    destruct (decide (length (workers_ thread_pool) < Z.to_nat new_size)%nat); simpl.
    - rewrite length_app, length_replicate. lia.
    - lia. }
  destruct (decide (Z.to_nat new_size - ThreadPool.size thread_pool ≤ available)%nat)
    as [Hle | Hgt].
  - rewrite (Hok Hle) in Ht, Ha |- *. cbn [fst snd] in *.
    destruct (Hrest _ Ht Ha) as [Hp Hact].
    split; [split; [lia | done] |].
    split; [intros _; rewrite Hsize, Hmax; f_equal; lia |].
    split; [discriminate |].
    split; [| done].
    intros Hsmall. split; [done |]. rewrite Hsize, Hsize0, Hmax. f_equal. lia.
  - destruct Hthrow as (e & He & Hw & Hst); [lia |].
    destruct (ThreadPool.resize_within available (Z.to_nat new_size) thread_pool)
      as [[u | e'] tp] eqn:E; [discriminate |]. cbn [fst snd] in *.
    destruct (Hrest _ Ht Ha) as [Hp Hact].
    split; [split; [discriminate | lia] |].
    split; [discriminate |].
    split.
    { intros _. split.
      - rewrite Hsize. unfold ThreadPool.size. rewrite Hw, length_app, length_replicate.
        f_equal. lia.
      - intros stats. unfold sdk_thread_pool_get_stats.
        rewrite (current_pool_with_thread_pool thread_pool tp st Hpool), Hpool.
        unfold ThreadPool.getStats. by rewrite Hst, Ha, Ht. }
    split; [lia | done].
Qed.

Lemma sdk_thread_pool_resize_succeeds_unless_threads_run_out_witness :
  let size := Z.of_nat (ThreadPool.size (pool 1)) in
  let r := sdk_thread_pool_resize 1 4 process_with_pool in
  (r.1 = true ↔ 4 ≤ size + Z.of_nat 1)
  ∧ (r.1 = true →
     sdk_thread_pool_get_size r.2 = uint32_t (Z.max 4 size))
  ∧ (r.1 = false →
     sdk_thread_pool_get_size r.2 = uint32_t (size + Z.of_nat 1)
     ∧ ∀ stats, sdk_thread_pool_get_stats (Some stats) r.2
                = sdk_thread_pool_get_stats (Some stats) process_with_pool)
  ∧ (4 ≤ size →
     r.1 = true
     ∧ sdk_thread_pool_get_size r.2 = sdk_thread_pool_get_size process_with_pool)
  ∧ sdk_thread_pool_get_pending_tasks r.2
    = sdk_thread_pool_get_pending_tasks process_with_pool
  ∧ sdk_thread_pool_get_active_threads r.2
    = sdk_thread_pool_get_active_threads process_with_pool
  ∧ g_next_task_id r.2 = g_next_task_id process_with_pool.
Proof.
  apply (sdk_thread_pool_resize_succeeds_unless_threads_run_out 1 4 process_with_pool
           (pool 1)).
  - reflexivity.
  - lia.
Defined.

(** Asked for four threads where the system starts one more, the call
    returns [false]; the pool has two threads afterwards and its statistics
    still say one. *)
Example resize_out_of_threads :
  let r := sdk_thread_pool_resize 1 4 process_with_pool in
  r.1 = false
  ∧ sdk_thread_pool_get_size r.2 = 2
  ∧ (sdk_thread_pool_stats_t.thread_count
       <$> (sdk_thread_pool_get_stats
              (Some (sdk_thread_pool_stats_t.mk 0 0 0 0 0 0%Q 0)) r.2).2) = Some 1.
Proof. vm_compute. repeat split; reflexivity. Qed.
